(** * Viewer theme assets: generator and validator

    A shallow embedding of [scripts/generate-viewer-industrial-theme-assets.py]
    and [scripts/validate-viewer-theme-pack.py].

    Python values are embedded as follows.
    - [int] is [Z]; the bit operators [^], [&] and [>>] are [Z.lxor], [Z.land]
      and [Z.shiftr], which agree with Python on negative operands as well.
    - [float] is the kernel's binary64 type [float]; [+ - * /], [sqrt] and
      the comparisons are the IEEE operations Python uses.
    - [bytes] is [list byte].
    - an exception is a value [Raise e] of the [result] type; a function that
      cannot raise is a plain function.
    - the file system is a finite map from paths to nodes; a file is its
      bytes or, for JSON text, the document the text parses to.
    - [math.sin], [math.cos], [math.atan2], [zlib.compress] and [int] on a
      string, whose results the model does not compute, are the fields of
      the class [Libs]; every theorem holds for all of them.

    The texture synthesizers and [main] of the generator are in the module
    [Tex]; [main] takes the parsed command line.  The parsers of the command
    line and the two CI scripts are not modelled. *)

From Stdlib Require Import ZArith List Lia Floats.
From Stdlib.Strings Require Import Byte Ascii.
From stdpp Require Import base option list gmap strings.

#[local] Set Warnings "-inexact-float,-register-all".
#[local] Open Scope string_scope.
#[local] Open Scope list_scope.
#[local] Open Scope Z_scope.

(** ** The Python runtime *)

Module Py.

Inductive exn :=
| IndexError
| KeyError
| TypeError
| AttributeError
| ValueError (msg : string)
| ZeroDivisionError
| OverflowError
| StructError
| FileNotFoundError
| IsADirectoryError
| JSONDecodeError.

Inductive result (A : Type) :=
| Ok (a : A)
| Raise (e : exn).
Arguments Ok {A} a.
Arguments Raise {A} e.

#[export] Instance result_ret : MRet result := fun A a => Ok a.
#[export] Instance result_bind : MBind result :=
  fun A B f m => match m with Ok a => f a | Raise e => Raise e end.
#[export] Instance result_fmap : FMap result :=
  fun A B f m => match m with Ok a => Ok (f a) | Raise e => Raise e end.

Definition is_ok {A} (m : result A) : bool :=
  match m with Ok _ => true | Raise _ => false end.

(** [for x in xs: body], threading the loop state and stopping at the
    first exception. *)
Fixpoint for_each {A S} (xs : list A) (body : A -> S -> result S) (s : S)
  : result S :=
  match xs with
  | [] => Ok s
  | x :: xs' => s' ← body x s; for_each xs' body s'
  end.

(** [range(n)] *)
Definition range (n : Z) : list Z := Z.of_nat <$> seq 0 (Z.to_nat n).

(** [len(xs)] *)
Definition len {A} (xs : list A) : Z := Z.of_nat (length xs).

(** [xs[i]] on a list: a negative index counts from the end. *)
Definition getitem {A} (xs : list A) (i : Z) : result A :=
  let j := if i <? 0 then len xs + i else i in
  if j <? 0 then Raise IndexError
  else match xs !! Z.to_nat j with
       | Some x => Ok x
       | None => Raise IndexError
       end.

(** [xs[i] = x] on a list. *)
Definition setitem {A} (xs : list A) (i : Z) (x : A) : result (list A) :=
  let j := if i <? 0 then len xs + i else i in
  if (j <? 0) || (len xs <=? j) then Raise IndexError
  else Ok (<[Z.to_nat j := x]> xs).

(** [float(n)] for an [int]: the nearest binary64 value.  Python raises
    [OverflowError] beyond the largest finite float, where this gives
    infinity; no list is that long, and every int converted in the scripts
    is a list position or a 32-bit value. *)
Definition float_of_int (n : Z) : float :=
  SF2Prim (binary_normalize prec emax n 0 false).

(** [min(xs)] and [max(xs)]: the first element, replaced by a later one only
    when that one compares strictly less (greater); [ValueError] on an empty
    sequence. *)
Definition min_float (xs : list float) : result float :=
  match xs with
  | [] => Raise (ValueError "min() arg is an empty sequence")
  | x :: xs' => Ok (fold_left (fun m y => if (y <? m)%float then y else m) xs' x)
  end.

Definition max_float (xs : list float) : result float :=
  match xs with
  | [] => Raise (ValueError "max() arg is an empty sequence")
  | x :: xs' => Ok (fold_left (fun m y => if (m <? y)%float then y else m) xs' x)
  end.

Definition min_int (xs : list Z) : result Z :=
  match xs with
  | [] => Raise (ValueError "min() arg is an empty sequence")
  | x :: xs' => Ok (fold_left (fun m y => if y <? m then y else m) xs' x)
  end.

Definition max_int (xs : list Z) : result Z :=
  match xs with
  | [] => Raise (ValueError "max() arg is an empty sequence")
  | x :: xs' => Ok (fold_left (fun m y => if m <? y then y else m) xs' x)
  end.

(** [max(a, b)] on floats. *)
Definition max2 (a b : float) : float := if (a <? b)%float then b else a.

(** [a / b] on floats. *)
Definition truediv (a b : float) : result float :=
  if (b =? 0)%float then Raise ZeroDivisionError else Ok (a / b)%float.

End Py.
Import Py.

(** ** [struct] and [zlib.crc32] *)

Module Struct.

Definition byte_of_Z (z : Z) : byte :=
  default Byte.x00 (Byte.of_N (Z.to_N (z `mod` 256))).

Definition Z_of_byte (b : byte) : Z := Z.of_N (Byte.to_N b).

#[export] Instance byte_eq_decision : EqDecision byte := Byte.byte_eq_dec.

(** [struct.pack(">I", v)] *)
Definition pack_u32_be (v : Z) : result (list byte) :=
  if (0 <=? v) && (v <=? 0xFFFFFFFF)
  then Ok [ byte_of_Z (Z.shiftr v 24); byte_of_Z (Z.shiftr v 16);
            byte_of_Z (Z.shiftr v 8); byte_of_Z v ]
  else Raise StructError.

(** [struct.unpack(">I", bs)] *)
Definition unpack_u32_be (bs : list byte) : result Z :=
  match bs with
  | [b3; b2; b1; b0] =>
      Ok (Z.shiftl (Z_of_byte b3) 24 + Z.shiftl (Z_of_byte b2) 16
          + Z.shiftl (Z_of_byte b1) 8 + Z_of_byte b0)
  | _ => Raise StructError
  end.

(** [struct.unpack(">II", bs)] *)
Definition unpack_u32_be_pair (bs : list byte) : result (Z * Z) :=
  if len bs =? 8 then
    a ← unpack_u32_be (take 4 bs);
    b ← unpack_u32_be (drop 4 bs);
    Ok (a, b)
  else Raise StructError.

(** [struct.pack("<H", v)] *)
Definition pack_u16_le (v : Z) : result (list byte) :=
  if (0 <=? v) && (v <=? 0xFFFF)
  then Ok [ byte_of_Z v; byte_of_Z (Z.shiftr v 8) ]
  else Raise StructError.

(** The C conversion [(float) x] of a double, round to nearest even. *)
Definition f32_of_float (x : float) : spec_float :=
  match Prim2SF x with
  | S754_finite s m e => binary_round 24 128 s m e
  | sf => sf
  end.

(** The IEEE binary32 encoding.  The kernel's floats have a single NaN,
    encoded as the quiet NaN [0x7FC00000]. *)
Definition f32_bits (sf : spec_float) : Z :=
  let sign (s : bool) := if s then 0x80000000 else 0 in
  match sf with
  | S754_zero s => sign s
  | S754_infinity s => sign s + 0x7F800000
  | S754_nan => 0x7FC00000
  | S754_finite s m e =>
      if 0x800000 <=? Z.pos m
      then sign s + Z.shiftl (e + 150) 23 + (Z.pos m - 0x800000)
      else sign s + Z.pos m
  end.

(** [struct.pack("<f", x)]: [OverflowError] when a finite double is beyond
    the binary32 range. *)
Definition pack_f32 (x : float) : result (list byte) :=
  let y := f32_of_float x in
  match Prim2SF x, y with
  | S754_finite _ _ _, S754_infinity _ => Raise OverflowError
  | _, _ =>
      let v := f32_bits y in
      Ok [ byte_of_Z v; byte_of_Z (Z.shiftr v 8);
           byte_of_Z (Z.shiftr v 16); byte_of_Z (Z.shiftr v 24) ]
  end.

(** [b"".join(struct.pack(fmt, *v) for v in vs)] *)
Fixpoint pack_all {A} (pack : A -> result (list byte)) (vs : list A)
  : result (list byte) :=
  match vs with
  | [] => Ok []
  | v :: vs' => b ← pack v; bs ← pack_all pack vs'; Ok (b ++ bs)
  end.

(** [zlib.crc32]: the reflected CRC-32 with polynomial [0xEDB88320]. *)
Definition crc32_bit (c : Z) : Z :=
  if Z.odd c then Z.lxor (Z.shiftr c 1) 0xEDB88320 else Z.shiftr c 1.

Definition crc32_byte (c : Z) (b : byte) : Z :=
  Nat.iter 8 crc32_bit (Z.lxor c (Z_of_byte b)).

Definition crc32 (data : list byte) : Z :=
  Z.lxor (fold_left crc32_byte data 0xFFFFFFFF) 0xFFFFFFFF.

End Struct.
Import Struct.

(** ** [json] values *)

Inductive json :=
| JNull
| JBool (b : bool)
| JInt (n : Z)
| JFloat (x : float)
| JStr (s : string)
| JArr (xs : list json)
| JObj (kvs : list (string * json)).

(** ** [pathlib] and the file system *)

Declare Scope path_scope.
Delimit Scope path_scope with path.

Module Fs.

(** A path is its anchor (the empty string for a relative path) and its
    components.  The store is keyed by the path as [pathlib] spells it:
    [p / s] adds [s] as one component, and the resolution of [..] or of
    symbolic links by the operating system is not modelled. *)
Record path := Path { anchor : string; parts : list string }.

#[export] Instance path_eq_dec : EqDecision path.
Proof. solve_decision. Defined.

#[export] Instance path_countable : Countable path :=
  inj_countable' (fun p => (anchor p, parts p)) (fun t => Path t.1 t.2)
    (fun p => match p with Path _ _ => eq_refl end).

(** [p / s] *)
Definition div (p : path) (s : string) : path :=
  Path (anchor p) (parts p ++ [s]).

(** [p.parent] *)
Definition parent (p : path) : path := Path (anchor p) (removelast (parts p)).

(** [p.name] *)
Definition name (p : path) : string := default ""%string (last (parts p)).

(** Position of the last ['.'] of a name. *)
Fixpoint rfind_dot (s : string) (i : nat) : option nat :=
  match s with
  | EmptyString => None
  | String c s' =>
      match rfind_dot s' (S i) with
      | Some j => Some j
      | None => if Ascii.eqb c "."%char then Some i else None
      end
  end.

(** [p.stem]: the name without its last suffix; a leading or a trailing dot
    starts no suffix. *)
Definition stem_of (n : string) : string :=
  match rfind_dot n 0 with
  | Some i =>
      if (0 <? i)%nat && (i <? String.length n - 1)%nat
      then String.substring 0 i n else n
  | None => n
  end.

Definition stem (p : path) : string := stem_of (name p).

(** [p.with_name(n)]: [ValueError] on a path without a name. *)
Definition with_name (p : path) (n : string) : result path :=
  if decide (name p = ""%string)
  then Raise (ValueError "has an empty name")
  else Ok (div (parent p) n).

(** A regular file is either the text of a JSON document, modelled by the
    document [json.loads] returns for it, or any other content, modelled by
    its bytes.  The text of a JSON document never begins with the byte
    [0x89], and the PNG signature is not valid UTF-8, so no file is both. *)
Inductive node :=
| BinaryFile (data : list byte)
| JsonFile (doc : json)
| Directory.

(** Errors of the operating system other than a missing file (permissions,
    a full disk, a missing parent directory) are not modelled: a write
    succeeds. *)
Definition exists_ (fs : gmap path node) (p : path) : bool :=
  bool_decide (is_Some (fs !! p)).

Definition write_bytes (fs : gmap path node) (p : path) (data : list byte)
  : gmap path node := <[p := BinaryFile data]> fs.

(** [p.write_text(json.dumps(doc, indent=2) + "\n")] *)
Definition write_json (fs : gmap path node) (p : path) (doc : json)
  : gmap path node := <[p := JsonFile doc]> fs.


(** [p.mkdir(parents=True, exist_ok=True)]: every missing ancestor and
    [p] itself become directories. *)
Fixpoint mkdir_parts (fs : gmap path node) (a : string) (pre post : list string)
  : gmap path node :=
  match post with
  | [] => fs
  | c :: post' =>
      let p := Path a (pre ++ [c]) in
      let fs' := match fs !! p with
                 | None => <[p := Directory]> fs
                 | Some _ => fs
                 end in
      mkdir_parts fs' a (pre ++ [c]) post'
  end.

Definition mkdir (fs : gmap path node) (p : path) : gmap path node :=
  mkdir_parts fs (anchor p) [] (parts p).

Notation "p / s" := (div p s) : path_scope.

End Fs.
Import Fs.

(** ** External libraries *)

(** The functions of the Python runtime and of its C libraries whose results
    the model does not compute: [math.sin], [math.cos], [math.atan2],
    [zlib.compress(_, level=9)], and [int(s)] for a string [s].  Every
    theorem holds for all of them. *)
Class Libs := {
  math_sin : float -> float;
  math_cos : float -> float;
  math_atan2 : float -> float -> float;
  zlib_compress : list byte -> list byte;
  int_of_str : string -> result Z;
}.

(** [math.pi] *)
Definition math_pi : float := 0x1.921fb54442d18p+1%float.

(** ** The generator script *)

Module Gen.

Definition Vec2 : Type := float * float.
Definition Vec3 : Type := float * float * float.

Record MeshData := { vertices : list Vec3; indices : list Z }.

Definition add3 (a b : Vec3) : Vec3 :=
  let '(a0, a1, a2) := a in let '(b0, b1, b2) := b in
  (a0 + b0, a1 + b1, a2 + b2)%float.

Definition sub3 (a b : Vec3) : Vec3 :=
  let '(a0, a1, a2) := a in let '(b0, b1, b2) := b in
  (a0 - b0, a1 - b1, a2 - b2)%float.

Definition cross3 (a b : Vec3) : Vec3 :=
  let '(a0, a1, a2) := a in let '(b0, b1, b2) := b in
  (a1 * b2 - a2 * b1, a2 * b0 - a0 * b2, a0 * b1 - a1 * b0)%float.

Definition len3 (v : Vec3) : float :=
  let '(v0, v1, v2) := v in sqrt (v0 * v0 + v1 * v1 + v2 * v2)%float.

Definition normalize3 (v : Vec3) : Vec3 :=
  let '(v0, v1, v2) := v in
  let l := len3 v in
  if (l <=? 1e-8)%float then (0, 1, 0)%float
  else (v0 / l, v1 / l, v2 / l)%float.

Definition transform_mesh (mesh : MeshData) (scale translate : Vec3) : MeshData :=
  let '(s0, s1, s2) := scale in
  let '(t0, t1, t2) := translate in
  {| vertices :=
       (fun v : Vec3 => let '(v0, v1, v2) := v in
                 (v0 * s0 + t0, v1 * s1 + t1, v2 * s2 + t2)%float)
         <$> vertices mesh;
     indices := indices mesh |}.

Definition no_scale : Vec3 := (1, 1, 1)%float.
Definition no_translate : Vec3 := (0, 0, 0)%float.

(** The loop state of [merge_meshes] is [(vertices, indices, offset)]. *)
Definition merge_step (st : list Vec3 * list Z * Z) (mesh : MeshData)
  : list Vec3 * list Z * Z :=
  let '(vs, ids, offset) := st in
  (vs ++ vertices mesh,
   ids ++ ((fun idx => offset + idx) <$> indices mesh),
   offset + len (vertices mesh)).

Definition merge_meshes (meshes : list MeshData) : MeshData :=
  let '(vs, ids, _) := fold_left merge_step meshes ([], [], 0) in
  {| vertices := vs; indices := ids |}.

Definition build_box (size : Vec3) : MeshData :=
  let '(s0, s1, s2) := size in
  let hx := (s0 * 0.5)%float in
  let hy := (s1 * 0.5)%float in
  let hz := (s2 * 0.5)%float in
  {| vertices :=
       [ (-hx, -hy, -hz); (hx, -hy, -hz); (hx, hy, -hz); (-hx, hy, -hz);
         (-hx, -hy, hz); (hx, -hy, hz); (hx, hy, hz); (-hx, hy, hz) ]%float;
     indices :=
       [ 0; 1; 2; 0; 2; 3;
         4; 6; 5; 4; 7; 6;
         0; 4; 5; 0; 5; 1;
         3; 2; 6; 3; 6; 7;
         0; 3; 7; 0; 7; 4;
         1; 5; 6; 1; 6; 2 ] |}.

Definition build_octahedron (radius : float) : MeshData :=
  {| vertices :=
       [ (0, radius, 0); (-radius, 0, 0); (0, 0, radius);
         (radius, 0, 0); (0, 0, -radius); (0, -radius, 0) ]%float;
     indices :=
       [ 0; 1; 2;  0; 2; 3;  0; 3; 4;  0; 4; 1;
         5; 2; 1;  5; 3; 2;  5; 4; 3;  5; 1; 4 ] |}.

Section WithLibs.
Context `{Libs}.

Definition build_uv_sphere (radius : float) (segments_u segments_v : Z)
  : result MeshData :=
  vs ← for_each (range (segments_v + 1)) (fun y vs =>
        if segments_v =? 0 then Raise ZeroDivisionError else
        let v := (float_of_int y / float_of_int segments_v)%float in
        let phi := (math_pi * v)%float in
        for_each (range (segments_u + 1)) (fun x vs =>
          if segments_u =? 0 then Raise ZeroDivisionError else
          let u := (float_of_int x / float_of_int segments_u)%float in
          let theta := ((2 * math_pi) * u)%float in
          let sx := (radius * math_sin phi * math_cos theta)%float in
          let sy := (radius * math_cos phi)%float in
          let sz := (radius * math_sin phi * math_sin theta)%float in
          Ok (vs ++ [(sx, sy, sz)])) vs) [];
  let row := segments_u + 1 in
  let ids :=
    foldl (fun ids y =>
      foldl (fun ids x =>
        let a := y * row + x in
        let b := a + 1 in
        let c := a + row in
        let d := c + 1 in
        ids ++ [a; c; b; b; c; d]) ids (range segments_u))
      [] (range segments_v) in
  Ok {| vertices := vs; indices := ids |}.

(** In the loops of [build_prism] the divisor [sides] is at least 1 (the
    range is empty otherwise), so neither [/] nor [%] raises. *)
Definition build_prism (radius height : float) (sides : Z) : MeshData :=
  let half_h := (height * 0.5)%float in
  let top_center := 0 in
  let bottom_center := 1 in
  let vs0 := [ (0, half_h, 0); (0, -half_h, 0) ]%float in
  let vs :=
    foldl (fun vs i =>
      let ang := ((2 * math_pi * float_of_int i) / float_of_int sides)%float in
      let x := (math_cos ang * radius)%float in
      let z := (math_sin ang * radius)%float in
      vs ++ [ (x, half_h, z); (x, -half_h, z) ]%float) vs0 (range sides) in
  let ids :=
    foldl (fun ids i =>
      let ni := (i + 1) `mod` sides in
      let top_i := 2 + i * 2 in
      let bot_i := top_i + 1 in
      let top_n := 2 + ni * 2 in
      let bot_n := top_n + 1 in
      ids ++ [top_center; top_n; top_i]
         ++ [bottom_center; bot_i; bot_n]
         ++ [top_i; top_n; bot_i; bot_i; top_n; bot_n]) [] (range sides) in
  {| vertices := vs; indices := ids |}.

(** The loop of [compute_normals]: one triangle per three indices. *)
Fixpoint normals_loop (vertices : list Vec3) (indices : list Z)
    (normals : list Vec3) : result (list Vec3) :=
  match indices with
  | [] => Ok normals
  | i0 :: i1 :: i2 :: rest =>
      p0 ← getitem vertices i0;
      p1 ← getitem vertices i1;
      p2 ← getitem vertices i2;
      let face := cross3 (sub3 p1 p0) (sub3 p2 p0) in
      n0 ← getitem normals i0;
      normals ← setitem normals i0 (add3 n0 face);
      n1 ← getitem normals i1;
      normals ← setitem normals i1 (add3 n1 face);
      n2 ← getitem normals i2;
      normals ← setitem normals i2 (add3 n2 face);
      normals_loop vertices rest normals
  | _ => Raise IndexError
  end.

Definition compute_normals (vertices : list Vec3) (indices : list Z)
  : result (list Vec3) :=
  normals ← normals_loop vertices indices ((fun _ => (0, 0, 0)%float) <$> vertices);
  Ok (normalize3 <$> (normals : list Vec3)).

Definition vec_y (v : Vec3) : float := v.1.2.

Definition compute_uvs (vertices : list Vec3) : result (list Vec2) :=
  min_y ← min_float (vec_y <$> vertices);
  max_y ← max_float (vec_y <$> vertices);
  let span_y := max2 (max_y - min_y)%float 1e-6%float in
  for_each vertices (fun (p : Vec3) uvs =>
    let '(vx, vy, vz) := p in
    a ← truediv (math_atan2 vz vx) (2 * math_pi)%float;
    let u := (0.5 + a)%float in
    d ← truediv (vy - min_y)%float span_y;
    let v := (1 - d)%float in
    Ok (uvs ++ [(u, v)])) [].

Definition png_signature : list byte :=
  [ x89; x50; x4e; x47; x0d; x0a; x1a; x0a ].
Definition IHDR : list byte := [ x49; x48; x44; x52 ].
Definition IDAT : list byte := [ x49; x44; x41; x54 ].
Definition IEND : list byte := [ x49; x45; x4e; x44 ].

Definition chunk (chunk_type data : list byte) : result (list byte) :=
  n ← pack_u32_be (len data);
  c ← pack_u32_be (Z.land (crc32 (chunk_type ++ data)) 0xFFFFFFFF);
  Ok (n ++ chunk_type ++ data ++ c).

(** [struct.pack(">IIBBBBB", width, height, 8, 2, 0, 0, 0)] *)
Definition pack_ihdr (width height : Z) : result (list byte) :=
  w ← pack_u32_be width;
  h ← pack_u32_be height;
  Ok (w ++ h ++ [ x08; x02; x00; x00; x00 ]).

(** A pixel function returns three bytes; [bytearray.extend] accepts
    nothing else. *)
Definition png_row (width : Z) (pixel_fn : Z -> Z -> byte * byte * byte)
    (y : Z) : list byte :=
  foldl (fun row x => let '(r, g, b) := pixel_fn x y in row ++ [r; g; b])
    [x00] (range width).

Definition png_bytes (width height : Z)
    (pixel_fn : Z -> Z -> byte * byte * byte) : result (list byte) :=
  let rows := png_row width pixel_fn <$> range height in
  let raw := concat rows in
  let compressed := zlib_compress raw in
  let png := png_signature in
  hdr ← pack_ihdr width height;
  c1 ← chunk IHDR hdr;
  let png := png ++ c1 in
  c2 ← chunk IDAT compressed;
  let png := png ++ c2 in
  c3 ← chunk IEND [];
  let png := png ++ c3 in
  Ok png.

Definition write_png (path : Fs.path) (width height : Z)
    (pixel_fn : Z -> Z -> byte * byte * byte) (fs : gmap Fs.path node)
  : result (gmap Fs.path node) :=
  png ← png_bytes width height pixel_fn;
  Ok (write_bytes fs path png).

(** A buffer view of the glTF document under construction. *)
Record BufferView := { byteOffset : Z; byteLength : Z; target : option Z }.

Definition view_json (v : BufferView) : json :=
  JObj ([ ("buffer", JInt 0); ("byteOffset", JInt (byteOffset v));
          ("byteLength", JInt (byteLength v)) ]
        ++ match target v with
           | Some t => [ ("target", JInt t) ]
           | None => []
           end).

(** [while len(buffer) % align != 0: buffer.append(0)], with the number of
    iterations that remain as fuel. *)
Fixpoint pad_loop (fuel : nat) (buffer : list byte) (align : Z) : list byte :=
  match fuel with
  | O => buffer
  | S fuel' =>
      if len buffer `mod` align =? 0 then buffer
      else pad_loop fuel' (buffer ++ [x00]) align
  end.

(** The closure [append_blob] of [write_gltf]; its state is the pair of
    [buffer] and [buffer_views]. *)
Definition append_blob (blob : list byte) (target : option Z) (align : Z)
    (st : list byte * list BufferView)
  : result (Z * (list byte * list BufferView)) :=
  let '(buffer, buffer_views) := st in
  if align =? 0 then Raise ZeroDivisionError else
  let buffer := pad_loop (Z.abs_nat align) buffer align in
  let offset := len buffer in
  let buffer := buffer ++ blob in
  let view := {| byteOffset := offset; byteLength := len blob; target := target |} in
  let buffer_views := buffer_views ++ [view] in
  Ok (len buffer_views - 1, (buffer, buffer_views)).

Definition vec_x (v : Vec3) : float := v.1.1.
Definition vec_z (v : Vec3) : float := v.2.

Definition pack_vec3 (v : Vec3) : result (list byte) :=
  let '(a, b, c) := v in
  x ← pack_f32 a; y ← pack_f32 b; z ← pack_f32 c; Ok (x ++ y ++ z).

Definition pack_vec2 (v : Vec2) : result (list byte) :=
  let '(a, b) := v in
  x ← pack_f32 a; y ← pack_f32 b; Ok (x ++ y).

(** The glTF document of [write_gltf]. *)
Definition gltf_document (mesh_name bin_name : string) (buffer_length : Z)
    (buffer_views : list BufferView) (accessors : list json) : json :=
  JObj [ ("asset", JObj [ ("version", JStr "2.0");
                          ("generator", JStr "generate-viewer-industrial-theme-assets.py") ]);
         ("scene", JInt 0);
         ("scenes", JArr [ JObj [ ("nodes", JArr [ JInt 0 ]) ] ]);
         ("nodes", JArr [ JObj [ ("mesh", JInt 0);
                                 ("name", JStr (mesh_name +:+ "Node")) ] ]);
         ("meshes",
          JArr [ JObj [ ("name", JStr mesh_name);
                        ("primitives",
                         JArr [ JObj [ ("attributes",
                                        JObj [ ("POSITION", JInt 0);
                                               ("NORMAL", JInt 1);
                                               ("TEXCOORD_0", JInt 2) ]);
                                       ("indices", JInt 3) ] ]) ] ]);
         ("buffers", JArr [ JObj [ ("uri", JStr bin_name);
                                   ("byteLength", JInt buffer_length) ] ]);
         ("bufferViews", JArr (view_json <$> buffer_views));
         ("accessors", JArr accessors) ].

(** The part of [write_gltf] that fills [buffer] and [buffer_views]: the
    four blobs are packed, then appended in turn. *)
Definition gltf_buffer (vertices normals : list Vec3) (uvs : list Vec2)
    (indices : list Z)
  : result (Z * Z * Z * Z * (list byte * list BufferView)) :=
  let st : list byte * list BufferView := ([], []) in

  pos_blob ← pack_all pack_vec3 vertices;
  nrm_blob ← pack_all pack_vec3 normals;
  uv_blob ← pack_all pack_vec2 uvs;
  idx_blob ← pack_all pack_u16_le indices;

  '(pos_view, st) ← append_blob pos_blob (Some 34962) 4 st;
  '(nrm_view, st) ← append_blob nrm_blob (Some 34962) 4 st;
  '(uv_view, st) ← append_blob uv_blob (Some 34962) 4 st;
  '(idx_view, st) ← append_blob idx_blob (Some 34963) 2 st;
  Ok (pos_view, nrm_view, uv_view, idx_view, st).

(** The [accessors] list of [write_gltf]. *)
Definition gltf_accessors (pos_view nrm_view uv_view idx_view : Z)
    (vertices normals : list Vec3) (uvs : list Vec2) (indices : list Z)
  : result (list json) :=
  min_x ← min_float (vec_x <$> vertices);
  min_y ← min_float (vec_y <$> vertices);
  min_z ← min_float (vec_z <$> vertices);
  max_x ← max_float (vec_x <$> vertices);
  max_y ← max_float (vec_y <$> vertices);
  max_z ← max_float (vec_z <$> vertices);
  let min_pos := [ JFloat min_x; JFloat min_y; JFloat min_z ] in
  let max_pos := [ JFloat max_x; JFloat max_y; JFloat max_z ] in
  min_idx ← min_int indices;
  max_idx ← max_int indices;
  Ok [ JObj [ ("bufferView", JInt pos_view); ("componentType", JInt 5126);
              ("count", JInt (len vertices)); ("type", JStr "VEC3");
              ("min", JArr min_pos); ("max", JArr max_pos) ];
       JObj [ ("bufferView", JInt nrm_view); ("componentType", JInt 5126);
              ("count", JInt (len normals)); ("type", JStr "VEC3") ];
       JObj [ ("bufferView", JInt uv_view); ("componentType", JInt 5126);
              ("count", JInt (len uvs)); ("type", JStr "VEC2") ];
       JObj [ ("bufferView", JInt idx_view); ("componentType", JInt 5123);
              ("count", JInt (len indices)); ("type", JStr "SCALAR");
              ("min", JArr [ JInt min_idx ]); ("max", JArr [ JInt max_idx ]) ] ].

Definition write_gltf (path : Fs.path) (mesh_name : string)
    (vertices : list Vec3) (indices : list Z) (fs : gmap Fs.path node)
  : result (gmap Fs.path node) :=
  normals ← compute_normals vertices indices;
  uvs ← compute_uvs vertices;
  '(pos_view, nrm_view, uv_view, idx_view, (buffer, buffer_views)) ←
    gltf_buffer vertices normals uvs indices;
  accessors ←
    gltf_accessors pos_view nrm_view uv_view idx_view vertices normals uvs indices;

  let bin_name := (stem path +:+ ".bin") in
  bin_path ← with_name path bin_name;
  let fs := write_bytes fs bin_path buffer in

  let gltf := gltf_document mesh_name bin_name (len buffer) buffer_views accessors in
  Ok (write_json fs path gltf).

(** The agent mesh of [generate_meshes]. *)
Definition agent_mesh : MeshData :=
  merge_meshes
    [ build_octahedron 0.56;
      transform_mesh (build_prism 0.16 0.55 6) no_scale (0, 0.54, 0)%float ].

Definition generate_meshes (mesh_dir : Fs.path) (fs : gmap Fs.path node)
  : result (gmap Fs.path node) :=
  let agent := agent_mesh in
  location ← build_uv_sphere 1.05 24 16;
  let asset :=
    merge_meshes
      [ build_box (0.95, 0.6, 0.95)%float;
        transform_mesh (build_box (0.78, 0.22, 0.78)%float) no_scale
          (0, 0.41, 0)%float ] in
  let power_plant :=
    merge_meshes
      [ build_prism 0.56 1.22 8;
        transform_mesh (build_prism 0.22 0.72 8) no_scale (0, 0.74, 0)%float ] in
  dome ← build_uv_sphere 0.43 16 10;
  let power_storage :=
    merge_meshes
      [ build_prism 0.46 1.3 18;
        transform_mesh dome (1, 0.44, 1)%float (0, 0.65, 0)%float;
        transform_mesh dome (1, 0.44, 1)%float (0, -0.65, 0)%float ] in
  fs ← write_gltf (mesh_dir / "agent_industrial.gltf")%path "AgentIndustrialMesh"
         (vertices agent) (indices agent) fs;
  fs ← write_gltf (mesh_dir / "location_industrial.gltf")%path "LocationIndustrialMesh"
         (vertices location) (indices location) fs;
  fs ← write_gltf (mesh_dir / "asset_industrial.gltf")%path "AssetIndustrialMesh"
         (vertices asset) (indices asset) fs;
  fs ← write_gltf (mesh_dir / "power_plant_industrial.gltf")%path "PowerPlantIndustrialMesh"
         (vertices power_plant) (indices power_plant) fs;
  write_gltf (mesh_dir / "power_storage_industrial.gltf")%path "PowerStorageIndustrialMesh"
    (vertices power_storage) (indices power_storage) fs.

End WithLibs.

(** The integer mixing of [hash_noise], before the division. *)
Definition hash_mix (x y seed : Z) : Z :=
  let n := Z.lxor (Z.lxor (x * 73856093) (y * 19349663)) (seed * 83492791) in
  let n := Z.land n 0xFFFFFFFF in
  let n := Z.lxor n (Z.shiftr n 13) * 1274126177 in
  let n := Z.land n 0xFFFFFFFF in
  n.

(** [n / 0xFFFFFFFF] on two ints below [2^53] is the binary64 quotient of
    their conversions. *)
Definition hash_noise (x y seed : Z) : float :=
  (float_of_int (hash_mix x y seed) / float_of_int 0xFFFFFFFF)%float.

End Gen.

(** ** The validator script *)

Module Val.

Definition ENTITIES : list string :=
  [ "agent"; "location"; "asset"; "power_plant"; "power_storage" ].

Definition TEXTURE_CHANNELS : list string :=
  [ "base"; "normal"; "metallic_roughness"; "emissive" ].

Record ThemeValidationProfile := {
  name : string;
  mesh_suffix : string;
  preset_files : list string;
  min_texture_size : Z;
  min_vertices : gmap string Z;
}.

Definition profile_v1 : ThemeValidationProfile :=
  {| name := "v1";
     mesh_suffix := "";
     preset_files :=
       [ "industrial_default.env"; "industrial_matte.env"; "industrial_glossy.env" ];
     min_texture_size := 256;
     min_vertices :=
       list_to_map [ ("agent", 18); ("location", 300); ("asset", 16);
                     ("power_plant", 30); ("power_storage", 200) ] |}.

Definition profile_v2 : ThemeValidationProfile :=
  {| name := "v2";
     mesh_suffix := "_v2";
     preset_files :=
       [ "industrial_v2_default.env"; "industrial_v2_matte.env";
         "industrial_v2_glossy.env" ];
     min_texture_size := 512;
     min_vertices :=
       list_to_map [ ("agent", 48); ("location", 1200); ("asset", 90);
                     ("power_plant", 90); ("power_storage", 900) ] |}.

Definition PROFILES : gmap string ThemeValidationProfile :=
  list_to_map [ ("v1", profile_v1); ("v2", profile_v2) ].

(** One entry of the error list.  The text that the script formats from
    each entry is fixed by its constructor and fields; of a caught exception
    the entry keeps the kind. *)
Inductive error :=
| MissingDirectory (p : path)
| MissingPreset (p : path)
| MissingMesh (p : path)
| GltfParseFailed (p : path) (e : exn)
| MissingPosition (p : path) (e : exn)
| MissingBuffer (p : path) (uri : string)
| VertexBudget (p : path) (vertices required : Z)
| MissingTexture (p : path)
| InvalidPng (p : path) (e : exn)
| TextureTooSmall (p : path) (width height min_size : Z)
| TextureNotSquare (p : path) (width height : Z).

(** [xs[a:b]] *)
Definition slice {A} (xs : list A) (a b : nat) : list A :=
  take (b - a) (drop a xs).

(** [read_png_size] after [path.read_bytes()]. *)
Definition png_size (data : list byte) : result (Z * Z) :=
  if len data <? 33 then Raise (ValueError "png too short")
  else if negb (bool_decide (slice data 0 8 = Gen.png_signature))
  then Raise (ValueError "invalid png signature")
  else if negb (bool_decide (slice data 12 16 = Gen.IHDR))
  then Raise (ValueError "missing IHDR chunk")
  else unpack_u32_be_pair (slice data 16 24).

(** On the text of a JSON document the check of the length or that of the
    signature fails; the model keeps no text, and reports the second. *)
Definition read_png_size (fs : gmap path node) (p : path) : result (Z * Z) :=
  match fs !! p with
  | None => Raise FileNotFoundError
  | Some Directory => Raise IsADirectoryError
  | Some (JsonFile _) => Raise (ValueError "invalid png signature")
  | Some (BinaryFile data) => png_size data
  end.

(** [json.loads(path.read_text(encoding="utf-8"))] *)
Definition load_json (fs : gmap path node) (p : path) : result json :=
  match fs !! p with
  | None => Raise FileNotFoundError
  | Some Directory => Raise IsADirectoryError
  | Some (BinaryFile _) => Raise JSONDecodeError
  | Some (JsonFile doc) => Ok doc
  end.

(** [d.get(k)] on a [dict]. *)
Fixpoint dict_get (kvs : list (string * json)) (k : string) : option json :=
  match kvs with
  | [] => None
  | (k', v) :: kvs' => if decide (k' = k) then Some v else dict_get kvs' k
  end.

Definition chars (s : string) : list json :=
  (fun c => JStr (String c EmptyString)) <$> String.list_ascii_of_string s.

(** [obj[key]]: a [dict] read from JSON has string keys only, a [bool] is
    an [int] as a list index, and indexing a [str] gives a [str]. *)
Definition subscript (obj key : json) : result json :=
  match obj, key with
  | JObj kvs, JStr k =>
      match dict_get kvs k with Some v => Ok v | None => Raise KeyError end
  | JObj _, (JArr _ | JObj _) => Raise TypeError
  | JObj _, _ => Raise KeyError
  | JArr xs, JInt i => getitem xs i
  | JArr xs, JBool b => getitem xs (if b then 1 else 0)
  | JStr s, JInt i => getitem (chars s) i
  | JStr s, JBool b => getitem (chars s) (if b then 1 else 0)
  | _, _ => Raise TypeError
  end.

(** [int(x)] of a float: truncation towards zero. *)
Definition int_of_float (x : float) : result Z :=
  match Prim2SF x with
  | S754_nan => Raise (ValueError "cannot convert float NaN to integer")
  | S754_infinity _ => Raise OverflowError
  | S754_zero _ => Ok 0
  | S754_finite s m e =>
      let a := if 0 <=? e then Z.shiftl (Z.pos m) e else Z.shiftr (Z.pos m) (- e) in
      Ok (if s then - a else a)
  end.

(** [bool(x)] *)
Definition truthy (v : json) : bool :=
  match v with
  | JNull => false
  | JBool b => b
  | JInt n => negb (n =? 0)
  | JFloat x => negb (x =? 0)%float
  | JStr s => negb (bool_decide (s = ""))
  | JArr xs => match xs with [] => false | _ => true end
  | JObj kvs => match kvs with [] => false | _ => true end
  end.

(** [for x in v]: the items of a list, the keys of a dict, the characters
    of a string. *)
Definition iterate (v : json) : result (list json) :=
  match v with
  | JArr xs => Ok xs
  | JObj kvs => Ok ((fun kv : string * json => JStr kv.1) <$> kvs)
  | JStr s => Ok (chars s)
  | _ => Raise TypeError
  end.

Section WithLibs.
Context `{Libs}.

(** [int(x)] *)
Definition int_ (v : json) : result Z :=
  match v with
  | JInt n => Ok n
  | JBool b => Ok (if b then 1 else 0)
  | JFloat x => int_of_float x
  | JStr s => int_of_str s
  | _ => Raise TypeError
  end.

(** The second [try] block of [validate_mesh]. *)
Definition position_count (gltf : json) : result Z :=
  meshes ← subscript gltf (JStr "meshes");
  mesh0 ← subscript meshes (JInt 0);
  primitives ← subscript mesh0 (JStr "primitives");
  primitive ← subscript primitives (JInt 0);
  attributes ← subscript primitive (JStr "attributes");
  position_accessor_index ← subscript attributes (JStr "POSITION");
  accessors ← subscript gltf (JStr "accessors");
  accessor ← subscript accessors position_accessor_index;
  count ← subscript accessor (JStr "count");
  int_ count.

(** The loop of [validate_mesh] over [gltf.get("buffers", [])]; it runs
    outside the [try] blocks. *)
Definition check_buffers (fs : gmap path node) (p : path) (gltf : json)
  : result (list error) :=
  buffers ← match gltf with
            | JObj kvs => Ok (default (JArr []) (dict_get kvs "buffers"))
            | _ => Raise AttributeError
            end;
  items ← iterate buffers;
  for_each items (fun buffer errors =>
    uri ← match buffer with
          | JObj kvs => Ok (default JNull (dict_get kvs "uri"))
          | _ => Raise AttributeError
          end;
    if negb (truthy uri) then Ok errors else
    match uri with
    | JStr s =>
        let buffer_path := (parent p / s)%path in
        if negb (exists_ fs buffer_path)
        then Ok (errors ++ [MissingBuffer p s])
        else Ok errors
    | _ => Raise TypeError
    end) [].

Definition validate_mesh (fs : gmap path node) (p : path)
  : result (Z * list error) :=
  match load_json fs p with
  | Raise exc => Ok (0, [GltfParseFailed p exc])
  | Ok gltf =>
      match position_count gltf with
      | Raise exc => Ok (0, [MissingPosition p exc])
      | Ok vertex_count =>
          errors ← check_buffers fs p gltf;
          Ok (vertex_count, errors)
      end
  end.

(** The body of the loop over [TEXTURE_CHANNELS]. *)
Definition validate_texture (fs : gmap path node) (texture_dir : path)
    (min_texture_size : Z) (entity channel : string) (errors : list error)
  : list error :=
  let texture_path := (texture_dir / (entity +:+ "_" +:+ channel +:+ ".png"))%path in
  if negb (exists_ fs texture_path)
  then errors ++ [MissingTexture texture_path]
  else match read_png_size fs texture_path with
       | Raise exc => errors ++ [InvalidPng texture_path exc]
       | Ok (width, height) =>
           let errors :=
             if (width <? min_texture_size) || (height <? min_texture_size)
             then errors ++ [TextureTooSmall texture_path width height min_texture_size]
             else errors in
           if negb (width =? height)
           then errors ++ [TextureNotSquare texture_path width height]
           else errors
       end.

Definition mesh_path_of (mesh_dir : path) (profile : ThemeValidationProfile)
    (entity : string) : path :=
  (mesh_dir / (entity +:+ "_industrial" +:+ mesh_suffix profile +:+ ".gltf"))%path.

(** The mesh part of the loop over [ENTITIES]. *)
Definition validate_entity_mesh (fs : gmap path node) (mesh_dir : path)
    (profile : ThemeValidationProfile) (entity : string) (errors : list error)
  : result (list error) :=
  let mesh_path := mesh_path_of mesh_dir profile entity in
  if negb (exists_ fs mesh_path)
  then Ok (errors ++ [MissingMesh mesh_path])
  else
    '(vertices, mesh_errors) ← validate_mesh fs mesh_path;
    let errors := errors ++ mesh_errors in
    required_vertices ← match min_vertices profile !! entity with
                        | Some r => Ok r
                        | None => Raise KeyError
                        end;
    if vertices <? required_vertices
    then Ok (errors ++ [VertexBudget mesh_path vertices required_vertices])
    else Ok errors.

Definition validate_entity (fs : gmap path node) (mesh_dir texture_dir : path)
    (profile : ThemeValidationProfile) (min_texture_size : Z)
    (entity : string) (errors : list error) : result (list error) :=
  errors ← validate_entity_mesh fs mesh_dir profile entity errors;
  Ok (foldl (fun errors channel =>
               validate_texture fs texture_dir min_texture_size entity channel errors)
        errors TEXTURE_CHANNELS).

Definition validate_theme_pack (fs : gmap path node) (theme_dir : path)
    (profile : ThemeValidationProfile) (min_texture_size : Z)
  : result (list error) :=
  let errors : list error := [] in
  let mesh_dir := (theme_dir / "meshes")%path in
  let texture_dir := (theme_dir / "textures")%path in
  let preset_dir := (theme_dir / "presets")%path in
  let errors :=
    foldl (fun errors directory =>
             if negb (exists_ fs directory)
             then errors ++ [MissingDirectory directory] else errors)
      errors [mesh_dir; texture_dir; preset_dir] in
  let errors :=
    foldl (fun errors preset =>
             let preset_path := (preset_dir / preset)%path in
             if negb (exists_ fs preset_path)
             then errors ++ [MissingPreset preset_path] else errors)
      errors (preset_files profile) in
  for_each ENTITIES
    (validate_entity fs mesh_dir texture_dir profile min_texture_size) errors.

(** The parsed command line: [--profile] is one of the keys of [PROFILES]. *)
Record Namespace := {
  arg_theme_dir : path;
  arg_profile : string;
  arg_min_texture_size : Z;
}.

(** One line of standard output. *)
Inductive line :=
| FailedHeader
| ErrorLine (err : error)
| PassedLine (theme_dir : path) (profile_name : string) (min_texture : Z).

(** [main]: the exit code and what was printed.  An exception that leaves
    [main] ends the process with a traceback instead. *)
Definition main (args : Namespace) (fs : gmap path node)
  : result (Z * list line) :=
  profile ← match PROFILES !! arg_profile args with
            | Some p => Ok p
            | None => Raise KeyError
            end;
  let min_texture_size :=
    if 0 <? arg_min_texture_size args then arg_min_texture_size args
    else min_texture_size profile in
  let theme_dir := arg_theme_dir args in
  errors ← validate_theme_pack fs theme_dir profile min_texture_size;
  match errors with
  | _ :: _ => Ok (1, FailedHeader :: (ErrorLine <$> errors))
  | [] => Ok (0, [PassedLine theme_dir (name profile) min_texture_size])
  end.

End WithLibs.

End Val.

(** ** A reference instance of the libraries

    Used to run the model on concrete inputs.  The trigonometric functions
    are truncated series, good to about twelve digits on the arguments the
    generator uses; [compress] emits a valid zlib stream of stored blocks
    (the encoder of level 9 chooses other blocks for the same data); [int]
    reads an optional sign and decimal digits between optional blanks. *)

Module Ref.

(** [sum_series n k term acc]: adds [n] terms; each is the previous one
    times [- x2 / ((k + 1) (k + 2))]. *)
Fixpoint sum_series (n : nat) (x2 k term acc : float) : float :=
  match n with
  | O => acc
  | S n' =>
      let term' := (- term * x2 / ((k + 1) * (k + 2)))%float in
      sum_series n' x2 (k + 2)%float term' (acc + term')%float
  end.

Definition sin (x : float) : float := sum_series 24 (x * x)%float 1 x x.
Definition cos (x : float) : float := sum_series 24 (x * x)%float 0 1 1.

(** [atan_series n k p acc]: the series [t - t^3/3 + t^5/5 - ...]. *)
Fixpoint atan_series (n : nat) (t2 k p acc : float) : float :=
  match n with
  | O => acc
  | S n' =>
      let p' := (- p * t2)%float in
      atan_series n' t2 (k + 2)%float p' (acc + p' / (k + 2))%float
  end.

Definition halve (t : float) : float := (t / (1 + sqrt (1 + t * t)))%float.

(** For [|t| <= 1]. *)
Definition atan_unit (t : float) : float :=
  let s := halve (halve t) in
  (4 * atan_series 16 (s * s)%float 1 s s)%float.

Definition atan (t : float) : float :=
  if (abs t <=? 1)%float then atan_unit t
  else if (0 <? t)%float then (math_pi / 2 - atan_unit (1 / t))%float
  else (- (math_pi / 2) - atan_unit (1 / t))%float.

Definition atan2 (y x : float) : float :=
  if (0 <? x)%float then atan (y / x)
  else if (x <? 0)%float then
    if (y <? 0)%float then (atan (y / x) - math_pi)%float
    else (atan (y / x) + math_pi)%float
  else if (0 <? y)%float then (math_pi / 2)%float
  else if (y <? 0)%float then (- (math_pi / 2))%float
  else 0%float.

Definition adler32 (data : list byte) : Z :=
  let '(a, b) :=
    fold_left (fun (ab : Z * Z) c =>
                 let a := (ab.1 + Z_of_byte c) `mod` 65521 in
                 (a, (ab.2 + a) `mod` 65521)) data (1, 0) in
  Z.lor (Z.shiftl b 16) a.

(** Stored deflate blocks of at most 65535 bytes. *)
Fixpoint stored_blocks (fuel : nat) (data : list byte) : list byte :=
  match fuel with
  | O => []
  | S fuel' =>
      let block := take (Z.to_nat 65535) data in
      let rest := drop (Z.to_nat 65535) data in
      let n := len block in
      let last := match rest with [] => true | _ => false end in
      [ if last then x01 else x00;
        byte_of_Z n; byte_of_Z (Z.shiftr n 8);
        byte_of_Z (Z.lxor n 0xFFFF); byte_of_Z (Z.shiftr (Z.lxor n 0xFFFF) 8) ]
      ++ block ++ (if last then [] else stored_blocks fuel' rest)
  end.

Definition compress (data : list byte) : list byte :=
  let c := adler32 data in
  [ x78; x01 ] ++ stored_blocks (S (length data)) data
  ++ [ byte_of_Z (Z.shiftr c 24); byte_of_Z (Z.shiftr c 16);
       byte_of_Z (Z.shiftr c 8); byte_of_Z c ].

Definition digit (c : ascii) : option Z :=
  let n := Z.of_N (N_of_ascii c) in
  if (48 <=? n) && (n <=? 57) then Some (n - 48) else None.

Fixpoint digits (s : list ascii) (acc : Z) : option Z :=
  match s with
  | [] => Some acc
  | c :: s' => d ← digit c; digits s' (10 * acc + d)
  end.

Definition is_blank (c : ascii) : bool :=
  let n := Z.of_N (N_of_ascii c) in (n =? 32) || ((9 <=? n) && (n <=? 13)).

Fixpoint strip_left (s : list ascii) : list ascii :=
  match s with
  | c :: s' => if is_blank c then strip_left s' else s
  | [] => []
  end.

Definition strip (s : list ascii) : list ascii :=
  reverse (strip_left (reverse (strip_left s))).

Definition signed_digits (s : list ascii) : option Z :=
  match s with
  | [] => None
  | c :: s' =>
      if Ascii.eqb c "-" then
        match s' with [] => None | _ => Z.opp <$> digits s' 0 end
      else if Ascii.eqb c "+" then
        match s' with [] => None | _ => digits s' 0 end
      else digits s 0
  end.

Definition int (s : string) : result Z :=
  match signed_digits (strip (String.list_ascii_of_string s)) with
  | Some n => Ok n
  | None => Raise (ValueError "invalid literal for int() with base 10")
  end.

#[export] Instance libs : Libs :=
  {| math_sin := sin; math_cos := cos; math_atan2 := atan2;
     zlib_compress := compress; int_of_str := int |}.

End Ref.

(** ** Notions used in the statements *)

(** [sum(xs)] on ints. *)
Definition sum_int (xs : list Z) : Z := foldr Z.add 0 xs.

(** The index sequence of a merge: the indices of each mesh, shifted by
    the number of vertices before it. *)
Fixpoint rebased (offset : Z) (meshes : list Gen.MeshData) : list Z :=
  match meshes with
  | [] => []
  | m :: ms =>
      ((fun idx => offset + idx) <$> Gen.indices m)
      ++ rebased (offset + len (Gen.vertices m)) ms
  end.

(** The mesh invariant: every index is below the vertex count. *)
Definition indices_in_range (m : Gen.MeshData) : Prop :=
  Forall (fun idx => idx < len (Gen.vertices m)) (Gen.indices m).

(** Whether [struct.pack] accepts every float that [write_gltf] packs for
    a mesh: the coordinates, the normals and the texture coordinates are all
    within the binary32 range. *)
Definition floats_fit `{Libs} (vertices : list Gen.Vec3) (indices : list Z) : bool :=
  is_ok (pack_all Gen.pack_vec3 vertices)
  && match Gen.compute_normals vertices indices with
     | Ok normals => is_ok (pack_all Gen.pack_vec3 normals)
     | Raise _ => true
     end
  && match Gen.compute_uvs vertices with
     | Ok uvs => is_ok (pack_all Gen.pack_vec2 uvs)
     | Raise _ => true
     end.

(** Whether a float is neither infinite nor NaN. *)
Definition is_finite (x : float) : bool :=
  match Prim2SF x with
  | S754_zero _ | S754_finite _ _ _ => true
  | S754_infinity _ | S754_nan => false
  end.

(** The pair that [compute_uvs] computes for one vertex. *)
Definition uv_of `{Libs} (min_y span_y : float) (p : Gen.Vec3) : Gen.Vec2 :=
  let '(vx, vy, vz) := p in
  (0.5 + math_atan2 vz vx / (2 * math_pi), 1 - (vy - min_y) / span_y)%float.

(** The mesh invariant as the loops need it: whole triangles, and every
    index a position of the vertex list. *)
Inductive triangles (n : Z) : list Z -> Prop :=
| triangles_nil : triangles n []
| triangles_cons i0 i1 i2 rest :
    0 <= i0 < n -> 0 <= i1 < n -> 0 <= i2 < n ->
    triangles n rest -> triangles n (i0 :: i1 :: i2 :: rest).

(** The buffer views that [write_gltf] records for blobs of the given
    lengths: consecutive, with the targets of vertex data and of indices. *)
Definition gltf_views (pos nrm uv idx : Z) : list Gen.BufferView :=
  [ {| Gen.byteOffset := 0; Gen.byteLength := pos; Gen.target := Some 34962 |};
    {| Gen.byteOffset := pos; Gen.byteLength := nrm; Gen.target := Some 34962 |};
    {| Gen.byteOffset := pos + nrm; Gen.byteLength := uv; Gen.target := Some 34962 |};
    {| Gen.byteOffset := pos + nrm + uv; Gen.byteLength := idx;
       Gen.target := Some 34963 |} ].

(** The file written next to [path] by [write_gltf]: same directory, same
    stem, extension [.bin]. *)
Definition bin_name_of (path : Fs.path) : string := stem path +:+ ".bin".
Definition bin_path_of (path : Fs.path) : Fs.path :=
  (parent path / bin_name_of path)%path.

(** The first accessor of the document, that of the positions. *)
Definition position_accessor (view count : Z) (fields : list (string * json)) : json :=
  JObj (("bufferView", JInt view) :: ("componentType", JInt 5126)
        :: ("count", JInt count) :: fields).

(** A single triangle, used to run the exporter. *)
Definition triangle_vertices : list Gen.Vec3 :=
  [ (0, 0, 0); (1, 0, 0); (0, 1, 0) ]%float.
Definition triangle_indices : list Z := [ 0; 1; 2 ].






(** A glTF document whose [buffers] list holds a number instead of an
    object; the POSITION accessor chain is in order. *)
Definition malformed_buffers_document : json :=
  JObj [ ("meshes",
          JArr [ JObj [ ("primitives",
                         JArr [ JObj [ ("attributes",
                                        JObj [ ("POSITION", JInt 0) ]) ] ]) ] ]);
         ("accessors", JArr [ JObj [ ("count", JInt 20) ] ]);
         ("buffers", JArr [ JInt 1 ]) ].

Definition pack_with_malformed_buffers : gmap path node :=
  <[ Path "" ["theme"; "meshes"; "agent_industrial.gltf"]
     := JsonFile malformed_buffers_document ]> ∅.


(** The mesh invariant: whole triangles, every index a position of the
    mesh's own vertex list. *)
Definition well_formed (m : Gen.MeshData) : Prop :=
  triangles (len (Gen.vertices m)) (Gen.indices m).

(** The mesh without vertices. *)
Definition empty_mesh : Gen.MeshData := {| Gen.vertices := []; Gen.indices := [] |}.

(** The index lists on which the loop of [compute_normals] reads whole
    triples of valid subscripts; Python counts a negative subscript from
    the end of the list. *)
Inductive subscript_triples (n : Z) : list Z -> Prop :=
| subscript_triples_nil : subscript_triples n []
| subscript_triples_cons i0 i1 i2 rest :
    - n <= i0 < n -> - n <= i1 < n -> - n <= i2 < n ->
    subscript_triples n rest -> subscript_triples n (i0 :: i1 :: i2 :: rest).


(** The vertex counts of the five meshes of [generate_meshes]. *)
Definition generated_vertex_counts : list (string * Z) :=
  [ ("agent", 20); ("location", 425); ("asset", 16); ("power_plant", 36);
    ("power_storage", 412) ].

(** [fs] holds at [p] a document as [write_gltf] writes it for [count]
    vertices, and the buffer file it names. *)
Definition exported (fs : gmap path node) (p : path) (count : Z) : Prop :=
  (exists mesh_name n views view fields rest,
     fs !! p = Some (JsonFile (Gen.gltf_document mesh_name (bin_name_of p) n views
                                 (position_accessor view count fields :: rest))))
  /\ is_Some (fs !! bin_path_of p).




(** The first 24 bytes of a PNG of 256 by 256 pixels: the signature, the
    length and the type of the header chunk, the width and the height. *)
Definition png_header_256 : list byte :=
  Gen.png_signature ++ [ x00; x00; x00; x0d ] ++ Gen.IHDR
  ++ [ x00; x00; x01; x00 ] ++ [ x00; x00; x01; x00 ].

(** The checks of [validate_theme_pack], as conditions on the pack. *)

(** The mesh file of [entity] is read without error and has enough
    vertices. *)
Definition mesh_passes `{Libs} (fs : gmap path node) (mesh_dir : path)
    (profile : Val.ThemeValidationProfile) (entity : string) : Prop :=
  exists n required,
    Val.validate_mesh fs (Val.mesh_path_of mesh_dir profile entity) = Ok (n, [])
    /\ Val.min_vertices profile !! entity = Some required
    /\ required <= n.

(** The texture of [entity] for [channel] has a PNG header of a square
    image of at least the minimum size. *)
Definition texture_passes (fs : gmap path node) (texture_dir : path)
    (min_texture_size : Z) (entity channel : string) : Prop :=
  exists size,
    Val.read_png_size fs (texture_dir / (entity +:+ "_" +:+ channel +:+ ".png"))%path
    = Ok (size, size)
    /\ min_texture_size <= size.

Definition pack_passes `{Libs} (fs : gmap path node) (theme_dir : path)
    (profile : Val.ThemeValidationProfile) (min_texture_size : Z) : Prop :=
  Forall (fun directory => exists_ fs directory = true)
    [ (theme_dir / "meshes")%path; (theme_dir / "textures")%path;
      (theme_dir / "presets")%path ]
  /\ Forall (fun preset => exists_ fs (theme_dir / "presets" / preset)%path = true)
       (Val.preset_files profile)
  /\ Forall (fun entity =>
               mesh_passes fs (theme_dir / "meshes")%path profile entity
               /\ Forall (texture_passes fs (theme_dir / "textures")%path
                            min_texture_size entity)
                    Val.TEXTURE_CHANNELS)
       Val.ENTITIES.

(** ** The generator script: textures and [main] *)

Module Tex.

Definition clamp01 (value : float) : float :=
  if (value <? 0)%float then 0%float
  else if (1 <? value)%float then 1%float
  else value.

Definition mix (a b t : float) : float := (a * (1 - t) + b * t)%float.

(** [float(n)], and the conversion of an [int] operand of a float
    operation: [OverflowError] beyond the largest float. *)
Definition to_float (n : Z) : result float :=
  let x := float_of_int n in
  if is_infinity x then Raise OverflowError else Ok x.

(** [bytearray.extend] takes the components of a pixel as bytes. *)
Definition to_byte (v : Z) : result byte :=
  if (0 <=? v) && (v <? 256) then Ok (byte_of_Z v)
  else Raise (ValueError "byte must be in range(0, 256)").

(** The calls of the pixel function that [write_png] makes, row by row, for
    a function that returns three ints and may raise: the first exception
    ends the run; otherwise the bytes of every pixel are known, and
    [write_png] runs on them. *)
Definition pixels (width height : Z) (pixel : Z -> Z -> result (Z * Z * Z))
  : result (Z -> Z -> byte * byte * byte) :=
  rows ← for_each (range height) (fun y (rows : list (list (byte * byte * byte))) =>
            row ← for_each (range width) (fun x (row : list (byte * byte * byte)) =>
                     '(r, g, b) ← pixel x y;
                     r ← to_byte r;
                     g ← to_byte g;
                     b ← to_byte b;
                     Ok (row ++ [(r, g, b)])) [];
            Ok (rows ++ [row])) [];
  Ok (fun x y =>
        default (x00, x00, x00)
          (row ← (rows : list (list (byte * byte * byte))) !! Z.to_nat y;
           row !! Z.to_nat x)).

Section WithLibs.
Context `{Libs}.

(** [math.sin(x)] and [math.cos(x)]: [ValueError] on an infinite
    argument. *)
Definition sin (x : float) : result float :=
  if is_infinity x then Raise (ValueError "math domain error") else Ok (math_sin x).

Definition cos (x : float) : result float :=
  if is_infinity x then Raise (ValueError "math domain error") else Ok (math_cos x).

(** [x / float(size)] for an int [x]. *)
Definition fraction (x size : Z) : result float :=
  fsize ← to_float size;
  fx ← to_float x;
  truediv fx fsize.

(** [int(clamp01(mix(a, b, t) / 255.0 + scratch) * 255.0)] for ints [a]
    and [b]. *)
Definition base_channel (a b : Z) (t scratch : float) : result Z :=
  fa ← to_float a;
  fb ← to_float b;
  Val.int_of_float (clamp01 (mix fa fb t / 255 + scratch) * 255)%float.

(** The closure [pixel] of [make_base_texture].  The int divided by [20.0]
    is at most 20. *)
Definition base_pixel (color_a color_b : Z * Z * Z) (seed size x y : Z)
  : result (Z * Z * Z) :=
  let '(a0, a1, a2) := color_a in
  let '(b0, b1, b2) := color_b in
  nx ← fraction x size;
  ny ← fraction y size;
  s ← sin ((nx * 14 + ny * 4) * math_pi)%float;
  let stripes := (0.5 + 0.5 * s)%float in
  let rough_noise := Gen.hash_noise x y seed in
  let t := clamp01 (0.6 * stripes + 0.4 * rough_noise)%float in
  let scratch :=
    (0.18 * max2 0 (1 - float_of_int (Z.abs ((x + seed * 11) `mod` 41 - 20)) / 20))%float in
  r ← base_channel a0 b0 t scratch;
  g ← base_channel a1 b1 t scratch;
  b ← base_channel a2 b2 t scratch;
  Ok (r, g, b).

Definition make_base_texture (path : Fs.path) (color_a color_b : Z * Z * Z)
    (seed size : Z) (fs : gmap Fs.path node) : result (gmap Fs.path node) :=
  pixel_fn ← pixels size size (base_pixel color_a color_b seed size);
  Gen.write_png path size size pixel_fn fs.

(** The closure [pixel] of [make_normal_texture]; [max(0.0, _)] keeps the
    argument of [math.sqrt] from being negative. *)
Definition normal_pixel (seed size x y : Z) : result (Z * Z * Z) :=
  nx ← fraction x size;
  ny ← fraction y size;
  fseed ← to_float seed;
  s ← sin ((nx * 16 + fseed) * math_pi)%float;
  let dx := (0.14 * s)%float in
  fseed ← to_float seed;
  c ← cos ((ny * 13 + fseed * 0.5) * math_pi)%float;
  let dy := (0.14 * c)%float in
  let dx := (dx + (Gen.hash_noise x y (seed + 91) - 0.5) * 0.06)%float in
  let dy := (dy + (Gen.hash_noise y x (seed + 47) - 0.5) * 0.06)%float in
  let dz := sqrt (max2 0 (1 - dx * dx - dy * dy))%float in
  r ← Val.int_of_float ((dx * 0.5 + 0.5) * 255)%float;
  g ← Val.int_of_float ((dy * 0.5 + 0.5) * 255)%float;
  b ← Val.int_of_float ((dz * 0.5 + 0.5) * 255)%float;
  Ok (r, g, b).

Definition make_normal_texture (path : Fs.path) (seed size : Z)
    (fs : gmap Fs.path node) : result (gmap Fs.path node) :=
  pixel_fn ← pixels size size (normal_pixel seed size);
  Gen.write_png path size size pixel_fn fs.

End WithLibs.

(** The closure [pixel] of [make_mr_texture]: roughness in the green
    channel, metallic in the blue one. *)
Definition mr_pixel (metallic roughness : float) (seed x y : Z) : result (Z * Z * Z) :=
  let n := Gen.hash_noise x y seed in
  let n2 := Gen.hash_noise (x * 3) (y * 3) (seed + 71) in
  g ← Val.int_of_float (clamp01 (roughness + (n - 0.5) * 0.12) * 255)%float;
  b ← Val.int_of_float (clamp01 (metallic + (n2 - 0.5) * 0.12) * 255)%float;
  Ok (255, g, b).

Section WithLibs.
Context `{Libs}.

Definition make_mr_texture (path : Fs.path) (metallic roughness : float)
    (seed size : Z) (fs : gmap Fs.path node) : result (gmap Fs.path node) :=
  pixel_fn ← pixels size size (mr_pixel metallic roughness seed);
  Gen.write_png path size size pixel_fn fs.

(** [int(clamp01(base + (c / 255.0) * glow) * 255.0)] for an int [c]. *)
Definition emissive_channel (c : Z) (base glow : float) : result Z :=
  fc ← to_float c;
  Val.int_of_float (clamp01 (base + (fc / 255) * glow) * 255)%float.

(** The closure [pixel] of [make_emissive_texture]. *)
Definition emissive_pixel (emissive_color : Z * Z * Z) (seed x y : Z)
  : result (Z * Z * Z) :=
  let '(c0, c1, c2) := emissive_color in
  let line := ((x + seed * 7) `mod` 57 =? 0) || ((y + seed * 13) `mod` 83 =? 0) in
  fx ← to_float x;
  fy ← to_float y;
  fseed ← to_float seed;
  s ← sin ((fx * 0.06 + fy * 0.04 + fseed) * math_pi)%float;
  let pulse := (0.5 + 0.5 * s)%float in
  let glow := if line then (0.35 + 0.65 * pulse)%float else 0%float in
  let base := (0.03 + 0.02 * Gen.hash_noise x y (seed + 5))%float in
  r ← emissive_channel c0 base glow;
  g ← emissive_channel c1 base glow;
  b ← emissive_channel c2 base glow;
  Ok (r, g, b).

Definition make_emissive_texture (path : Fs.path) (emissive_color : Z * Z * Z)
    (seed size : Z) (fs : gmap Fs.path node) : result (gmap Fs.path node) :=
  pixel_fn ← pixels size size (emissive_pixel emissive_color seed);
  Gen.write_png path size size pixel_fn fs.

(** One entry of [palette]. *)
Record Config := {
  base_a : Z * Z * Z;
  base_b : Z * Z * Z;
  emissive : Z * Z * Z;
  metallic : float;
  roughness : float;
  seed : Z;
}.

(** The dict [palette], in the order of its items. *)
Definition palette : list (string * Config) :=
  [ ("agent",
     {| base_a := (84, 118, 138); base_b := (173, 209, 228);
        emissive := (72, 182, 255); metallic := 0.58; roughness := 0.46; seed := 11 |});
    ("location",
     {| base_a := (54, 70, 80); base_b := (124, 149, 162);
        emissive := (44, 132, 184); metallic := 0.34; roughness := 0.69; seed := 23 |});
    ("asset",
     {| base_a := (86, 92, 84); base_b := (166, 156, 118);
        emissive := (198, 142, 52); metallic := 0.72; roughness := 0.41; seed := 31 |});
    ("power_plant",
     {| base_a := (96, 74, 66); base_b := (183, 127, 97);
        emissive := (255, 122, 64); metallic := 0.63; roughness := 0.39; seed := 47 |});
    ("power_storage",
     {| base_a := (53, 68, 91); base_b := (117, 142, 182);
        emissive := (84, 152, 255); metallic := 0.52; roughness := 0.36; seed := 59 |}) ].

(** The default of the parameter [size] of the four texture makers. *)
Definition default_size : Z := 256.

(** The body of the loop of [generate_textures]. *)
Definition generate_entity_textures (texture_dir : Fs.path) (item : string * Config)
    (fs : gmap Fs.path node) : result (gmap Fs.path node) :=
  let '(entity, config) := item in
  fs ← make_base_texture (texture_dir / (entity +:+ "_base.png"))%path
         (base_a config) (base_b config) (seed config) default_size fs;
  fs ← make_normal_texture (texture_dir / (entity +:+ "_normal.png"))%path
         (seed config + 5) default_size fs;
  fs ← make_mr_texture (texture_dir / (entity +:+ "_metallic_roughness.png"))%path
         (metallic config) (roughness config) (seed config + 9) default_size fs;
  make_emissive_texture (texture_dir / (entity +:+ "_emissive.png"))%path
    (emissive config) (seed config + 13) default_size fs.

Definition generate_textures (texture_dir : Fs.path) (fs : gmap Fs.path node)
  : result (gmap Fs.path node) :=
  for_each palette (generate_entity_textures texture_dir) fs.

(** The one line that [main] prints. *)
Inductive line :=
| Generated (out_dir : Fs.path).

(** [main], for the parsed [--out-dir]: the exit code, what was printed,
    and the files.  As for every write, the errors of the operating system
    are not modelled. *)
Definition main (arg_out_dir : Fs.path) (fs : gmap Fs.path node)
  : result (Z * list line * gmap Fs.path node) :=
  let out_dir := arg_out_dir in
  let mesh_dir := (out_dir / "meshes")%path in
  let texture_dir := (out_dir / "textures")%path in
  let fs := mkdir fs mesh_dir in
  let fs := mkdir fs texture_dir in
  fs ← Gen.generate_meshes mesh_dir fs;
  fs ← generate_textures texture_dir fs;
  Ok (0, [Generated out_dir], fs).

End WithLibs.

End Tex.

(** ** A reference instance for the textures

    The texture makers call [math.sin] and [math.cos] on arguments of up
    to a few hundred, where the truncated series of [Ref] are of no use;
    here the argument is first reduced by a multiple of [2 pi]. *)

Module Trig.

Definition reduce (x : float) : float :=
  match Val.int_of_float (x / (2 * math_pi))%float with
  | Ok k => (x - float_of_int k * (2 * math_pi))%float
  | Raise _ => x
  end.

Definition sin (x : float) : float := Ref.sin (reduce x).
Definition cos (x : float) : float := Ref.cos (reduce x).

#[export] Instance libs : Libs :=
  {| math_sin := sin; math_cos := cos; math_atan2 := Ref.atan2;
     zlib_compress := Ref.compress; int_of_str := Ref.int |}.

End Trig.

(** What a texture maker leaves behind: at [path] a file whose PNG header
    gives a square of the given size, and every other path as it was. *)
Definition texture_written (fs fs' : gmap path node) (path : path) (size : Z) : Prop :=
  0 <= size <= 0xFFFFFFFF
  /\ Val.read_png_size fs' path = Ok (size, size)
  /\ exists data, fs' = <[path := BinaryFile data]> fs.

(** The path at which the validator looks for a texture. *)
Definition texture_path (texture_dir : path) (entity channel : string) : path :=
  (texture_dir / (entity +:+ "_" +:+ channel +:+ ".png"))%path.

(** The errors of [validate_theme_pack] for the presets directory and the
    preset files of a profile. *)
Definition missing_presets (fs : gmap path node) (theme_dir : path)
    (profile : Val.ThemeValidationProfile) : list Val.error :=
  (if exists_ fs (theme_dir / "presets")%path then []
   else [ Val.MissingDirectory (theme_dir / "presets")%path ])
  ++ concat ((fun preset =>
                if exists_ fs (theme_dir / "presets" / preset)%path then []
                else [ Val.MissingPreset (theme_dir / "presets" / preset)%path ])
               <$> Val.preset_files profile).

(** * Theorems *)

(** ** Lists and loops *)

Lemma len_app {A} (xs ys : list A) : len (xs ++ ys) = len xs + len ys.
Proof. unfold len. rewrite length_app. lia. Qed.

Lemma len_nonneg {A} (xs : list A) : 0 <= len xs.
Proof. unfold len. lia. Qed.

Lemma len_range (n : Z) : len (range n) = Z.max 0 n.
Proof. unfold len, range. rewrite length_fmap, length_seq. lia. Qed.

(** A loop that appends [k] items per round. *)
Lemma foldl_grows {A B} (g : list A -> B -> list A) (k : Z) :
  (forall acc x, len (g acc x) = len acc + k) ->
  forall xs acc, len (foldl g acc xs) = len acc + k * len xs.
Proof.
  intros Hg xs. induction xs as [|x xs IH]; intros acc; simpl.
  - unfold len at 3. simpl. lia.
  - rewrite IH, Hg. unfold len at 4. simpl length. unfold len. lia.
Qed.

(** ** Primitive builders *)

Section Builders.
Context {L : Libs}.

Lemma build_prism_vertices (radius height : float) (sides : Z) :
  len (Gen.vertices (Gen.build_prism radius height sides)) = 2 + 2 * Z.max 0 sides.
Proof.
  unfold Gen.build_prism. cbn [Gen.vertices].
  rewrite (foldl_grows _ 2).
  - rewrite len_range. reflexivity.
  - intros acc x. rewrite len_app. reflexivity.
Qed.

Lemma build_prism_indices (radius height : float) (sides : Z) :
  len (Gen.indices (Gen.build_prism radius height sides)) = 12 * Z.max 0 sides.
Proof.
  unfold Gen.build_prism. cbn [Gen.indices].
  rewrite (foldl_grows _ 12).
  - rewrite len_range. unfold len. simpl. lia.
  - intros acc x. rewrite !len_app. reflexivity.
Qed.

End Builders.




(** ** Mesh composition *)

(** The state of the loop of [merge_meshes] after any prefix. *)
Lemma merge_loop (meshes : list Gen.MeshData) (vs : list Gen.Vec3) (ids : list Z) :
  fold_left Gen.merge_step meshes (vs, ids, len vs)
  = (vs ++ concat (Gen.vertices <$> meshes),
     ids ++ rebased (len vs) meshes,
     len (vs ++ concat (Gen.vertices <$> meshes))).
Proof.
  revert vs ids. induction meshes as [|m ms IH]; intros vs ids;
    cbn [fold_left Gen.merge_step rebased fmap list_fmap concat].
  - rewrite !app_nil_r. reflexivity.
  - rewrite <- len_app, IH, <- !app_assoc, len_app. reflexivity.
Qed.

Lemma merge_meshes_eq (meshes : list Gen.MeshData) :
  Gen.merge_meshes meshes
  = {| Gen.vertices := concat (Gen.vertices <$> meshes);
       Gen.indices := rebased 0 meshes |}.
Proof.
  unfold Gen.merge_meshes.
  change (@nil Gen.Vec3, @nil Z, 0) with (@nil Gen.Vec3, @nil Z, len (@nil Gen.Vec3)).
  rewrite merge_loop. reflexivity.
Qed.

Lemma len_concat_vertices (meshes : list Gen.MeshData) :
  len (concat (Gen.vertices <$> meshes))
  = sum_int ((fun m => len (Gen.vertices m)) <$> meshes).
Proof.
  induction meshes as [|m ms IH]; [reflexivity|].
  cbn [fmap list_fmap concat sum_int foldr]. rewrite len_app, IH. reflexivity.
Qed.

Lemma rebased_bound (meshes : list Gen.MeshData) (offset : Z) :
  Forall indices_in_range meshes ->
  Forall (fun idx => idx < offset + len (concat (Gen.vertices <$> meshes)))
    (rebased offset meshes).
Proof.
  intros Hall. revert offset.
  induction Hall as [|m ms Hm _ IH]; intros offset;
    cbn [rebased fmap list_fmap concat]; [constructor|].
  rewrite len_app. apply Forall_app. split.
  - apply Forall_fmap. eapply Forall_impl; [exact Hm|].
    intros idx Hidx. unfold compose. cbn beta in *.
    pose proof (len_nonneg (concat (Gen.vertices <$> ms))). lia.
  - eapply Forall_impl; [apply IH|]. intros idx Hidx. cbn beta in *. lia.
Qed.

(** C4: the merged vertex count is the sum of the input vertex counts, the
    indices of each mesh are shifted by the number of vertices of the meshes
    before it, and when every input index is below its own mesh's vertex
    count, every merged index is below the merged vertex count. *)
Theorem C4_merge_meshes (meshes : list Gen.MeshData) :
  Forall indices_in_range meshes ->
  len (Gen.vertices (Gen.merge_meshes meshes))
  = sum_int ((fun m => len (Gen.vertices m)) <$> meshes)
  /\ Gen.vertices (Gen.merge_meshes meshes) = concat (Gen.vertices <$> meshes)
  /\ Gen.indices (Gen.merge_meshes meshes) = rebased 0 meshes
  /\ indices_in_range (Gen.merge_meshes meshes).
Proof.
  intros Hall. rewrite merge_meshes_eq. cbn [Gen.vertices Gen.indices].
  split; [apply len_concat_vertices|]. do 2 (split; [reflexivity|]).
  unfold indices_in_range. cbn [Gen.vertices Gen.indices].
  apply (rebased_bound meshes 0 Hall).
Qed.

Lemma octahedron_in_range (r : float) : indices_in_range (Gen.build_octahedron r).
Proof. unfold indices_in_range. simpl. repeat constructor. Qed.

Lemma box_in_range (size : Gen.Vec3) : indices_in_range (Gen.build_box size).
Proof. destruct size as [[a b] c]. unfold indices_in_range. simpl. repeat constructor. Qed.

Lemma C4_merge_meshes_witness :
  let meshes := [ Gen.build_octahedron 1; Gen.build_box (1, 2, 3)%float ] in
  Forall indices_in_range meshes
  /\ len (Gen.vertices (Gen.merge_meshes meshes)) = 6 + 8
  /\ indices_in_range (Gen.merge_meshes meshes).
Proof.
  intros meshes.
  assert (Hall : Forall indices_in_range meshes)
    by (constructor; [apply octahedron_in_range|];
        constructor; [apply box_in_range | constructor]).
  split; [exact Hall|].
  pose proof (C4_merge_meshes meshes Hall) as (Hn & _ & _ & Hr).
  split; [exact Hn | exact Hr].
Defined.

(** ** Hash noise *)

Lemma land_mask32 (n : Z) : 0 <= Z.land n 0xFFFFFFFF <= 0xFFFFFFFF.
Proof.
  change 0xFFFFFFFF with (Z.ones 32). rewrite Z.land_ones by lia.
  change (Z.ones 32) with (2 ^ 32 - 1).
  pose proof (Z.mod_pos_bound n (2 ^ 32) ltac:(lia)). lia.
Qed.




(** ** PNG *)

Lemma bind_ok {A B} (a : A) (f : A -> result B) : (Ok a ≫= f) = f a.
Proof. reflexivity. Qed.

Lemma bind_raise {A B} (e : exn) (f : A -> result B) : (Raise e ≫= f) = Raise e.
Proof. reflexivity. Qed.

Lemma Z_of_byte_of_Z (z : Z) : Z_of_byte (byte_of_Z z) = z `mod` 256.
Proof.
  unfold Z_of_byte, byte_of_Z.
  pose proof (Z.mod_pos_bound z 256 ltac:(lia)) as Hz.
  destruct (Byte.of_N (Z.to_N (z `mod` 256))) as [b|] eqn:Hb.
  - apply Byte.to_of_N in Hb. simpl. rewrite Hb. lia.
  - apply Byte.of_N_None_iff in Hb. lia.
Qed.

Lemma unpack_pack_u32_be (v : Z) :
  0 <= v <= 0xFFFFFFFF ->
  exists b3 b2 b1 b0,
    pack_u32_be v = Ok [b3; b2; b1; b0]
    /\ unpack_u32_be [b3; b2; b1; b0] = Ok v.
Proof.
  intros Hv. unfold pack_u32_be.
  destruct (Z.leb_spec 0 v); [|lia]. destruct (Z.leb_spec v 0xFFFFFFFF); [|lia].
  cbn [andb]. do 4 eexists. split; [reflexivity|].
  unfold unpack_u32_be. rewrite !Z_of_byte_of_Z. f_equal.
  rewrite !Z.shiftr_div_pow2, !Z.shiftl_mul_pow2 by lia.
  change (2 ^ 24) with 16777216. change (2 ^ 16) with 65536. change (2 ^ 8) with 256.
  Z.div_mod_to_equations. lia.
Qed.

Lemma pack_u32_be_mask (c : Z) :
  exists b3 b2 b1 b0, pack_u32_be (Z.land c 0xFFFFFFFF) = Ok [b3; b2; b1; b0].
Proof.
  destruct (unpack_pack_u32_be _ (land_mask32 c)) as (b3 & b2 & b1 & b0 & Hp & _).
  eauto.
Qed.

(** A chunk whose payload is shorter than [2^32] bytes is its length, its
    type, its payload and four bytes of CRC. *)
Lemma chunk_ok (chunk_type data : list byte) :
  len data <= 0xFFFFFFFF ->
  exists n3 n2 n1 n0 crc,
    pack_u32_be (len data) = Ok [n3; n2; n1; n0]
    /\ Gen.chunk chunk_type data
       = Ok ([n3; n2; n1; n0] ++ chunk_type ++ data ++ crc).
Proof.
  intros Hlen. unfold Gen.chunk.
  destruct (unpack_pack_u32_be (len data)) as (n3 & n2 & n1 & n0 & Hn & _);
    [pose proof (len_nonneg data); lia|].
  destruct (pack_u32_be_mask (crc32 (chunk_type ++ data))) as (c3 & c2 & c1 & c0 & Hc).
  exists n3, n2, n1, n0, [c3; c2; c1; c0]. rewrite Hn, Hc. split; reflexivity.
Qed.

Section Png.
Context {L : Libs}.

(** The first 24 bytes of an encoded image. *)
Lemma png_bytes_ok (width height : Z) (pixel_fn : Z -> Z -> byte * byte * byte) :
  0 <= width <= 0xFFFFFFFF -> 0 <= height <= 0xFFFFFFFF ->
  len (zlib_compress (concat (Gen.png_row width pixel_fn <$> range height)))
    <= 0xFFFFFFFF ->
  exists n w h tail,
    Gen.png_bytes width height pixel_fn
    = Ok (Gen.png_signature ++ n ++ Gen.IHDR ++ w ++ h ++ tail)
    /\ length n = 4%nat /\ length w = 4%nat /\ length h = 4%nat
    /\ (9 <= length tail)%nat
    /\ unpack_u32_be w = Ok width /\ unpack_u32_be h = Ok height.
Proof.
  intros Hw Hh Hz. unfold Gen.png_bytes, Gen.pack_ihdr.
  destruct (unpack_pack_u32_be width Hw) as (w3 & w2 & w1 & w0 & Hpw & Huw).
  destruct (unpack_pack_u32_be height Hh) as (h3 & h2 & h1 & h0 & Hph & Huh).
  destruct (chunk_ok Gen.IHDR ([w3; w2; w1; w0] ++ [h3; h2; h1; h0] ++ [x08; x02; x00; x00; x00]))
    as (a3 & a2 & a1 & a0 & crc1 & _ & Hc1); [unfold len; cbn [length app]; lia|].
  destruct (chunk_ok Gen.IDAT _ Hz) as (d3 & d2 & d1 & d0 & crc2 & _ & Hc2).
  destruct (chunk_ok Gen.IEND []) as (e3 & e2 & e1 & e0 & crc3 & _ & Hc3);
    [unfold len; cbn [length]; lia|].
  cbv zeta.
  rewrite Hpw, bind_ok, Hph, !bind_ok, Hc1, bind_ok, Hc2, bind_ok, Hc3, bind_ok.
  set (compressed := zlib_compress _) in *.
  exists [a3; a2; a1; a0], [w3; w2; w1; w0], [h3; h2; h1; h0],
    ([x08; x02; x00; x00; x00] ++ crc1
     ++ ([d3; d2; d1; d0] ++ Gen.IDAT ++ compressed ++ crc2)
     ++ ([e3; e2; e1; e0] ++ Gen.IEND ++ [] ++ crc3)).
  split; [f_equal; rewrite <- !app_assoc; reflexivity|].
  do 3 (split; [reflexivity|]).
  split; [rewrite !length_app; cbn [length Gen.IDAT Gen.IEND]; lia|].
  split; assumption.
Qed.

End Png.

(** The header parser on a well-formed prefix. *)
Lemma png_size_prefix (n w h tail : list byte) (width height : Z) :
  length n = 4%nat -> length w = 4%nat -> length h = 4%nat ->
  (9 <= length tail)%nat ->
  unpack_u32_be w = Ok width -> unpack_u32_be h = Ok height ->
  Val.png_size (Gen.png_signature ++ n ++ Gen.IHDR ++ w ++ h ++ tail)
  = Ok (width, height).
Proof.
  intros Hn Hw Hh Ht Huw Huh.
  destruct n as [|n3 [|n2 [|n1 [|n0 [|]]]]]; try discriminate.
  destruct w as [|w3 [|w2 [|w1 [|w0 [|]]]]]; try discriminate.
  destruct h as [|h3 [|h2 [|h1 [|h0 [|]]]]]; try discriminate.
  unfold Val.png_size.
  assert (Hlen : (len (Gen.png_signature ++ [n3; n2; n1; n0] ++ Gen.IHDR
                       ++ [w3; w2; w1; w0] ++ [h3; h2; h1; h0] ++ tail) <? 33) = false).
  { apply Z.ltb_ge. unfold len. rewrite !length_app. cbn [length Gen.png_signature Gen.IHDR]. lia. }
  rewrite Hlen.
  cbn [Gen.png_signature Gen.IHDR app Val.slice take drop Nat.sub].
  rewrite !bool_decide_eq_true_2 by reflexivity. cbn [negb].
  unfold unpack_u32_be_pair. cbn [take drop]. rewrite !take_0.
  change (len [w3; w2; w1; w0; h3; h2; h1; h0] =? 8) with true. cbn iota.
  rewrite Huw, bind_ok, Huh, bind_ok. reflexivity.
Qed.

Lemma read_png_size_binary (fs : gmap path node) (p : path) (data : list byte) :
  fs !! p = Some (BinaryFile data) -> Val.read_png_size fs p = Val.png_size data.
Proof. intros Hp. unfold Val.read_png_size. rewrite Hp. reflexivity. Qed.

Lemma png_size_short (data : list byte) :
  len data < 33 -> Val.png_size data = Raise (ValueError "png too short").
Proof.
  intros Hlen. unfold Val.png_size.
  destruct (Z.ltb_spec (len data) 33); [reflexivity | lia].
Qed.

Lemma png_size_bad_signature (data : list byte) :
  take 8 data <> Gen.png_signature ->
  exists msg, Val.png_size data = Raise (ValueError msg).
Proof.
  intros Hsig. unfold Val.png_size.
  destruct (len data <? 33); [eauto|].
  rewrite bool_decide_eq_false_2; [cbn [negb]; eauto|].
  unfold Val.slice. rewrite drop_0. exact Hsig.
Qed.

Lemma png_size_no_ihdr (data : list byte) :
  take 4 (drop 12 data) <> Gen.IHDR ->
  exists msg, Val.png_size data = Raise (ValueError msg).
Proof.
  intros Hihdr. unfold Val.png_size.
  destruct (len data <? 33); [eauto|].
  destruct (negb (bool_decide (Val.slice data 0 8 = Gen.png_signature))); [eauto|].
  rewrite bool_decide_eq_false_2; [cbn [negb]; eauto|]. exact Hihdr.
Qed.

Section PngRoundTrip.
Context {L : Libs}.

Lemma png_bytes_raise (width height : Z) (pixel_fn : Z -> Z -> byte * byte * byte)
    (e : exn) :
  Gen.pack_ihdr width height = Raise e ->
  Gen.png_bytes width height pixel_fn = Raise e.
Proof. intros Hp. unfold Gen.png_bytes. cbv zeta. rewrite Hp. apply bind_raise. Qed.

End PngRoundTrip.

(** C1, as stated, fails: for a width of [2^32] the header cannot be
    packed, [write_png] raises and writes nothing. *)
Lemma C1_write_png_raises_on_wide_image :
  1 <= 4294967296
  /\ @Gen.write_png Ref.libs (Path "" ["wide.png"]) 4294967296 1
       (fun _ _ => (x00, x00, x00)) ∅
     = Raise StructError.
Proof.
  split; [lia|]. unfold Gen.write_png.
  rewrite (@png_bytes_raise Ref.libs _ _ _ StructError) by reflexivity.
  apply bind_raise.
Qed.

(** C1 (amended): for [1 <= width, height <= 2^32 - 1], every pixel function
    returning byte triples, and compressed pixel data of at most [2^32 - 1]
    bytes, [write_png] writes a file from which [read_png_size] reads back
    exactly [(width, height)]; and [read_png_size] raises on every content
    shorter than 33 bytes, on every content whose first 8 bytes are not the
    PNG signature, and on every content whose bytes 12 to 15 are not
    [IHDR]. *)
Theorem C1_png_round_trip {L : Libs} (path : Fs.path) (width height : Z)
    (pixel_fn : Z -> Z -> byte * byte * byte) (fs : gmap Fs.path node) :
  1 <= width <= 0xFFFFFFFF -> 1 <= height <= 0xFFFFFFFF ->
  len (zlib_compress (concat (Gen.png_row width pixel_fn <$> range height)))
    <= 0xFFFFFFFF ->
  (exists fs', Gen.write_png path width height pixel_fn fs = Ok fs'
     /\ Val.read_png_size fs' path = Ok (width, height))
  /\ (forall fs p data, fs !! p = Some (BinaryFile data) ->
        (len data < 33 ->
           Val.read_png_size fs p = Raise (ValueError "png too short"))
        /\ (take 8 data <> Gen.png_signature ->
              exists msg, Val.read_png_size fs p = Raise (ValueError msg))
        /\ (take 4 (drop 12 data) <> Gen.IHDR ->
              exists msg, Val.read_png_size fs p = Raise (ValueError msg))).
Proof.
  intros Hw Hh Hz. split.
  - destruct (png_bytes_ok width height pixel_fn) as
      (n & w & h & tail & Hpng & Hn & Hlw & Hlh & Ht & Huw & Huh); [lia | lia | exact Hz |].
    unfold Gen.write_png. rewrite Hpng, bind_ok. eexists. split; [reflexivity|].
    unfold write_bytes.
    rewrite (read_png_size_binary _ _ _ (lookup_insert_eq _ _ _)).
    apply png_size_prefix; assumption.
  - intros fs0 p data Hp. rewrite (read_png_size_binary _ _ _ Hp).
    split; [apply png_size_short|].
    split; [apply png_size_bad_signature | apply png_size_no_ihdr].
Qed.

Lemma C1_png_round_trip_witness :
  exists fs', @Gen.write_png Ref.libs (Path "" ["a.png"]) 2 1
                (fun x y => (byte_of_Z x, byte_of_Z y, xff)) ∅ = Ok fs'
    /\ Val.read_png_size fs' (Path "" ["a.png"]) = Ok (2, 1).
Proof.
  refine (proj1 (@C1_png_round_trip Ref.libs (Path "" ["a.png"]) 2 1
                   (fun x y => (byte_of_Z x, byte_of_Z y, xff)) ∅ _ _ _)).
  - lia.
  - lia.
  - vm_compute. discriminate.
Defined.

(** ** Texture coordinates *)

(** A loop whose body appends one item and never raises. *)
Lemma for_each_append {A B} (xs : list A) (f : A -> B)
    (body : A -> list B -> result (list B)) (acc : list B) :
  (forall x s, body x s = Ok (s ++ [f x])) ->
  for_each xs body acc = Ok (acc ++ (f <$> xs)).
Proof.
  intros Hbody. revert acc. induction xs as [|x xs IH]; intros acc;
    cbn [for_each fmap list_fmap].
  - rewrite app_nil_r. reflexivity.
  - rewrite Hbody, bind_ok, IH, <- app_assoc. reflexivity.
Qed.

(** The divisor of [compute_uvs] is never zero: it is at least [1e-6], or
    it is NaN. *)
Lemma span_not_zero (d : float) : (max2 d 1e-6 =? 0)%float = false.
Proof.
  unfold max2. destruct (d <? 1e-6)%float eqn:Hlt; [reflexivity|].
  rewrite FloatAxioms.ltb_spec in Hlt. rewrite FloatAxioms.eqb_spec.
  destruct (Prim2SF d) as [s|s| |s m e].
  - destruct s; vm_compute in Hlt; discriminate.
  - destruct s; reflexivity.
  - reflexivity.
  - destruct s; reflexivity.
Qed.

Lemma two_pi_not_zero : (2 * math_pi =? 0)%float = false.
Proof. reflexivity. Qed.

(** A finite float minus itself is [+0]. *)
Lemma sub_diag_finite (x : float) : is_finite x = true -> (x - x)%float = 0%float.
Proof.
  unfold is_finite. intros Hx. apply FloatAxioms.Prim2SF_inj. rewrite FloatAxioms.sub_spec.
  destruct (Prim2SF x) as [s|s| |s m e]; try discriminate.
  - destruct s; reflexivity.
  - unfold SF64sub, SFsub. rewrite Z.sub_diag. reflexivity.
Qed.

Lemma fold_left_const {A} (f : A -> A -> A) (xs : list A) (a : A) :
  f a a = a -> Forall (fun x => x = a) xs -> fold_left f xs a = a.
Proof.
  intros Hf Hall. induction Hall as [|x xs -> _ IH]; cbn [fold_left]; [reflexivity|].
  rewrite Hf. exact IH.
Qed.

Section Uvs.
Context {L : Libs}.

Lemma compute_uvs_ok (vertices : list Gen.Vec3) :
  vertices <> [] ->
  exists min_y max_y,
    min_float (Gen.vec_y <$> vertices) = Ok min_y
    /\ max_float (Gen.vec_y <$> vertices) = Ok max_y
    /\ Gen.compute_uvs vertices
       = Ok (uv_of min_y (max2 (max_y - min_y) 1e-6) <$> vertices).
Proof.
  intros Hne. destruct vertices as [|v vs]; [congruence|].
  unfold Gen.compute_uvs. cbn [fmap list_fmap min_float max_float].
  do 2 eexists. split; [reflexivity|]. split; [reflexivity|].
  rewrite !bind_ok.
  apply (for_each_append (v :: vs) (uv_of _ _) _ []).
  intros [[vx vy] vz] s. unfold truediv.
  rewrite two_pi_not_zero, bind_ok, span_not_zero, bind_ok. reflexivity.
Qed.

End Uvs.

Lemma min_max_flat (ys : list float) (y0 : float) :
  ys <> [] -> Forall (fun y => y = y0) ys ->
  min_float ys = Ok y0 /\ max_float ys = Ok y0.
Proof.
  intros Hne Hall. destruct Hall as [|y ys -> Hall]; [congruence|].
  unfold min_float, max_float. split; f_equal.
  - apply (fold_left_const (fun m y => if (y <? m)%float then y else m));
      [destruct (y0 <? y0)%float; reflexivity | exact Hall].
  - apply (fold_left_const (fun m y => if (m <? y)%float then y else m));
      [destruct (y0 <? y0)%float; reflexivity | exact Hall].
Qed.

(** C9, as stated, fails: with heights [1e308] and [-1e308], both finite,
    the span overflows to infinity and the first [v] is NaN. *)
Lemma C9_compute_uvs_nan :
  @Gen.compute_uvs Ref.libs [ (0, 1e308, 0); (0, -1e308, 0) ]%float
  = Ok [ (0.5, nan); (0.5, 1) ]%float
  /\ is_finite 1e308 = true /\ is_finite (-1e308) = true
  /\ is_finite nan = false.
Proof. repeat split; vm_compute; reflexivity. Qed.

(** C9 (amended): [compute_uvs] raises on no non-empty vertex list: the
    divisor [max(max_y - min_y, 1e-6)] is never zero, and one pair is
    returned per vertex; on a flat mesh, whose vertices share one finite
    height, the divisor is [1e-6] and every [v] is exactly [1.0]. *)
Theorem C9_compute_uvs_total {L : Libs} (vertices : list Gen.Vec3) :
  vertices <> [] ->
  exists min_y max_y,
    min_float (Gen.vec_y <$> vertices) = Ok min_y
    /\ max_float (Gen.vec_y <$> vertices) = Ok max_y
    /\ (max2 (max_y - min_y) 1e-6 =? 0)%float = false
    /\ Gen.compute_uvs vertices
       = Ok (uv_of min_y (max2 (max_y - min_y) 1e-6) <$> vertices)
    /\ (forall y0, is_finite y0 = true ->
          Forall (fun p => Gen.vec_y p = y0) vertices ->
          max2 (max_y - min_y) 1e-6 = 1e-6%float
          /\ exists uvs, Gen.compute_uvs vertices = Ok uvs
               /\ length uvs = length vertices
               /\ Forall (fun uv : Gen.Vec2 => uv.2 = 1%float) uvs).
Proof.
  intros Hne.
  destruct (compute_uvs_ok vertices Hne) as (min_y & max_y & Hmin & Hmax & Huv).
  exists min_y, max_y. do 2 (split; [assumption|]).
  split; [apply span_not_zero|]. split; [exact Huv|].
  intros y0 Hfin Hflat.
  destruct (min_max_flat (Gen.vec_y <$> vertices) y0) as [Hmin' Hmax'].
  { destruct vertices; [congruence | discriminate]. }
  { apply Forall_fmap. exact Hflat. }
  rewrite Hmin' in Hmin. rewrite Hmax' in Hmax.
  injection Hmin as <-. injection Hmax as <-.
  rewrite sub_diag_finite in * by exact Hfin.
  split; [reflexivity|].
  eexists. split; [exact Huv|]. split; [apply length_fmap|].
  apply Forall_fmap. eapply Forall_impl; [exact Hflat|].
  intros [[vx vy] vz] Hy. unfold Gen.vec_y in Hy. cbn in Hy. subst vy.
  unfold compose, uv_of. cbn [snd].
  rewrite sub_diag_finite by exact Hfin. reflexivity.
Qed.

Lemma C9_compute_uvs_total_witness :
  exists uvs,
    @Gen.compute_uvs Ref.libs [ (1, 2, 3); (4, 2, 5) ]%float = Ok uvs
    /\ length uvs = 2%nat
    /\ Forall (fun uv : Gen.Vec2 => uv.2 = 1%float) uvs.
Proof.
  destruct (@C9_compute_uvs_total Ref.libs [ (1, 2, 3); (4, 2, 5) ]%float
              ltac:(discriminate))
    as (min_y & max_y & _ & _ & _ & _ & Hflat).
  destruct (Hflat 2%float eq_refl) as [_ H]; [|exact H].
  repeat constructor.
Defined.

(** ** Normals *)

Lemma getitem_ok {A} (xs : list A) (i : Z) :
  0 <= i < len xs -> exists x, getitem xs i = Ok x.
Proof.
  intros Hi. unfold getitem, len in *.
  destruct (Z.ltb_spec i 0); [lia|]. destruct (Z.ltb_spec i 0); [lia|].
  destruct (xs !! Z.to_nat i) as [x|] eqn:Hx; [eauto|].
  apply lookup_ge_None in Hx. lia.
Qed.

Lemma setitem_ok {A} (xs : list A) (i : Z) (x : A) :
  0 <= i < len xs -> setitem xs i x = Ok (<[Z.to_nat i := x]> xs).
Proof.
  intros Hi. unfold setitem.
  destruct (Z.ltb_spec i 0); [lia|]. destruct (Z.ltb_spec i 0); [lia|].
  destruct (Z.leb_spec (len xs) i); [lia|]. reflexivity.
Qed.

Lemma len_insert {A} (xs : list A) (i : nat) (x : A) : len (<[i := x]> xs) = len xs.
Proof. unfold len. rewrite length_insert. reflexivity. Qed.


Lemma normals_loop_ok (vertices : list Gen.Vec3) (indices : list Z) :
  triangles (len vertices) indices ->
  forall normals, len normals = len vertices ->
  exists normals', Gen.normals_loop vertices indices normals = Ok normals'
                   /\ len normals' = len vertices.
Proof.
  induction 1 as [|i0 i1 i2 rest H0 H1 H2 _ IH]; intros normals Hlen.
  - exists normals. split; [reflexivity | exact Hlen].
  - cbn [Gen.normals_loop].
    destruct (getitem_ok vertices i0 H0) as [p0 ->].
    destruct (getitem_ok vertices i1 H1) as [p1 ->].
    destruct (getitem_ok vertices i2 H2) as [p2 ->].
    rewrite !bind_ok.
    destruct (getitem_ok normals i0) as [n0 ->]; [lia|].
    rewrite bind_ok, setitem_ok, bind_ok by lia.
    set (ns1 := <[Z.to_nat i0 := _]> normals).
    assert (Hl1 : len ns1 = len vertices) by (unfold ns1; rewrite len_insert; exact Hlen).
    destruct (getitem_ok ns1 i1) as [n1 ->]; [lia|].
    rewrite bind_ok, setitem_ok, bind_ok by lia.
    set (ns2 := <[Z.to_nat i1 := _]> ns1).
    assert (Hl2 : len ns2 = len vertices) by (unfold ns2; rewrite len_insert; exact Hl1).
    destruct (getitem_ok ns2 i2) as [n2 ->]; [lia|].
    rewrite bind_ok, setitem_ok, bind_ok by lia.
    apply IH. rewrite len_insert. exact Hl2.
Qed.

Lemma compute_normals_ok (vertices : list Gen.Vec3) (indices : list Z) :
  triangles (len vertices) indices ->
  exists normals, Gen.compute_normals vertices indices = Ok normals
                  /\ len normals = len vertices.
Proof.
  intros Ht. unfold Gen.compute_normals.
  destruct (normals_loop_ok vertices indices Ht ((fun _ => (0, 0, 0)%float) <$> vertices))
    as (ns & -> & Hlen); [unfold len; rewrite length_fmap; reflexivity|].
  rewrite bind_ok. eexists. split; [reflexivity|].
  unfold len in *. rewrite length_fmap. exact Hlen.
Qed.

(** ** Packing *)

Lemma pack_f32_length (x : float) (bs : list byte) :
  pack_f32 x = Ok bs -> length bs = 4%nat.
Proof.
  unfold pack_f32.
  destruct (Prim2SF x); destruct (f32_of_float x); intros [= <-]; reflexivity.
Qed.

Lemma pack_vec3_length (v : Gen.Vec3) (bs : list byte) :
  Gen.pack_vec3 v = Ok bs -> len bs = 12.
Proof.
  destruct v as [[a b] c]. unfold Gen.pack_vec3.
  destruct (pack_f32 a) as [x|] eqn:Ha; [|discriminate].
  destruct (pack_f32 b) as [y|] eqn:Hb; [|discriminate].
  destruct (pack_f32 c) as [z|] eqn:Hc; [|discriminate].
  rewrite !bind_ok. intros [= <-]. unfold len. rewrite !length_app.
  rewrite (pack_f32_length _ _ Ha), (pack_f32_length _ _ Hb), (pack_f32_length _ _ Hc).
  reflexivity.
Qed.

Lemma pack_vec2_length (v : Gen.Vec2) (bs : list byte) :
  Gen.pack_vec2 v = Ok bs -> len bs = 8.
Proof.
  destruct v as [a b]. unfold Gen.pack_vec2.
  destruct (pack_f32 a) as [x|] eqn:Ha; [|discriminate].
  destruct (pack_f32 b) as [y|] eqn:Hb; [|discriminate].
  rewrite !bind_ok. intros [= <-]. unfold len. rewrite !length_app.
  rewrite (pack_f32_length _ _ Ha), (pack_f32_length _ _ Hb). reflexivity.
Qed.

Lemma pack_u16_le_length (v : Z) (bs : list byte) :
  pack_u16_le v = Ok bs -> len bs = 2.
Proof.
  unfold pack_u16_le. destruct ((0 <=? v) && (v <=? 0xFFFF)); intros [= <-]; reflexivity.
Qed.

Lemma pack_all_length {A} (pack : A -> result (list byte)) (k : Z) :
  (forall v bs, pack v = Ok bs -> len bs = k) ->
  forall vs bs, pack_all pack vs = Ok bs -> len bs = k * len vs.
Proof.
  intros Hk vs. induction vs as [|v vs IH]; intros bs; cbn [pack_all].
  - intros [= <-]. unfold len. cbn. lia.
  - destruct (pack v) as [b|] eqn:Hb; [|discriminate]. rewrite bind_ok.
    destruct (pack_all pack vs) as [bs'|]; [|discriminate]. rewrite bind_ok.
    intros [= <-]. rewrite len_app, (Hk _ _ Hb), (IH _ eq_refl).
    unfold len. cbn [length]. lia.
Qed.

Lemma pack_all_u16_ok (indices : list Z) :
  Forall (fun i => 0 <= i <= 0xFFFF) indices ->
  exists bs, pack_all pack_u16_le indices = Ok bs.
Proof.
  induction 1 as [|i rest Hi _ [bs IH]]; cbn [pack_all]; [eauto|].
  assert (exists b, pack_u16_le i = Ok b) as [b ->].
  { unfold pack_u16_le.
    destruct (Z.leb_spec 0 i); [|lia]. destruct (Z.leb_spec i 0xFFFF); [|lia].
    cbn [andb]. eauto. }
  rewrite bind_ok, IH, bind_ok. eauto.
Qed.

(** ** The binary buffer *)

(** With enough fuel the padding loop ends, having appended
    [(- len buffer) mod align] zero bytes. *)
Lemma pad_loop_spec (align : Z) (fuel : nat) (buffer : list byte) :
  0 < align -> (- len buffer) `mod` align <= Z.of_nat fuel ->
  Gen.pad_loop fuel buffer align
  = buffer ++ replicate (Z.to_nat ((- len buffer) `mod` align)) x00.
Proof.
  intros Ha. revert buffer.
  induction fuel as [|fuel IH]; intros buffer Hk; cbn [Gen.pad_loop].
  - pose proof (Z.mod_pos_bound (- len buffer) align Ha).
    replace ((- len buffer) `mod` align) with 0 by lia.
    cbn. rewrite app_nil_r. reflexivity.
  - destruct (Z.eqb_spec (len buffer `mod` align) 0) as [H0|H0].
    + replace ((- len buffer) `mod` align) with 0.
      * cbn. rewrite app_nil_r. reflexivity.
      * symmetry. apply Z.mod_opp_l_z; lia.
    + rewrite IH.
      * rewrite len_app. change (len [x00]) with 1.
        rewrite <- app_assoc. f_equal.
        rewrite (Z.mod_opp_l_nz (len buffer) align) by lia.
        assert (Hn : (- (len buffer + 1)) `mod` align
                     = align - len buffer `mod` align - 1).
        { pose proof (Z.mod_pos_bound (len buffer) align Ha).
          pose proof (Z.div_mod (len buffer) align ltac:(lia)) as Hdm.
          symmetry. apply (Z.mod_unique_pos _ _ (- (len buffer / align) - 1)); lia. }
        rewrite Hn.
        pose proof (Z.mod_pos_bound (len buffer) align Ha).
        replace (Z.to_nat (align - len buffer `mod` align))
          with (S (Z.to_nat (align - len buffer `mod` align - 1))) by lia.
        reflexivity.
      * rewrite len_app. change (len [x00]) with 1.
        rewrite (Z.mod_opp_l_nz (len buffer) align) in Hk by lia.
        pose proof (Z.mod_pos_bound (len buffer) align Ha).
        pose proof (Z.div_mod (len buffer) align ltac:(lia)) as Hdm.
        rewrite <- (Z.mod_unique_pos (- (len buffer + 1)) align
                      (- (len buffer / align) - 1)
                      (align - len buffer `mod` align - 1)); lia.
Qed.

Lemma padding_bound (align n : Z) : 0 < align -> 0 <= (- n) `mod` align < align.
Proof. intros Ha. apply Z.mod_pos_bound. exact Ha. Qed.

Lemma padded_aligned (align n : Z) :
  0 < align -> (n + (- n) `mod` align) `mod` align = 0.
Proof.
  intros Ha. rewrite Z.add_mod_idemp_r by lia.
  replace (n + - n) with 0 by lia. apply Z.mod_0_l. lia.
Qed.

(** One call of [append_blob]: zero bytes up to the next multiple of
    [align], then the blob; the view records where the blob starts. *)
Lemma append_blob_spec (blob : list byte) (target : option Z) (align : Z)
    (buffer : list byte) (views : list Gen.BufferView) :
  0 < align ->
  let k := (- len buffer) `mod` align in
  Gen.append_blob blob target align (buffer, views)
  = Ok (len views,
        (buffer ++ replicate (Z.to_nat k) x00 ++ blob,
         views ++ [ {| Gen.byteOffset := len buffer + k;
                       Gen.byteLength := len blob;
                       Gen.target := target |} ]))
  /\ 0 <= k < align
  /\ (len buffer + k) `mod` align = 0.
Proof.
  intros Ha k. split; [|split; [apply padding_bound; exact Ha | apply padded_aligned; exact Ha]].
  unfold Gen.append_blob. destruct (Z.eqb_spec align 0); [lia|].
  rewrite (pad_loop_spec align (Z.abs_nat align) buffer Ha).
  - fold k. rewrite !len_app.
    assert (Hr : len (replicate (Z.to_nat k) x00) = k).
    { unfold len. rewrite length_replicate.
      pose proof (padding_bound align (len buffer) Ha). fold k in H. lia. }
    rewrite Hr, <- app_assoc. do 3 f_equal. unfold len. cbn [length]. lia.
  - pose proof (padding_bound align (len buffer) Ha). lia.
Qed.

(** On an aligned buffer no byte is inserted. *)
Lemma append_blob_aligned (blob : list byte) (target : option Z) (align : Z)
    (buffer : list byte) (views : list Gen.BufferView) :
  0 < align -> len buffer `mod` align = 0 ->
  Gen.append_blob blob target align (buffer, views)
  = Ok (len views,
        (buffer ++ blob,
         views ++ [ {| Gen.byteOffset := len buffer;
                       Gen.byteLength := len blob;
                       Gen.target := target |} ])).
Proof.
  intros Ha H0. destruct (append_blob_spec blob target align buffer views Ha) as [-> _].
  rewrite (Z.mod_opp_l_z (len buffer) align) by lia.
  cbn [Z.to_nat replicate app]. rewrite Z.add_0_r. reflexivity.
Qed.

Lemma setitem_length {A} (xs ys : list A) (i : Z) (x : A) :
  setitem xs i x = Ok ys -> len ys = len xs.
Proof.
  unfold setitem. destruct (_ || _); [discriminate|].
  intros [= <-]. apply len_insert.
Qed.

Lemma normals_loop_length (vertices : list Gen.Vec3) (indices : list Z) :
  forall normals normals',
    Gen.normals_loop vertices indices normals = Ok normals' ->
    len normals' = len normals.
Proof.
  remember (length indices) as k eqn:Hk. revert indices Hk.
  induction k as [k IH] using lt_wf_ind. intros indices Hk normals normals'.
  destruct indices as [|i0 [|i1 [|i2 rest]]]; cbn [Gen.normals_loop];
    try discriminate.
  - intros [= <-]. reflexivity.
  - destruct (getitem vertices i0); [|discriminate].
    destruct (getitem vertices i1); [|discriminate].
    destruct (getitem vertices i2); [|discriminate].
    rewrite !bind_ok.
    destruct (getitem normals i0); [|discriminate]. rewrite bind_ok.
    destruct (setitem normals i0 _) as [ns1|] eqn:H1; [|discriminate]. rewrite bind_ok.
    destruct (getitem ns1 i1); [|discriminate]. rewrite bind_ok.
    destruct (setitem ns1 i1 _) as [ns2|] eqn:H2; [|discriminate]. rewrite bind_ok.
    destruct (getitem ns2 i2); [|discriminate]. rewrite bind_ok.
    destruct (setitem ns2 i2 _) as [ns3|] eqn:H3; [|discriminate]. rewrite bind_ok.
    intros Hrest.
    apply (IH (length rest)) in Hrest; [|subst k; cbn [length]; lia | reflexivity].
    rewrite Hrest, (setitem_length _ _ _ _ H3), (setitem_length _ _ _ _ H2),
      (setitem_length _ _ _ _ H1). reflexivity.
Qed.

Section Gltf.
Context {L : Libs}.

Lemma compute_normals_length (vertices normals : list Gen.Vec3) (indices : list Z) :
  Gen.compute_normals vertices indices = Ok normals -> len normals = len vertices.
Proof.
  unfold Gen.compute_normals.
  destruct (Gen.normals_loop _ _ _) as [ns|] eqn:Hns; [|discriminate].
  rewrite bind_ok. intros [= <-]. apply normals_loop_length in Hns.
  unfold len in *. rewrite length_fmap in *. exact Hns.
Qed.

Lemma compute_uvs_length (vertices : list Gen.Vec3) (uvs : list Gen.Vec2) :
  Gen.compute_uvs vertices = Ok uvs -> vertices <> [] /\ len uvs = len vertices.
Proof.
  intros Huv.
  assert (Hne : vertices <> []) by (intros ->; discriminate).
  split; [exact Hne|].
  destruct (compute_uvs_ok vertices Hne) as (min_y & max_y & _ & _ & Heq).
  rewrite Heq in Huv. injection Huv as <-. unfold len. rewrite length_fmap. reflexivity.
Qed.

(** The four views of [write_gltf]: positions, normals, texture
    coordinates and indices, each starting where the previous one ends. *)
Lemma gltf_buffer_eq (vertices normals : list Gen.Vec3) (uvs : list Gen.Vec2)
    (indices : list Z) (pos nrm uv idx : list byte) :
  pack_all Gen.pack_vec3 vertices = Ok pos ->
  pack_all Gen.pack_vec3 normals = Ok nrm ->
  pack_all Gen.pack_vec2 uvs = Ok uv ->
  pack_all pack_u16_le indices = Ok idx ->
  Gen.gltf_buffer vertices normals uvs indices
  = Ok (0, 1, 2, 3,
        (pos ++ nrm ++ uv ++ idx, gltf_views (len pos) (len nrm) (len uv) (len idx))).
Proof.
  intros Hpos Hnrm Huv Hidx. unfold Gen.gltf_buffer. cbv zeta.
  rewrite Hpos, Hnrm, Huv, Hidx, !bind_ok.
  pose proof (pack_all_length _ 12 pack_vec3_length _ _ Hpos) as Lpos.
  pose proof (pack_all_length _ 12 pack_vec3_length _ _ Hnrm) as Lnrm.
  pose proof (pack_all_length _ 8 pack_vec2_length _ _ Huv) as Luv.
  rewrite (append_blob_aligned pos _ 4 [] []) by (try reflexivity; lia).
  rewrite bind_ok. cbn [app].
  rewrite (append_blob_aligned nrm _ 4 pos _);
    [|lia| rewrite Lpos; replace (12 * len vertices) with (3 * len vertices * 4) by lia;
           apply Z.mod_mul; lia].
  rewrite bind_ok. cbn [app].
  rewrite (append_blob_aligned uv _ 4 (pos ++ nrm) _);
    [|lia| rewrite len_app, Lpos, Lnrm;
           replace (12 * len vertices + 12 * len normals)
             with ((3 * len vertices + 3 * len normals) * 4) by lia;
           apply Z.mod_mul; lia].
  rewrite bind_ok. cbn [app].
  rewrite (append_blob_aligned idx _ 2 ((pos ++ nrm) ++ uv) _);
    [|lia| rewrite !len_app, Lpos, Lnrm, Luv;
           replace (12 * len vertices + 12 * len normals + 8 * len uvs)
             with ((6 * len vertices + 6 * len normals + 4 * len uvs) * 2) by lia;
           apply Z.mod_mul; lia].
  rewrite bind_ok.
  unfold gltf_views. rewrite !len_app, <- !app_assoc. reflexivity.
Qed.

Lemma gltf_buffer_layout (vertices normals : list Gen.Vec3) (uvs : list Gen.Vec2)
    (indices : list Z) r :
  Gen.gltf_buffer vertices normals uvs indices = Ok r ->
  exists pos nrm uv idx,
    len pos = 12 * len vertices /\ len nrm = 12 * len normals
    /\ len uv = 8 * len uvs /\ len idx = 2 * len indices
    /\ r = (0, 1, 2, 3,
            (pos ++ nrm ++ uv ++ idx, gltf_views (len pos) (len nrm) (len uv) (len idx))).
Proof.
  intros Hr.
  destruct (pack_all Gen.pack_vec3 vertices) as [pos|] eqn:Hpos;
    [|unfold Gen.gltf_buffer in Hr; rewrite Hpos in Hr; discriminate].
  destruct (pack_all Gen.pack_vec3 normals) as [nrm|] eqn:Hnrm;
    [|unfold Gen.gltf_buffer in Hr; rewrite Hpos, Hnrm in Hr; discriminate].
  destruct (pack_all Gen.pack_vec2 uvs) as [uv|] eqn:Huv;
    [|unfold Gen.gltf_buffer in Hr; rewrite Hpos, Hnrm, Huv in Hr; discriminate].
  destruct (pack_all pack_u16_le indices) as [idx|] eqn:Hidx;
    [|unfold Gen.gltf_buffer in Hr; rewrite Hpos, Hnrm, Huv, Hidx in Hr; discriminate].
  rewrite (gltf_buffer_eq _ _ _ _ _ _ _ _ Hpos Hnrm Huv Hidx) in Hr.
  injection Hr as <-. exists pos, nrm, uv, idx.
  split; [apply (pack_all_length _ 12 pack_vec3_length _ _ Hpos)|].
  split; [apply (pack_all_length _ 12 pack_vec3_length _ _ Hnrm)|].
  split; [apply (pack_all_length _ 8 pack_vec2_length _ _ Huv)|].
  split; [apply (pack_all_length _ 2 pack_u16_le_length _ _ Hidx)|].
  reflexivity.
Qed.

Lemma gltf_accessors_inv (pos_view nrm_view uv_view idx_view : Z)
    (vertices normals : list Gen.Vec3) (uvs : list Gen.Vec2) (indices : list Z)
    (accessors : list json) :
  Gen.gltf_accessors pos_view nrm_view uv_view idx_view vertices normals uvs indices
  = Ok accessors ->
  indices <> []
  /\ exists fields rest,
       accessors
       = JObj (("bufferView", JInt pos_view) :: ("componentType", JInt 5126)
               :: ("count", JInt (len vertices)) :: fields) :: rest.
Proof.
  unfold Gen.gltf_accessors.
  repeat (match goal with
          | |- context [min_float ?xs] => destruct (min_float xs); [|discriminate]
          | |- context [max_float ?xs] => destruct (max_float xs); [|discriminate]
          end; rewrite bind_ok).
  destruct indices as [|i rest]; [discriminate|].
  cbn [min_int max_int]. rewrite !bind_ok. intros [= <-].
  split; [discriminate|]. eauto.
Qed.

End Gltf.

(** ** The exported document *)

Lemma with_name_ok (p : path) (n : string) :
  name p <> "" -> with_name p n = Ok (parent p / n)%path.
Proof. intros Hn. unfold with_name. destruct (decide (name p = "")); [contradiction | reflexivity]. Qed.

Lemma with_name_inv (p q : path) (n : string) :
  with_name p n = Ok q -> name p <> "" /\ q = (parent p / n)%path.
Proof.
  unfold with_name. destruct (decide (name p = "")); [discriminate|].
  intros [= <-]. split; [assumption | reflexivity].
Qed.

Lemma is_ok_inv {A} (m : result A) : is_ok m = true -> exists a, m = Ok a.
Proof. destruct m; [eauto | discriminate]. Qed.

Section ExportGltf.
Context {L : Libs}.

(** What a successful [write_gltf] has written. *)
Lemma write_gltf_inv (path : Fs.path) (mesh_name : string)
    (vertices : list Gen.Vec3) (indices : list Z) (fs fs' : gmap Fs.path node) :
  Gen.write_gltf path mesh_name vertices indices fs = Ok fs' ->
  exists pos nrm uv idx fields rest,
    vertices <> [] /\ indices <> [] /\ name path <> ""
    /\ len pos = 12 * len vertices /\ len nrm = 12 * len vertices
    /\ len uv = 8 * len vertices /\ len idx = 2 * len indices
    /\ fs' = write_json
               (write_bytes fs (bin_path_of path) (pos ++ nrm ++ uv ++ idx)) path
               (Gen.gltf_document mesh_name (bin_name_of path)
                  (len (pos ++ nrm ++ uv ++ idx))
                  (gltf_views (len pos) (len nrm) (len uv) (len idx))
                  (position_accessor 0 (len vertices) fields :: rest)).
Proof.
  unfold Gen.write_gltf.
  destruct (Gen.compute_normals vertices indices) as [normals|] eqn:Hn; [|discriminate].
  rewrite bind_ok.
  destruct (Gen.compute_uvs vertices) as [uvs|] eqn:Hu; [|discriminate].
  rewrite bind_ok.
  destruct (Gen.gltf_buffer vertices normals uvs indices) as [r|] eqn:Hb; [|discriminate].
  rewrite bind_ok.
  destruct (gltf_buffer_layout _ _ _ _ _ Hb)
    as (pos & nrm & uv & idx & Lpos & Lnrm & Luv & Lidx & ->).
  cbv beta iota.
  destruct (Gen.gltf_accessors 0 1 2 3 vertices normals uvs indices)
    as [accessors|] eqn:Ha; [|discriminate].
  rewrite bind_ok.
  destruct (gltf_accessors_inv _ _ _ _ _ _ _ _ _ Ha) as (Hi & fields & rest & ->).
  cbv zeta.
  destruct (with_name path (stem path +:+ ".bin")) as [bin_path|] eqn:Hw; [|discriminate].
  rewrite bind_ok. destruct (with_name_inv _ _ _ Hw) as [Hname ->].
  intros [= <-].
  destruct (compute_uvs_length _ _ Hu) as [Hv Luvs].
  rewrite (compute_normals_length _ _ _ Hn) in Lnrm. rewrite Luvs in Luv.
  exists pos, nrm, uv, idx, fields, rest.
  do 7 (split; [assumption|]). reflexivity.
Qed.

(** [write_gltf] returns on every mesh of whole triangles over a non-empty
    vertex list, with 16-bit indices and floats in the binary32 range. *)
Lemma write_gltf_ok (path : Fs.path) (mesh_name : string)
    (vertices : list Gen.Vec3) (indices : list Z) (fs : gmap Fs.path node) :
  vertices <> [] -> indices <> [] ->
  triangles (len vertices) indices ->
  Forall (fun i => i <= 0xFFFF) indices ->
  floats_fit vertices indices = true ->
  name path <> "" ->
  exists fs', Gen.write_gltf path mesh_name vertices indices fs = Ok fs'.
Proof.
  intros Hv Hi Ht H16 Hfit Hname. unfold Gen.write_gltf.
  destruct (compute_normals_ok vertices indices Ht) as (normals & Hn & _).
  destruct (compute_uvs_ok vertices Hv) as (min_y & max_y & _ & _ & Hu).
  unfold floats_fit in Hfit. rewrite Hn, Hu in Hfit.
  apply andb_prop in Hfit as [Hfit Hfu]. apply andb_prop in Hfit as [Hfp Hfn].
  destruct (is_ok_inv _ Hfp) as [pos Hpos].
  destruct (is_ok_inv _ Hfn) as [nrm Hnrm].
  destruct (is_ok_inv _ Hfu) as [uv Huv].
  destruct (pack_all_u16_ok indices) as [idx Hidx].
  { clear -Ht H16. induction Ht as [|i0 i1 i2 rest H0 H1 H2 _ IH]; [constructor|].
    inversion H16 as [|? ? A0 H16a]; subst. inversion H16a as [|? ? A1 H16b]; subst.
    inversion H16b as [|? ? A2 H16c]; subst.
    repeat (constructor; [lia|]). apply IH. assumption. }
  rewrite Hn, bind_ok, Hu, bind_ok.
  rewrite (gltf_buffer_eq _ _ _ _ _ _ _ _ Hpos Hnrm Huv Hidx), bind_ok.
  cbv beta iota.
  assert (exists accessors, Gen.gltf_accessors 0 1 2 3 vertices normals
                              (uv_of min_y (max2 (max_y - min_y) 1e-6) <$> vertices) indices
                            = Ok accessors) as [accessors ->].
  { unfold Gen.gltf_accessors.
    destruct vertices as [|v vs]; [congruence|]. destruct indices as [|i is']; [congruence|].
    cbn [fmap list_fmap min_float max_float min_int max_int]. rewrite !bind_ok. eauto. }
  rewrite bind_ok. cbv zeta. rewrite (with_name_ok _ _ Hname), bind_ok. eauto.
Qed.

End ExportGltf.

Section RoundTrip.
Context {L : Libs}.

Lemma position_count_document (mesh_name bin_name : string) (n : Z)
    (views : list Gen.BufferView) (view count : Z) (fields : list (string * json))
    (rest : list json) :
  Val.position_count
    (Gen.gltf_document mesh_name bin_name n views
       (position_accessor view count fields :: rest))
  = Ok count.
Proof. reflexivity. Qed.

Lemma bin_name_not_empty (path : Fs.path) : bin_name_of path <> "".
Proof.
  unfold bin_name_of. destruct (stem path); discriminate.
Qed.

Lemma check_buffers_document (fs : gmap Fs.path node) (path : Fs.path)
    (mesh_name : string) (n : Z) (views : list Gen.BufferView) (accessors : list json) :
  is_Some (fs !! bin_path_of path) ->
  Val.check_buffers fs path
    (Gen.gltf_document mesh_name (bin_name_of path) n views accessors)
  = Ok [].
Proof.
  intros Hbin. unfold Val.check_buffers, Gen.gltf_document.
  set (buffers := JArr [ JObj [ ("uri", JStr (bin_name_of path)); ("byteLength", JInt n) ] ]).
  change (Val.dict_get _ "buffers") with (Some buffers).
  change (default (JArr []) (Some buffers)) with buffers.
  rewrite bind_ok. unfold buffers. cbn [Val.iterate]. rewrite bind_ok.
  cbn [for_each].
  change (Val.dict_get _ "uri") with (Some (JStr (bin_name_of path))).
  change (default JNull (Some (JStr (bin_name_of path)))) with (JStr (bin_name_of path)).
  rewrite bind_ok. cbn [Val.truthy].
  rewrite bool_decide_eq_false_2 by apply bin_name_not_empty. cbn [negb].
  unfold exists_. fold (bin_path_of path).
  rewrite bool_decide_eq_true_2 by exact Hbin. reflexivity.
Qed.


End RoundTrip.






(** ** The validator *)



Lemma ok_inj {A} (a b : A) : Ok a = Ok b -> a = b.
Proof. intros [= ->]. reflexivity. Qed.



Section Validator.
Context {L : Libs}.








End Validator.






Section Accumulation.
Context {L : Libs}.






End Accumulation.


(** C8: the claim does not hold of the code.  The loop of [validate_mesh]
    over [buffers] runs outside the [try] blocks: on a mesh file whose
    [buffers] list holds a number, [buffer.get] raises [AttributeError],
    which leaves [validate_theme_pack] and [main]; no error list is
    returned and none is printed. *)
Theorem C8_validate_theme_pack_aborts {L : Libs} :
  Val.validate_mesh pack_with_malformed_buffers
    (Path "" ["theme"; "meshes"; "agent_industrial.gltf"])
  = Raise AttributeError
  /\ Val.validate_theme_pack pack_with_malformed_buffers (Path "" ["theme"])
       Val.profile_v1 256
     = Raise AttributeError
  /\ Val.main {| Val.arg_theme_dir := Path "" ["theme"];
                 Val.arg_profile := "v1";
                 Val.arg_min_texture_size := 0 |}
       pack_with_malformed_buffers
     = Raise AttributeError.
Proof. repeat split; vm_compute; reflexivity. Qed.

(** When [main] returns, the exit code is 0 exactly when the error list is
    empty; otherwise it is 1 and the errors are printed one per line after a
    header. *)
Lemma main_exit_code {L : Libs} (args : Val.Namespace) (fs : gmap path node)
    (code : Z) (out : list Val.line) :
  Val.main args fs = Ok (code, out) ->
  exists profile errors,
    Val.PROFILES !! Val.arg_profile args = Some profile
    /\ Val.validate_theme_pack fs (Val.arg_theme_dir args) profile
         (if 0 <? Val.arg_min_texture_size args then Val.arg_min_texture_size args
          else Val.min_texture_size profile)
       = Ok errors
    /\ (code = 0 <-> errors = [])
    /\ (errors <> [] -> code = 1 /\ out = Val.FailedHeader :: (Val.ErrorLine <$> errors)).
Proof.
  unfold Val.main.
  destruct (Val.PROFILES !! Val.arg_profile args) as [profile|]; [|discriminate].
  rewrite bind_ok. cbv zeta.
  destruct (Val.validate_theme_pack _ _ _ _) as [errors|] eqn:Hv; [|discriminate].
  rewrite bind_ok. intros H. exists profile, errors.
  split; [reflexivity|]. split; [exact Hv|].
  destruct errors as [|e errors]; injection H as <- <-.
  - split; [split; reflexivity | congruence].
  - split; [split; discriminate | intros _; split; reflexivity].
Qed.

(** ** The agent mesh, end to end *)




Lemma name_div (p : path) (s : string) : name (p / s)%path = s.
Proof. unfold name, div. cbn [parts]. rewrite last_snoc. reflexivity. Qed.


Section Agent.
Context {L : Libs}.




End Agent.




(** * Further properties *)

(** ** Shapes of the builders *)

Lemma in_range (n x : Z) : In x (range n) -> 0 <= x < n.
Proof.
  unfold range. intros Hin. apply list_elem_of_In, list_elem_of_fmap in Hin.
  destruct Hin as (k & -> & Hk). apply elem_of_seq in Hk. lia.
Qed.

Lemma triangles_app (n : Z) (xs ys : list Z) :
  triangles n xs -> triangles n ys -> triangles n (xs ++ ys).
Proof.
  induction 1 as [|i0 i1 i2 rest H0 H1 H2 _ IH]; intros Hys; [exact Hys|].
  cbn [app]. constructor; auto.
Qed.

Lemma triangles_mono (n n' : Z) (xs : list Z) :
  n <= n' -> triangles n xs -> triangles n' xs.
Proof.
  intros Hn. induction 1; constructor; try lia. assumption.
Qed.

Lemma triangles_Forall (n : Z) (xs : list Z) :
  triangles n xs -> Forall (fun i => 0 <= i < n) xs.
Proof. induction 1; [constructor|]. repeat (constructor; [assumption|]). assumption. Qed.

Lemma triangles_mod (n : Z) (xs : list Z) : triangles n xs -> len xs `mod` 3 = 0.
Proof.
  induction 1 as [|i0 i1 i2 rest _ _ _ _ IH]; [reflexivity|].
  unfold len in *. cbn [length].
  replace (Z.of_nat (S (S (S (length rest))))) with (Z.of_nat (length rest) + 1 * 3) by lia.
  rewrite Z.mod_add by lia. exact IH.
Qed.

Lemma foldl_invariant_in {A S} (P : S -> Prop) (f : S -> A -> S) (xs : list A) :
  (forall s x, In x xs -> P s -> P (f s x)) -> forall s, P s -> P (foldl f s xs).
Proof.
  induction xs as [|x xs IH]; intros Hf s Hs; cbn [foldl]; [exact Hs|].
  apply IH.
  - intros s' y Hy. apply Hf. right. exact Hy.
  - apply Hf; [left; reflexivity | exact Hs].
Qed.

(** A loop whose body appends the items [g x] and never raises. *)
Lemma for_each_extend {A B} (xs : list A) (g : A -> list B)
    (body : A -> list B -> result (list B)) (acc : list B) :
  (forall x s, In x xs -> body x s = Ok (s ++ g x)) ->
  for_each xs body acc = Ok (acc ++ concat (g <$> xs)).
Proof.
  revert acc. induction xs as [|x xs IH]; intros acc Hbody;
    cbn [for_each fmap list_fmap concat].
  - rewrite app_nil_r. reflexivity.
  - rewrite Hbody by (left; reflexivity). rewrite bind_ok, IH, <- app_assoc; [reflexivity|].
    intros y s Hy. apply Hbody. right. exact Hy.
Qed.

Lemma len_concat_const {A B} (g : A -> list B) (k : Z) (xs : list A) :
  (forall x, In x xs -> len (g x) = k) -> len (concat (g <$> xs)) = k * len xs.
Proof.
  induction xs as [|x xs IH]; intros Hg; cbn [fmap list_fmap concat].
  - unfold len. cbn. lia.
  - rewrite len_app, Hg by (left; reflexivity).
    rewrite IH by (intros y Hy; apply Hg; right; exact Hy).
    unfold len. cbn [length]. lia.
Qed.

Section Shapes.
Context {L : Libs}.

Lemma build_prism_well_formed (radius height : float) (sides : Z) :
  well_formed (Gen.build_prism radius height sides).
Proof.
  unfold well_formed. rewrite build_prism_vertices.
  unfold Gen.build_prism. cbn [Gen.indices].
  apply (foldl_invariant_in (triangles (2 + 2 * Z.max 0 sides))); [|constructor].
  intros ids i Hi Hids. apply in_range in Hi.
  pose proof (Z.mod_pos_bound (i + 1) sides ltac:(lia)) as Hni.
  apply triangles_app; [exact Hids|].
  cbn [app]. repeat (constructor; try lia).
Qed.

(** The vertex loop of [build_uv_sphere]. *)
Lemma build_uv_sphere_ok (radius : float) (segments_u segments_v : Z) :
  1 <= segments_u -> 1 <= segments_v ->
  exists m, Gen.build_uv_sphere radius segments_u segments_v = Ok m
    /\ len (Gen.vertices m) = (segments_u + 1) * (segments_v + 1)
    /\ len (Gen.indices m) = 6 * segments_u * segments_v
    /\ well_formed m.
Proof.
  intros Hu Hv. unfold Gen.build_uv_sphere.
  set (point := fun y x : Z =>
    let v := (float_of_int y / float_of_int segments_v)%float in
    let phi := (math_pi * v)%float in
    let u := (float_of_int x / float_of_int segments_u)%float in
    let theta := ((2 * math_pi) * u)%float in
    ((radius * math_sin phi * math_cos theta)%float,
     (radius * math_cos phi)%float,
     (radius * math_sin phi * math_sin theta)%float)).
  rewrite (for_each_extend _ (fun y => point y <$> range (segments_u + 1))).
  2:{ intros y vs _. destruct (Z.eqb_spec segments_v 0); [lia|].
      apply (for_each_append _ (point y)).
      intros x s. destruct (Z.eqb_spec segments_u 0); [lia|]. reflexivity. }
  rewrite bind_ok. cbv zeta. eexists. split; [reflexivity|].
  unfold well_formed. cbn [Gen.vertices Gen.indices app].
  match goal with |- @len ?T ?vs = _ /\ _ =>
    assert (Hn : @len T vs = (segments_u + 1) * (segments_v + 1)) end.
  { rewrite (len_concat_const _ (segments_u + 1)).
    - rewrite len_range. lia.
    - intros y _. unfold len. rewrite length_fmap. fold (len (range (segments_u + 1))).
      rewrite len_range. lia. }
  rewrite Hn.
  split; [reflexivity|]. split.
  - rewrite (foldl_grows _ (6 * segments_u)).
    + rewrite len_range. unfold len at 1. cbn [length]. lia.
    + intros acc y. rewrite (foldl_grows _ 6).
      * rewrite len_range. lia.
      * intros acc' x. rewrite len_app. reflexivity.
  - apply (foldl_invariant_in (triangles ((segments_u + 1) * (segments_v + 1))));
      [|constructor].
    intros ids y Hy Hids. apply in_range in Hy.
    apply (foldl_invariant_in (triangles ((segments_u + 1) * (segments_v + 1))));
      [|exact Hids].
    intros ids' x Hx Hids'. apply in_range in Hx.
    apply triangles_app; [exact Hids'|].
    repeat (constructor; try nia).
Qed.

End Shapes.

Lemma range_nonpos (n : Z) : n <= 0 -> range n = [].
Proof. intros Hn. unfold range. replace (Z.to_nat n) with 0%nat by lia. reflexivity. Qed.

Lemma range_pos (n : Z) : 1 <= n -> exists rest, range n = 0 :: rest.
Proof.
  intros Hn. unfold range. destruct (Z.to_nat n) as [|k] eqn:Hk; [lia|].
  cbn [seq fmap list_fmap]. eauto.
Qed.


Section Sphere.
Context {L : Libs}.

Lemma build_uv_sphere_zero_v (radius : float) (segments_u : Z) :
  Gen.build_uv_sphere radius segments_u 0 = Raise ZeroDivisionError.
Proof. reflexivity. Qed.

Lemma build_uv_sphere_zero_u (radius : float) (segments_v : Z) :
  1 <= segments_v -> Gen.build_uv_sphere radius 0 segments_v = Raise ZeroDivisionError.
Proof.
  intros Hv. unfold Gen.build_uv_sphere.
  destruct (range_pos (segments_v + 1)) as [rest ->]; [lia|].
  cbn [for_each]. destruct (Z.eqb_spec segments_v 0); [lia|]. reflexivity.
Qed.

Lemma build_uv_sphere_negative (radius : float) (segments_u segments_v : Z) :
  segments_v < 0 \/ (1 <= segments_v /\ segments_u < 0) ->
  Gen.build_uv_sphere radius segments_u segments_v = Ok empty_mesh.
Proof.
  intros [Hv | [Hv Hu]]; unfold Gen.build_uv_sphere.
  - rewrite !(range_nonpos (segments_v + 1)), (range_nonpos segments_v) by lia.
    reflexivity.
  - rewrite (range_nonpos (segments_u + 1)), (range_nonpos segments_u) by lia.
    rewrite (for_each_extend _ (fun _ => [])).
    + rewrite bind_ok. cbv zeta. unfold empty_mesh. f_equal. f_equal.
      * generalize (range (segments_v + 1)). intros xs.
        induction xs as [|x xs IH]; [reflexivity | exact IH].
      * generalize (range segments_v). intros xs.
        induction xs as [|x xs IH]; [reflexivity | exact IH].
    + intros y vs _. destruct (Z.eqb_spec segments_v 0); [lia|].
      cbn [for_each]. rewrite app_nil_r. reflexivity.
Qed.


End Sphere.

(** X1: [build_uv_sphere] on every pair of segment counts.  With at least
    one segment each way the mesh has [(segments_u + 1) * (segments_v + 1)]
    vertices and [6 * segments_u * segments_v] indices; with no segment in
    the first direction reached by a division, [ZeroDivisionError] is
    raised; with a negative count the loops are empty and the mesh has
    neither vertices nor indices. *)
Theorem build_uv_sphere_counts {L : Libs} (radius : float) (segments_u segments_v : Z) :
  (1 <= segments_u -> 1 <= segments_v ->
     exists m, Gen.build_uv_sphere radius segments_u segments_v = Ok m
       /\ len (Gen.vertices m) = (segments_u + 1) * (segments_v + 1)
       /\ len (Gen.indices m) = 6 * segments_u * segments_v)
  /\ (segments_v = 0 \/ (1 <= segments_v /\ segments_u = 0) ->
        Gen.build_uv_sphere radius segments_u segments_v = Raise ZeroDivisionError)
  /\ (segments_v < 0 \/ (1 <= segments_v /\ segments_u < 0) ->
        Gen.build_uv_sphere radius segments_u segments_v = Ok empty_mesh).
Proof.
  split; [|split].
  - intros Hu Hv.
    destruct (build_uv_sphere_ok radius segments_u segments_v Hu Hv)
      as (m & Hm & Hn & Hk & _).
    eauto.
  - intros [-> | [Hv ->]];
      [apply build_uv_sphere_zero_v | apply build_uv_sphere_zero_u; exact Hv].
  - apply build_uv_sphere_negative.
Qed.

Lemma build_uv_sphere_counts_witness :
  exists m, @Gen.build_uv_sphere Ref.libs 0.43 16 10 = Ok m
    /\ len (Gen.vertices m) = 187 /\ len (Gen.indices m) = 960.
Proof.
  exact (proj1 (@build_uv_sphere_counts Ref.libs 0.43 16 10) ltac:(lia) ltac:(lia)).
Defined.


(** ** Mesh combinators *)

Lemma triangles_shift (offset n : Z) (xs : list Z) :
  0 <= offset -> triangles n xs ->
  triangles (offset + n) ((fun idx => offset + idx) <$> xs).
Proof.
  intros Ho. induction 1 as [|i0 i1 i2 rest H0 H1 H2 _ IH]; cbn [fmap list_fmap];
    constructor; try lia. exact IH.
Qed.

Lemma rebased_triangles (meshes : list Gen.MeshData) :
  Forall well_formed meshes ->
  forall offset, 0 <= offset ->
  triangles (offset + len (concat (Gen.vertices <$> meshes))) (rebased offset meshes).
Proof.
  induction 1 as [|m ms Hm _ IH]; intros offset Ho;
    cbn [rebased fmap list_fmap concat]; [constructor|].
  rewrite len_app.
  pose proof (len_nonneg (Gen.vertices m)).
  pose proof (len_nonneg (concat (Gen.vertices <$> ms))).
  apply triangles_app.
  - apply (triangles_mono (offset + len (Gen.vertices m))); [lia|].
    apply triangles_shift; assumption.
  - replace (offset + (len (Gen.vertices m) + len (concat (Gen.vertices <$> ms))))
      with (offset + len (Gen.vertices m) + len (concat (Gen.vertices <$> ms))) by lia.
    apply IH. lia.
Qed.

Lemma merge_meshes_well_formed (meshes : list Gen.MeshData) :
  Forall well_formed meshes -> well_formed (Gen.merge_meshes meshes).
Proof.
  intros Hall. unfold well_formed. rewrite merge_meshes_eq.
  cbn [Gen.vertices Gen.indices].
  exact (rebased_triangles meshes Hall 0 ltac:(lia)).
Qed.

Lemma transform_mesh_shape (m : Gen.MeshData) (scale translate : Gen.Vec3) :
  len (Gen.vertices (Gen.transform_mesh m scale translate)) = len (Gen.vertices m)
  /\ Gen.indices (Gen.transform_mesh m scale translate) = Gen.indices m.
Proof.
  destruct scale as [[s0 s1] s2], translate as [[t0 t1] t2].
  unfold Gen.transform_mesh. cbn [Gen.vertices Gen.indices].
  split; [unfold len; rewrite length_fmap|]; reflexivity.
Qed.

Lemma transform_mesh_well_formed (m : Gen.MeshData) (scale translate : Gen.Vec3) :
  well_formed m -> well_formed (Gen.transform_mesh m scale translate).
Proof.
  unfold well_formed. destruct (transform_mesh_shape m scale translate) as [-> ->].
  trivial.
Qed.

(** X3: [transform_mesh] keeps the vertex count and the index list, and
    both [transform_mesh] and [merge_meshes] keep the mesh invariant: from
    meshes of whole triangles over their own vertices they build a mesh of
    whole triangles over its own vertices. *)
Theorem mesh_combinators_well_formed (m : Gen.MeshData) (scale translate : Gen.Vec3)
    (meshes : list Gen.MeshData) :
  len (Gen.vertices (Gen.transform_mesh m scale translate)) = len (Gen.vertices m)
  /\ Gen.indices (Gen.transform_mesh m scale translate) = Gen.indices m
  /\ (well_formed m -> well_formed (Gen.transform_mesh m scale translate))
  /\ (Forall well_formed meshes -> well_formed (Gen.merge_meshes meshes)).
Proof.
  destruct (transform_mesh_shape m scale translate) as [Hn Hi].
  split; [exact Hn|]. split; [exact Hi|].
  split; [apply transform_mesh_well_formed | apply merge_meshes_well_formed].
Qed.

Lemma rebased_app (xs ys : list Gen.MeshData) (offset : Z) :
  rebased offset (xs ++ ys)
  = rebased offset xs ++ rebased (offset + len (concat (Gen.vertices <$> xs))) ys.
Proof.
  revert offset. induction xs as [|m ms IH]; intros offset;
    cbn [app rebased fmap list_fmap concat].
  - unfold len. cbn. rewrite Z.add_0_r. reflexivity.
  - rewrite IH, len_app, <- app_assoc, Z.add_assoc. reflexivity.
Qed.

Lemma rebased_shift (meshes : list Gen.MeshData) (a b : Z) :
  (fun idx => a + idx) <$> rebased b meshes = rebased (a + b) meshes.
Proof.
  revert b. induction meshes as [|m ms IH]; intros b; cbn [rebased fmap list_fmap];
    [reflexivity|].
  rewrite fmap_app, IH, <- list_fmap_compose, Z.add_assoc. f_equal.
  apply list_fmap_ext. intros i idx _. unfold compose. lia.
Qed.

(** X4: merging composes.  Merging no mesh gives the mesh without
    vertices, merging one mesh gives that mesh, and merging a sequence in
    two parts and then merging the two results gives the merge of the whole
    sequence. *)
Theorem merge_meshes_app (m : Gen.MeshData) (xs ys : list Gen.MeshData) :
  Gen.merge_meshes [] = empty_mesh
  /\ Gen.merge_meshes [m] = m
  /\ Gen.merge_meshes (xs ++ ys)
     = Gen.merge_meshes [ Gen.merge_meshes xs; Gen.merge_meshes ys ].
Proof.
  split; [reflexivity|]. split.
  - rewrite merge_meshes_eq. destruct m as [vs ids].
    cbn [fmap list_fmap concat rebased Gen.vertices Gen.indices].
    rewrite !app_nil_r. f_equal.
    rewrite <- (list_fmap_id ids) at 2. apply list_fmap_ext. intros i idx _. reflexivity.
  - rewrite !(merge_meshes_eq [_; _]), (merge_meshes_eq (xs ++ ys)).
    cbn [fmap list_fmap concat rebased Gen.vertices Gen.indices].
    rewrite !merge_meshes_eq. cbn [Gen.vertices Gen.indices].
    rewrite !app_nil_r, fmap_app, concat_app, rebased_app, !rebased_shift.
    rewrite !Z.add_0_l, Z.add_0_r. reflexivity.
Qed.

(** ** Normals on every index list *)

Lemma getitem_subscript {A} (xs : list A) (i : Z) :
  (- len xs <= i < len xs -> exists x, getitem xs i = Ok x)
  /\ (~ (- len xs <= i < len xs) -> getitem xs i = Raise IndexError).
Proof.
  unfold getitem, len. split; intros Hi.
  - destruct (Z.ltb_spec i 0).
    + destruct (Z.ltb_spec (Z.of_nat (length xs) + i) 0); [lia|].
      destruct (xs !! Z.to_nat (Z.of_nat (length xs) + i)) as [x|] eqn:Hx; [eauto|].
      apply lookup_ge_None in Hx. lia.
    + destruct (Z.ltb_spec i 0); [lia|].
      destruct (xs !! Z.to_nat i) as [x|] eqn:Hx; [eauto|].
      apply lookup_ge_None in Hx. lia.
  - destruct (Z.ltb_spec i 0).
    + destruct (Z.ltb_spec (Z.of_nat (length xs) + i) 0); [reflexivity | lia].
    + destruct (Z.ltb_spec i 0); [lia|].
      destruct (xs !! Z.to_nat i) as [x|] eqn:Hx; [|reflexivity].
      apply lookup_lt_Some in Hx. lia.
Qed.

Lemma setitem_subscript {A} (xs : list A) (i : Z) (x : A) :
  - len xs <= i < len xs ->
  setitem xs i x = Ok (<[Z.to_nat (if i <? 0 then len xs + i else i) := x]> xs).
Proof.
  intros Hi. unfold setitem.
  destruct (Z.ltb_spec i 0).
  - destruct (Z.ltb_spec (len xs + i) 0); [lia|].
    destruct (Z.leb_spec (len xs) (len xs + i)); [lia | reflexivity].
  - destruct (Z.ltb_spec i 0); [lia|].
    destruct (Z.leb_spec (len xs) i); [lia | reflexivity].
Qed.

Lemma getitem_raises {A} (xs : list A) (i : Z) (e : exn) :
  getitem xs i = Raise e -> e = IndexError /\ ~ (- len xs <= i < len xs).
Proof.
  intros He.
  assert (Hdec : (- len xs <= i < len xs) \/ ~ (- len xs <= i < len xs)) by lia.
  destruct Hdec as [Hi | Hi].
  - destruct (proj1 (getitem_subscript xs i) Hi) as [x Hx]. congruence.
  - rewrite (proj2 (getitem_subscript xs i) Hi) in He. split; [congruence | exact Hi].
Qed.

(** One round of the loop on a triple of valid subscripts. *)
Lemma normals_loop_step (vertices : list Gen.Vec3) (i0 i1 i2 : Z) (rest : list Z)
    (normals : list Gen.Vec3) :
  len normals = len vertices ->
  - len vertices <= i0 < len vertices ->
  - len vertices <= i1 < len vertices ->
  - len vertices <= i2 < len vertices ->
  exists f0 f1 f2,
    Gen.normals_loop vertices (i0 :: i1 :: i2 :: rest) normals
    = Gen.normals_loop vertices rest
        (<[Z.to_nat (if i2 <? 0 then len vertices + i2 else i2) := f2]>
           (<[Z.to_nat (if i1 <? 0 then len vertices + i1 else i1) := f1]>
              (<[Z.to_nat (if i0 <? 0 then len vertices + i0 else i0) := f0]> normals))).
Proof.
  intros Hlen H0 H1 H2. cbn [Gen.normals_loop].
  destruct (proj1 (getitem_subscript vertices i0) H0) as [p0 ->].
  destruct (proj1 (getitem_subscript vertices i1) H1) as [p1 ->].
  destruct (proj1 (getitem_subscript vertices i2) H2) as [p2 ->].
  rewrite !bind_ok.
  destruct (proj1 (getitem_subscript normals i0)) as [n0 ->]; [lia|].
  rewrite bind_ok, setitem_subscript, bind_ok by lia. rewrite Hlen.
  set (ns1 := <[_ := _]> normals).
  assert (Hl1 : len ns1 = len vertices) by (unfold ns1; rewrite len_insert; exact Hlen).
  destruct (proj1 (getitem_subscript ns1 i1)) as [n1 ->]; [lia|].
  rewrite bind_ok, setitem_subscript, bind_ok by lia. rewrite Hl1.
  set (ns2 := <[_ := _]> ns1).
  assert (Hl2 : len ns2 = len vertices) by (unfold ns2; rewrite len_insert; exact Hl1).
  destruct (proj1 (getitem_subscript ns2 i2)) as [n2 ->]; [lia|].
  rewrite bind_ok, setitem_subscript, bind_ok by lia. rewrite Hl2.
  eauto.
Qed.

Lemma normals_loop_subscripts (vertices : list Gen.Vec3) (indices : list Z) :
  subscript_triples (len vertices) indices ->
  forall normals, len normals = len vertices ->
  exists normals', Gen.normals_loop vertices indices normals = Ok normals'.
Proof.
  induction 1 as [|i0 i1 i2 rest H0 H1 H2 _ IH]; intros normals Hlen.
  - exists normals. reflexivity.
  - destruct (normals_loop_step vertices i0 i1 i2 rest normals Hlen H0 H1 H2)
      as (f0 & f1 & f2 & ->).
    apply IH. rewrite !len_insert. exact Hlen.
Qed.

(** The loop raises nothing but [IndexError], and ends only on whole
    triples of valid subscripts. *)
Lemma normals_loop_result (vertices : list Gen.Vec3) (indices : list Z) :
  forall normals, len normals = len vertices ->
  match Gen.normals_loop vertices indices normals with
  | Ok _ => subscript_triples (len vertices) indices
  | Raise e => e = IndexError /\ ~ subscript_triples (len vertices) indices
  end.
Proof.
  remember (length indices) as k eqn:Hk. revert indices Hk.
  induction k as [k IH] using lt_wf_ind. intros indices Hk normals Hlen.
  destruct indices as [|i0 [|i1 [|i2 rest]]].
  - constructor.
  - split; [reflexivity | intros Ht; inversion Ht].
  - split; [reflexivity | intros Ht; inversion Ht].
  - assert (Hdec : (- len vertices <= i0 < len vertices
                    /\ - len vertices <= i1 < len vertices
                    /\ - len vertices <= i2 < len vertices)
                   \/ ~ (- len vertices <= i0 < len vertices
                         /\ - len vertices <= i1 < len vertices
                         /\ - len vertices <= i2 < len vertices)) by lia.
    destruct Hdec as [(H0 & H1 & H2) | Hbad].
    + destruct (normals_loop_step vertices i0 i1 i2 rest normals Hlen H0 H1 H2)
        as (f0 & f1 & f2 & ->).
      specialize (IH (length rest) ltac:(subst k; cbn [length]; lia) rest eq_refl
                    (<[Z.to_nat (if i2 <? 0 then len vertices + i2 else i2) := f2]>
                       (<[Z.to_nat (if i1 <? 0 then len vertices + i1 else i1) := f1]>
                          (<[Z.to_nat (if i0 <? 0 then len vertices + i0 else i0) := f0]>
                             normals)))
                    ltac:(rewrite !len_insert; exact Hlen)).
      destruct (Gen.normals_loop vertices rest _) as [ns|e].
      * constructor; assumption.
      * destruct IH as [-> Hrest]. split; [reflexivity|].
        intros Ht. inversion Ht; subst. contradiction.
    + assert (Hnot : ~ subscript_triples (len vertices) (i0 :: i1 :: i2 :: rest))
        by (intros Ht; inversion Ht; subst; lia).
      cbn [Gen.normals_loop].
      destruct (getitem vertices i0) as [p0|e0] eqn:G0;
        [|apply getitem_raises in G0 as [-> _]; split; [reflexivity | exact Hnot]].
      destruct (getitem vertices i1) as [p1|e1] eqn:G1;
        [|apply getitem_raises in G1 as [-> _]; split; [reflexivity | exact Hnot]].
      destruct (getitem vertices i2) as [p2|e2] eqn:G2;
        [|apply getitem_raises in G2 as [-> _]; split; [reflexivity | exact Hnot]].
      exfalso. apply Hbad.
      assert (Hin : forall i p, getitem vertices i = Ok p ->
                                - len vertices <= i < len vertices).
      { intros i p Hp.
        assert (Hd : (- len vertices <= i < len vertices)
                     \/ ~ (- len vertices <= i < len vertices)) by lia.
        destruct Hd as [Hd | Hd]; [exact Hd|].
        rewrite (proj2 (getitem_subscript vertices i) Hd) in Hp. discriminate. }
      split; [exact (Hin _ _ G0)|]. split; [exact (Hin _ _ G1) | exact (Hin _ _ G2)].
Qed.

Lemma subscript_triples_iff (n : Z) (indices : list Z) :
  subscript_triples n indices
  <-> len indices `mod` 3 = 0 /\ Forall (fun i => - n <= i < n) indices.
Proof.
  split.
  - induction 1 as [|i0 i1 i2 rest H0 H1 H2 _ [IHm IHf]]; [split; [reflexivity | constructor]|].
    split; [|repeat (constructor; [assumption|]); exact IHf].
    unfold len in *. cbn [length].
    replace (Z.of_nat (S (S (S (length rest))))) with (Z.of_nat (length rest) + 1 * 3) by lia.
    rewrite Z.mod_add by lia. exact IHm.
  - intros [Hmod Hall].
    remember (length indices) as k eqn:Hk. revert indices Hk Hmod Hall.
    induction k as [k IH] using lt_wf_ind. intros indices Hk Hmod Hall.
    destruct indices as [|i0 [|i1 [|i2 rest]]].
    + constructor.
    + unfold len in Hmod. cbn in Hmod. discriminate.
    + unfold len in Hmod. cbn in Hmod. discriminate.
    + inversion Hall as [|? ? H0 Hall1]; subst.
      inversion Hall1 as [|? ? H1 Hall2]; subst.
      inversion Hall2 as [|? ? H2 Hall3]; subst.
      constructor; try assumption.
      apply (IH (length rest)); [cbn [length]; lia | reflexivity | | assumption].
      unfold len in *. cbn [length] in Hmod.
      replace (Z.of_nat (S (S (S (length rest))))) with (Z.of_nat (length rest) + 1 * 3)
        in Hmod by lia.
      rewrite Z.mod_add in Hmod by lia. exact Hmod.
Qed.

Lemma compute_normals_result (vertices : list Gen.Vec3) (indices : list Z) :
  match Gen.compute_normals vertices indices with
  | Ok normals => subscript_triples (len vertices) indices /\ len normals = len vertices
  | Raise e => e = IndexError /\ ~ subscript_triples (len vertices) indices
  end.
Proof.
  pose proof (normals_loop_result vertices indices
                ((fun _ => (0, 0, 0)%float) <$> vertices)
                ltac:(unfold len; rewrite length_fmap; reflexivity)) as Hloop.
  destruct (Gen.compute_normals vertices indices) as [normals|e] eqn:Hc.
  - split; [|exact (compute_normals_length _ _ _ Hc)].
    unfold Gen.compute_normals in Hc.
    destruct (Gen.normals_loop _ _ _); [exact Hloop | discriminate].
  - unfold Gen.compute_normals in Hc.
    destruct (Gen.normals_loop _ _ _) as [ns|e']; [discriminate|].
    rewrite bind_raise in Hc. injection Hc as <-. exact Hloop.
Qed.

(** X5: [compute_normals] returns exactly on the index lists that are
    whole triples of valid subscripts of the vertex list, negative ones
    counting from the end; it then returns one normal per vertex.  On every
    other index list it raises [IndexError]. *)
Theorem compute_normals_domain (vertices : list Gen.Vec3) (indices : list Z) :
  let valid :=
    len indices `mod` 3 = 0
    /\ Forall (fun i => - len vertices <= i < len vertices) indices in
  (valid -> exists normals, Gen.compute_normals vertices indices = Ok normals
                            /\ len normals = len vertices)
  /\ (~ valid -> Gen.compute_normals vertices indices = Raise IndexError).
Proof.
  intros valid. pose proof (compute_normals_result vertices indices) as Hr.
  split; intros Hv.
  - destruct (Gen.compute_normals vertices indices) as [normals|e]; [destruct Hr; eauto|].
    destruct Hr as [_ Hnot]. exfalso. apply Hnot, subscript_triples_iff. exact Hv.
  - destruct (Gen.compute_normals vertices indices) as [normals|e].
    + destruct Hr as [Ht _]. exfalso. apply Hv, subscript_triples_iff. exact Ht.
    + destruct Hr as [-> _]. reflexivity.
Qed.

Lemma compute_normals_domain_witness :
  (exists normals,
     Gen.compute_normals [ (0, 0, 0); (1, 0, 0); (0, 0, 1) ]%float [ 0; -1; 1 ] = Ok normals
     /\ len normals = 3)
  /\ Gen.compute_normals [ (0, 0, 0); (1, 0, 0); (0, 0, 1) ]%float [ 0; 1; 2; 0 ]
     = Raise IndexError
  /\ Gen.compute_normals [ (0, 0, 0); (1, 0, 0); (0, 0, 1) ]%float [ 0; 1; 3 ]
     = Raise IndexError.
Proof.
  split; [|split].
  - destruct (proj1 (compute_normals_domain
                       [ (0, 0, 0); (1, 0, 0); (0, 0, 1) ]%float [ 0; -1; 1 ]))
      as (normals & Hn & Hl).
    + split; [reflexivity|]. unfold len. cbn [length]. repeat constructor; lia.
    + exists normals. split; [exact Hn | exact Hl].
  - apply (proj2 (compute_normals_domain _ _)). intros [Hmod _]. discriminate Hmod.
  - apply (proj2 (compute_normals_domain _ _)). intros [_ Hall].
    unfold len in Hall. cbn [length] in Hall.
    inversion Hall as [|? ? _ H1]; subst. inversion H1 as [|? ? _ H2]; subst.
    inversion H2 as [|? ? H3 _]; subst. lia.
Defined.
Lemma normals_loop_untouched (vertices : list Gen.Vec3) (j : Z) (indices : list Z) :
  0 <= j < len vertices ->
  subscript_triples (len vertices) indices ->
  Forall (fun i => i <> j /\ i <> j - len vertices) indices ->
  forall normals normals',
    len normals = len vertices ->
    Gen.normals_loop vertices indices normals = Ok normals' ->
    normals' !! Z.to_nat j = normals !! Z.to_nat j.
Proof.
  intros Hj. induction 1 as [|i0 i1 i2 rest H0 H1 H2 _ IH]; intros Hall normals normals' Hlen.
  - intros [= <-]. reflexivity.
  - inversion Hall as [|? ? [A0 B0] Hall1]; subst.
    inversion Hall1 as [|? ? [A1 B1] Hall2]; subst.
    inversion Hall2 as [|? ? [A2 B2] Hall3]; subst.
    destruct (normals_loop_step vertices i0 i1 i2 rest normals Hlen H0 H1 H2)
      as (f0 & f1 & f2 & ->).
    intros Hrest.
    apply IH in Hrest; [|exact Hall3 | rewrite !len_insert; exact Hlen].
    rewrite Hrest, !list_lookup_insert_ne; [reflexivity| | |].
    + destruct (Z.ltb_spec i0 0); lia.
    + destruct (Z.ltb_spec i1 0); lia.
    + destruct (Z.ltb_spec i2 0); lia.
Qed.

(** X6: a vertex that no triangle uses gets the normal [(0, 1, 0)]: its
    accumulated face normal stays zero, which [normalize3] replaces by the
    unit vector of the y axis. *)
Theorem unused_vertex_normal (vertices normals : list Gen.Vec3) (indices : list Z)
    (j : Z) :
  Gen.compute_normals vertices indices = Ok normals ->
  0 <= j < len vertices ->
  Forall (fun i => i <> j /\ i <> j - len vertices) indices ->
  getitem normals j = Ok (0, 1, 0)%float.
Proof.
  intros Hc Hj Hall.
  pose proof (compute_normals_result vertices indices) as Hr. rewrite Hc in Hr.
  destruct Hr as [Ht _].
  unfold Gen.compute_normals in Hc.
  destruct (Gen.normals_loop _ _ _) as [ns|] eqn:Hloop; [|discriminate].
  rewrite bind_ok in Hc. injection Hc as <-.
  assert (Hlen : len ((fun _ : Gen.Vec3 => (0, 0, 0)%float) <$> vertices) = len vertices)
    by (unfold len; rewrite length_fmap; reflexivity).
  pose proof (normals_loop_untouched vertices j indices Hj Ht Hall _ _ Hlen Hloop) as Hns.
  destruct (lookup_lt_is_Some_2 vertices (Z.to_nat j)) as [p Hp]; [unfold len in Hj; lia|].
  rewrite list_lookup_fmap, Hp in Hns. cbn in Hns.
  unfold getitem. destruct (Z.ltb_spec j 0); [lia|].
  destruct (Z.ltb_spec j 0); [lia|].
  rewrite list_lookup_fmap, Hns. reflexivity.
Qed.

Lemma unused_vertex_normal_witness :
  exists normals,
    Gen.compute_normals [ (0, 0, 0); (1, 0, 0); (0, 0, 1); (5, 5, 5) ]%float [ 0; 1; 2 ]
    = Ok normals
    /\ getitem normals 3 = Ok (0, 1, 0)%float.
Proof.
  eexists. split; [reflexivity|].
  apply (unused_vertex_normal [ (0, 0, 0); (1, 0, 0); (0, 0, 1); (5, 5, 5) ]%float _
           [ 0; 1; 2 ] 3 eq_refl).
  - unfold len. cbn [length]. lia.
  - unfold len. cbn [length]. repeat constructor; lia.
Defined.

(** ** The domain of the exporter *)

Lemma pack_f32_raises (x : float) (e : exn) : pack_f32 x = Raise e -> e = OverflowError.
Proof.
  unfold pack_f32. destruct (Prim2SF x); destruct (f32_of_float x); congruence.
Qed.

Lemma pack_vec3_raises (v : Gen.Vec3) (e : exn) :
  Gen.pack_vec3 v = Raise e -> e = OverflowError.
Proof.
  destruct v as [[a b] c]. unfold Gen.pack_vec3.
  destruct (pack_f32 a) eqn:Ha; [|rewrite bind_raise; intros [= <-]; exact (pack_f32_raises _ _ Ha)].
  destruct (pack_f32 b) eqn:Hb; [|rewrite bind_ok, bind_raise; intros [= <-]; exact (pack_f32_raises _ _ Hb)].
  destruct (pack_f32 c) eqn:Hc; [discriminate|].
  rewrite !bind_ok, bind_raise. intros [= <-]. exact (pack_f32_raises _ _ Hc).
Qed.

Lemma pack_vec2_raises (v : Gen.Vec2) (e : exn) :
  Gen.pack_vec2 v = Raise e -> e = OverflowError.
Proof.
  destruct v as [a b]. unfold Gen.pack_vec2.
  destruct (pack_f32 a) eqn:Ha; [|rewrite bind_raise; intros [= <-]; exact (pack_f32_raises _ _ Ha)].
  destruct (pack_f32 b) eqn:Hb; [discriminate|].
  rewrite bind_ok, bind_raise. intros [= <-]. exact (pack_f32_raises _ _ Hb).
Qed.

Lemma pack_u16_le_raises (v : Z) (e : exn) : pack_u16_le v = Raise e -> e = StructError.
Proof. unfold pack_u16_le. destruct (_ && _); congruence. Qed.

Lemma pack_all_raises {A} (pack : A -> result (list byte)) (P : exn -> Prop) :
  (forall v e, pack v = Raise e -> P e) ->
  forall vs e, pack_all pack vs = Raise e -> P e.
Proof.
  intros Hp vs. induction vs as [|v vs IH]; intros e; cbn [pack_all]; [discriminate|].
  destruct (pack v) eqn:Hv; [|rewrite bind_raise; intros [= <-]; exact (Hp _ _ Hv)].
  rewrite bind_ok. destruct (pack_all pack vs); [discriminate|].
  rewrite bind_raise. intros [= <-]. apply IH. reflexivity.
Qed.


Section Domain.
Context {L : Libs}.


Lemma gltf_buffer_raises (vertices normals : list Gen.Vec3) (uvs : list Gen.Vec2)
    (indices : list Z) (e : exn) :
  Gen.gltf_buffer vertices normals uvs indices = Raise e ->
  e = OverflowError \/ e = StructError.
Proof.
  destruct (pack_all Gen.pack_vec3 vertices) as [pos|e1] eqn:Hpos.
  2:{ unfold Gen.gltf_buffer. rewrite Hpos, bind_raise. intros [= <-]. left.
      exact (pack_all_raises _ _ pack_vec3_raises _ _ Hpos). }
  destruct (pack_all Gen.pack_vec3 normals) as [nrm|e1] eqn:Hnrm.
  2:{ unfold Gen.gltf_buffer. rewrite Hpos, Hnrm, bind_ok, bind_raise. intros [= <-]. left.
      exact (pack_all_raises _ _ pack_vec3_raises _ _ Hnrm). }
  destruct (pack_all Gen.pack_vec2 uvs) as [uv|e1] eqn:Huv.
  2:{ unfold Gen.gltf_buffer. rewrite Hpos, Hnrm, Huv, !bind_ok, bind_raise.
      intros [= <-]. left. exact (pack_all_raises _ _ pack_vec2_raises _ _ Huv). }
  destruct (pack_all pack_u16_le indices) as [idx|e1] eqn:Hidx.
  2:{ unfold Gen.gltf_buffer. rewrite Hpos, Hnrm, Huv, Hidx, !bind_ok, bind_raise.
      intros [= <-]. right. exact (pack_all_raises _ _ pack_u16_le_raises _ _ Hidx). }
  rewrite (gltf_buffer_eq _ _ _ _ _ _ _ _ Hpos Hnrm Huv Hidx). discriminate.
Qed.




End Domain.


(** X8: a successful [write_gltf] writes two files and touches nothing
    else: the document at [path], and the buffer next to it under the name
    [stem + ".bin"]; every other path keeps what it held.  When the name of
    [path] itself ends in [.bin] the two paths coincide and the document
    replaces the buffer written just before. *)
Theorem write_gltf_frame {L : Libs} (path : Fs.path) (mesh_name : string)
    (vertices : list Gen.Vec3) (indices : list Z) (fs fs' : gmap Fs.path node) :
  Gen.write_gltf path mesh_name vertices indices fs = Ok fs' ->
  (exists doc, fs' !! path = Some (JsonFile doc))
  /\ (path <> bin_path_of path ->
        exists data, fs' !! bin_path_of path = Some (BinaryFile data)
                     /\ len data = 32 * len vertices + 2 * len indices)
  /\ (forall q, q <> path -> q <> bin_path_of path -> fs' !! q = fs !! q).
Proof.
  intros Hw.
  destruct (write_gltf_inv _ _ _ _ _ _ Hw)
    as (pos & nrm & uv & idx & fields & rest & _ & _ & _ & Lpos & Lnrm & Luv & Lidx & ->).
  unfold write_json, write_bytes. split; [|split].
  - rewrite lookup_insert_eq. eauto.
  - intros Hne. rewrite lookup_insert_ne, lookup_insert_eq by exact Hne.
    eexists. split; [reflexivity|]. rewrite !len_app. lia.
  - intros q Hq Hb. rewrite !lookup_insert_ne by congruence. reflexivity.
Qed.

Lemma write_gltf_frame_witness :
  exists fs' doc data,
    @Gen.write_gltf Ref.libs (Path "" ["meshes"; "tri.gltf"]) "Tri"
      triangle_vertices triangle_indices
      (<[Path "" ["readme"] := BinaryFile [x00]]> ∅) = Ok fs'
    /\ fs' !! Path "" ["meshes"; "tri.gltf"] = Some (JsonFile doc)
    /\ fs' !! Path "" ["meshes"; "tri.bin"] = Some (BinaryFile data)
    /\ len data = 102
    /\ fs' !! Path "" ["readme"] = Some (BinaryFile [x00]).
Proof.
  assert (Hok : is_ok (@Gen.write_gltf Ref.libs (Path "" ["meshes"; "tri.gltf"]) "Tri"
                         triangle_vertices triangle_indices
                         (<[Path "" ["readme"] := BinaryFile [x00]]> ∅)) = true)
    by (vm_compute; reflexivity).
  destruct (@Gen.write_gltf Ref.libs (Path "" ["meshes"; "tri.gltf"]) "Tri"
              triangle_vertices triangle_indices
              (<[Path "" ["readme"] := BinaryFile [x00]]> ∅)) as [fs'|e] eqn:Hw;
    [|discriminate Hok].
  destruct (@write_gltf_frame Ref.libs _ _ _ _ _ _ Hw) as ([doc Hdoc] & Hbin & Hframe).
  destruct Hbin as (data & Hdata & Hlen); [vm_compute; discriminate|].
  exists fs', doc, data. split; [reflexivity|]. split; [exact Hdoc|].
  split; [exact Hdata|]. split; [exact Hlen|].
  rewrite Hframe by (vm_compute; discriminate). reflexivity.
Defined.

(** ** The generated meshes *)

Lemma parent_div (p : path) (s : string) : parent (p / s)%path = p.
Proof.
  destruct p as [a ps]. unfold parent, div. cbn [anchor parts].
  rewrite removelast_last. reflexivity.
Qed.

Lemma bin_path_div (d : path) (s : string) :
  bin_path_of (d / s)%path = (d / (stem_of s +:+ ".bin"))%path.
Proof.
  unfold bin_path_of, bin_name_of, stem. rewrite parent_div, name_div. reflexivity.
Qed.

Lemma div_inj (d : path) (a b : string) : (d / a)%path = (d / b)%path -> a = b.
Proof.
  unfold div. intros [= Heq]. apply app_inj_tail in Heq as [_ Heq]. exact Heq.
Qed.

Lemma len_rebased (meshes : list Gen.MeshData) (offset : Z) :
  len (rebased offset meshes) = sum_int ((fun m => len (Gen.indices m)) <$> meshes).
Proof.
  revert offset. induction meshes as [|m ms IH]; intros offset;
    cbn [rebased fmap list_fmap sum_int foldr]; [reflexivity|].
  rewrite len_app, IH. unfold len at 1. rewrite length_fmap. reflexivity.
Qed.

Lemma merge_meshes_counts (meshes : list Gen.MeshData) :
  len (Gen.vertices (Gen.merge_meshes meshes))
  = sum_int ((fun m => len (Gen.vertices m)) <$> meshes)
  /\ len (Gen.indices (Gen.merge_meshes meshes))
     = sum_int ((fun m => len (Gen.indices m)) <$> meshes).
Proof.
  rewrite merge_meshes_eq. cbn [Gen.vertices Gen.indices].
  split; [apply len_concat_vertices | apply len_rebased].
Qed.

Lemma exported_validate {L : Libs} (fs : gmap path node) (p : path) (count : Z) :
  exported fs p count -> Val.validate_mesh fs p = Ok (count, []).
Proof.
  intros [(mesh_name & n & views & view & fields & rest & Hdoc) Hbin].
  unfold Val.validate_mesh, Val.load_json. rewrite Hdoc.
  rewrite position_count_document, check_buffers_document by exact Hbin.
  reflexivity.
Qed.

Lemma exported_agree (fs fs' : gmap path node) (p : path) (count : Z) :
  fs' !! p = fs !! p -> fs' !! bin_path_of p = fs !! bin_path_of p ->
  exported fs p count -> exported fs' p count.
Proof. unfold exported. intros -> ->. trivial. Qed.

Section Generated.
Context {L : Libs}.

Lemma write_gltf_exported (path : Fs.path) (mesh_name : string)
    (vertices : list Gen.Vec3) (indices : list Z) (fs fs' : gmap Fs.path node) :
  Gen.write_gltf path mesh_name vertices indices fs = Ok fs' ->
  exported fs' path (len vertices)
  /\ (forall q, q <> path -> q <> bin_path_of path -> fs' !! q = fs !! q).
Proof.
  intros Hw.
  destruct (write_gltf_inv _ _ _ _ _ _ Hw)
    as (pos & nrm & uv & idx & fields & rest & _ & _ & _ & _ & _ & _ & _ & ->).
  unfold write_json, write_bytes. split; [split|].
  - rewrite lookup_insert_eq. do 6 eexists. reflexivity.
  - destruct (decide (path = bin_path_of path)) as [<-|Hne].
    + rewrite lookup_insert_eq. eauto.
    + rewrite lookup_insert_ne, lookup_insert_eq by exact Hne. eauto.
  - intros q Hq Hb. rewrite !lookup_insert_ne by congruence. reflexivity.
Qed.

(** On a mesh that keeps the invariant and has at most [2^16] vertices,
    only a float beyond the binary32 range stops [write_gltf]. *)
Lemma write_gltf_well_formed (path : Fs.path) (mesh_name : string)
    (m : Gen.MeshData) (fs : gmap Fs.path node) :
  well_formed m -> Gen.indices m <> [] -> len (Gen.vertices m) <= 65536 ->
  name path <> "" ->
  Gen.write_gltf path mesh_name (Gen.vertices m) (Gen.indices m) fs = Raise OverflowError
  \/ exists fs', Gen.write_gltf path mesh_name (Gen.vertices m) (Gen.indices m) fs = Ok fs'.
Proof.
  intros Hwf Hi Hn Hname. unfold well_formed in Hwf.
  pose proof (triangles_Forall _ _ Hwf) as Hall.
  assert (Hv : Gen.vertices m <> []).
  { intros Hnil. destruct (Gen.indices m) as [|i rest]; [congruence|].
    inversion Hall as [|? ? Hi0 _]; subst. rewrite Hnil in Hi0. unfold len in Hi0.
    cbn in Hi0. lia. }
  destruct (Gen.write_gltf path mesh_name (Gen.vertices m) (Gen.indices m) fs)
    as [fs'|e] eqn:Hw; [eauto|].
  left. f_equal.
  destruct (floats_fit (Gen.vertices m) (Gen.indices m)) eqn:Hfit.
  - destruct (write_gltf_ok path mesh_name _ _ fs Hv Hi Hwf) as [fs' Hok];
      [|exact Hfit | exact Hname | congruence].
    eapply Forall_impl; [exact Hall|]. intros i Hr. cbn beta in Hr. lia.
  - revert Hw. unfold Gen.write_gltf.
    destruct (compute_normals_ok _ _ Hwf) as (normals & Hnr & _).
    destruct (compute_uvs_ok _ Hv) as (min_y & max_y & _ & _ & Hu).
    unfold floats_fit in Hfit. rewrite Hnr, Hu in Hfit.
    rewrite Hnr, Hu, !bind_ok.
    destruct (Gen.gltf_buffer _ _ _ _) as [r|e1] eqn:Hb.
    + exfalso. unfold Gen.gltf_buffer in Hb.
      destruct (pack_all Gen.pack_vec3 (Gen.vertices m)); [|discriminate].
      rewrite bind_ok in Hb.
      destruct (pack_all Gen.pack_vec3 normals); [|discriminate]. rewrite bind_ok in Hb.
      destruct (pack_all Gen.pack_vec2 _); [|discriminate]. discriminate Hfit.
    + rewrite bind_raise. intros [= <-].
      destruct (gltf_buffer_raises _ _ _ _ _ Hb) as [-> | ->]; [reflexivity|].
      exfalso.
      destruct (pack_all_u16_ok (Gen.indices m)) as [idx Hidx].
      { eapply Forall_impl; [exact Hall|]. intros i Hr. cbn beta in Hr. lia. }
      destruct (pack_all Gen.pack_vec3 (Gen.vertices m)) as [pos|e1] eqn:H1.
      2:{ unfold Gen.gltf_buffer in Hb. rewrite H1, bind_raise in Hb. injection Hb as ->.
          pose proof (pack_all_raises _ _ pack_vec3_raises _ _ H1). discriminate. }
      destruct (pack_all Gen.pack_vec3 normals) as [nrm|e1] eqn:H2.
      2:{ unfold Gen.gltf_buffer in Hb. rewrite H1, H2, bind_ok, bind_raise in Hb.
          injection Hb as ->.
          pose proof (pack_all_raises _ _ pack_vec3_raises _ _ H2). discriminate. }
      destruct (pack_all Gen.pack_vec2 (uv_of min_y (max2 (max_y - min_y) 1e-6)
                                          <$> Gen.vertices m)) as [uv|e1] eqn:H3.
      2:{ unfold Gen.gltf_buffer in Hb. rewrite H1, H2, H3, !bind_ok, bind_raise in Hb.
          injection Hb as ->.
          pose proof (pack_all_raises _ _ pack_vec2_raises _ _ H3). discriminate. }
      rewrite (gltf_buffer_eq _ _ _ _ _ _ _ _ H1 H2 H3 Hidx) in Hb. discriminate.
Qed.

End Generated.
Lemma build_box_well_formed (size : Gen.Vec3) : well_formed (Gen.build_box size).
Proof.
  destruct size as [[s0 s1] s2]. unfold well_formed. cbn. repeat (constructor; try lia).
Qed.

Lemma build_octahedron_well_formed (r : float) : well_formed (Gen.build_octahedron r).
Proof. unfold well_formed. cbn. repeat (constructor; try lia). Qed.

Lemma not_nil_of_len {A} (xs : list A) : 0 < len xs -> xs <> [].
Proof. intros Hn ->. unfold len in Hn. cbn in Hn. lia. Qed.

Section GeneratedMeshes.
Context {L : Libs}.


Lemma write_gltf_keeps (path q : Fs.path) (mesh_name : string)
    (vertices : list Gen.Vec3) (indices : list Z) (fs fs' : gmap Fs.path node)
    (count : Z) :
  Gen.write_gltf path mesh_name vertices indices fs = Ok fs' ->
  q <> path -> q <> bin_path_of path ->
  bin_path_of q <> path -> bin_path_of q <> bin_path_of path ->
  exported fs q count -> exported fs' q count.
Proof.
  intros Hw H1 H2 H3 H4. destruct (write_gltf_exported _ _ _ _ _ _ Hw) as [_ Hframe].
  apply exported_agree; apply Hframe; assumption.
Qed.

End GeneratedMeshes.

Ltac paths_differ :=
  rewrite ?bin_path_div; let Heq := fresh in
  intros Heq%div_inj; vm_compute in Heq; discriminate Heq.

(** The five exports of [generate_meshes]. *)
Lemma generate_meshes_exports {L : Libs} (mesh_dir : path) (fs : gmap path node) :
  Gen.generate_meshes mesh_dir fs = Raise OverflowError
  \/ exists fs',
       Gen.generate_meshes mesh_dir fs = Ok fs'
       /\ Forall (fun en : string * Z =>
                    exported fs' (mesh_dir / (en.1 +:+ "_industrial.gltf"))%path en.2)
            generated_vertex_counts
       /\ (forall q,
             Forall (fun en : string * Z =>
                       q <> (mesh_dir / (en.1 +:+ "_industrial.gltf"))%path
                       /\ q <> (mesh_dir / (en.1 +:+ "_industrial.bin"))%path)
               generated_vertex_counts ->
             fs' !! q = fs !! q).
Proof.
  destruct (build_uv_sphere_ok 1.05 24 16) as (location & Hloc & Hlv & Hli & Hlwf);
    [lia | lia |].
  destruct (build_uv_sphere_ok 0.43 16 10) as (dome & Hdome & Hdv & Hdi & Hdwf);
    [lia | lia |].
  unfold Gen.generate_meshes. rewrite Hloc, bind_ok. cbv zeta. rewrite Hdome, bind_ok.
  set (agent := Gen.agent_mesh).
  set (asset := Gen.merge_meshes [ Gen.build_box _; _ ]).
  set (power_plant := Gen.merge_meshes [ Gen.build_prism 0.56 1.22 8; _ ]).
  set (power_storage := Gen.merge_meshes [ Gen.build_prism 0.46 1.3 18; _; _ ]).
  assert (Hagent : well_formed agent /\ len (Gen.vertices agent) = 20
                   /\ len (Gen.indices agent) = 96).
  { split; [|subst agent; unfold Gen.agent_mesh;
             destruct (merge_meshes_counts
                         [ Gen.build_octahedron 0.56;
                           Gen.transform_mesh (Gen.build_prism 0.16 0.55 6) Gen.no_scale
                             (0, 0.54, 0)%float ]) as [-> ->];
             cbn [fmap list_fmap sum_int foldr];
             destruct (transform_mesh_shape (Gen.build_prism 0.16 0.55 6) Gen.no_scale
                         (0, 0.54, 0)%float) as [-> ->];
             rewrite build_prism_vertices, build_prism_indices; split; reflexivity].
    apply merge_meshes_well_formed.
    apply Forall_cons; split; [apply build_octahedron_well_formed|].
    apply Forall_cons; split; [|constructor].
    apply transform_mesh_well_formed, build_prism_well_formed. }
  assert (Hasset : well_formed asset /\ len (Gen.vertices asset) = 16
                   /\ len (Gen.indices asset) = 72).
  { split; [|subst asset;
             destruct (merge_meshes_counts
                         [ Gen.build_box (0.95, 0.6, 0.95)%float;
                           Gen.transform_mesh (Gen.build_box (0.78, 0.22, 0.78)%float)
                             Gen.no_scale (0, 0.41, 0)%float ]) as [-> ->];
             split; reflexivity].
    apply merge_meshes_well_formed.
    apply Forall_cons; split; [apply build_box_well_formed|].
    apply Forall_cons; split; [|constructor].
    apply transform_mesh_well_formed, build_box_well_formed. }
  assert (Hplant : well_formed power_plant /\ len (Gen.vertices power_plant) = 36
                   /\ len (Gen.indices power_plant) = 192).
  { split; [|subst power_plant;
             destruct (merge_meshes_counts
                         [ Gen.build_prism 0.56 1.22 8;
                           Gen.transform_mesh (Gen.build_prism 0.22 0.72 8) Gen.no_scale
                             (0, 0.74, 0)%float ]) as [-> ->];
             cbn [fmap list_fmap sum_int foldr];
             destruct (transform_mesh_shape (Gen.build_prism 0.22 0.72 8) Gen.no_scale
                         (0, 0.74, 0)%float) as [-> ->];
             rewrite !build_prism_vertices, !build_prism_indices; split; reflexivity].
    apply merge_meshes_well_formed.
    apply Forall_cons; split; [apply build_prism_well_formed|].
    apply Forall_cons; split; [|constructor].
    apply transform_mesh_well_formed, build_prism_well_formed. }
  assert (Hstorage : well_formed power_storage /\ len (Gen.vertices power_storage) = 412
                     /\ len (Gen.indices power_storage) = 2136).
  { split; [|subst power_storage;
             destruct (merge_meshes_counts
                         [ Gen.build_prism 0.46 1.3 18;
                           Gen.transform_mesh dome (1, 0.44, 1)%float (0, 0.65, 0)%float;
                           Gen.transform_mesh dome (1, 0.44, 1)%float (0, -0.65, 0)%float ])
               as [-> ->];
             cbn [fmap list_fmap sum_int foldr];
             destruct (transform_mesh_shape dome (1, 0.44, 1)%float (0, 0.65, 0)%float)
               as [-> ->];
             destruct (transform_mesh_shape dome (1, 0.44, 1)%float (0, -0.65, 0)%float)
               as [-> ->];
             rewrite build_prism_vertices, build_prism_indices, Hdv, Hdi;
             split; reflexivity].
    apply merge_meshes_well_formed.
    apply Forall_cons; split; [apply build_prism_well_formed|].
    apply Forall_cons; split; [apply transform_mesh_well_formed; exact Hdwf|].
    apply Forall_cons; split; [|constructor].
    apply transform_mesh_well_formed; exact Hdwf. }
  destruct Hagent as (Wa & Na & Ia). destruct Hasset as (Ws & Ns & Is).
  destruct Hplant as (Wp & Np & Ip). destruct Hstorage as (Wt & Nt & It).
  clearbody agent asset power_plant power_storage.
  destruct (write_gltf_well_formed (mesh_dir / "agent_industrial.gltf")%path
              "AgentIndustrialMesh" agent fs Wa) as [-> | [fs1 H1]];
    [apply not_nil_of_len; lia | lia | rewrite name_div; discriminate
     | left; reflexivity |].
  rewrite H1, bind_ok.
  destruct (write_gltf_well_formed (mesh_dir / "location_industrial.gltf")%path
              "LocationIndustrialMesh" location fs1 Hlwf) as [-> | [fs2 H2]];
    [apply not_nil_of_len; lia | lia | rewrite name_div; discriminate
     | left; reflexivity |].
  rewrite H2, bind_ok.
  destruct (write_gltf_well_formed (mesh_dir / "asset_industrial.gltf")%path
              "AssetIndustrialMesh" asset fs2 Ws) as [-> | [fs3 H3]];
    [apply not_nil_of_len; lia | lia | rewrite name_div; discriminate
     | left; reflexivity |].
  rewrite H3, bind_ok.
  destruct (write_gltf_well_formed (mesh_dir / "power_plant_industrial.gltf")%path
              "PowerPlantIndustrialMesh" power_plant fs3 Wp) as [-> | [fs4 H4]];
    [apply not_nil_of_len; lia | lia | rewrite name_div; discriminate
     | left; reflexivity |].
  rewrite H4, bind_ok.
  destruct (write_gltf_well_formed (mesh_dir / "power_storage_industrial.gltf")%path
              "PowerStorageIndustrialMesh" power_storage fs4 Wt) as [-> | [fs5 H5]];
    [apply not_nil_of_len; lia | lia | rewrite name_div; discriminate
     | left; reflexivity |].
  right. exists fs5. split; [exact H5|].
  destruct (write_gltf_exported _ _ _ _ _ _ H1) as [E1 F1].
  destruct (write_gltf_exported _ _ _ _ _ _ H2) as [E2 F2].
  destruct (write_gltf_exported _ _ _ _ _ _ H3) as [E3 F3].
  destruct (write_gltf_exported _ _ _ _ _ _ H4) as [E4 F4].
  destruct (write_gltf_exported _ _ _ _ _ _ H5) as [E5 F5].
  rewrite Na in E1. rewrite Hlv in E2. rewrite Ns in E3. rewrite Np in E4. rewrite Nt in E5.
  assert (X1 : exported fs5 (mesh_dir / "agent_industrial.gltf")%path 20).
  { do 4 (eapply write_gltf_keeps; [eassumption | paths_differ ..|]). exact E1. }
  assert (X2 : exported fs5 (mesh_dir / "location_industrial.gltf")%path 425).
  { do 3 (eapply write_gltf_keeps; [eassumption | paths_differ ..|]). exact E2. }
  assert (X3 : exported fs5 (mesh_dir / "asset_industrial.gltf")%path 16).
  { do 2 (eapply write_gltf_keeps; [eassumption | paths_differ ..|]). exact E3. }
  assert (X4 : exported fs5 (mesh_dir / "power_plant_industrial.gltf")%path 36).
  { eapply write_gltf_keeps; [eassumption | paths_differ ..|]. exact E4. }
  split.
  - unfold generated_vertex_counts.
    apply Forall_cons; split; [exact X1|]. apply Forall_cons; split; [exact X2|].
    apply Forall_cons; split; [exact X3|]. apply Forall_cons; split; [exact X4|].
    apply Forall_cons; split; [exact E5 | constructor].
  - intros q Hq. unfold generated_vertex_counts in Hq.
    repeat match goal with
           | H : Forall _ (_ :: _) |- _ =>
               let A := fresh "A" in let B := fresh "B" in
               apply Forall_cons in H as [[A B] H]; cbn [fst snd] in A, B
           end.
    rewrite F5, F4, F3, F2, F1; [reflexivity|..]; rewrite ?bin_path_div; assumption.
Qed.



(** ** Exceptions of the validator *)




Section Escapes.
Context {L : Libs}.




End Escapes.

Section EscapesPack.
Context {L : Libs}.


End EscapesPack.



(** ** The buffer file of an exported mesh *)

Lemma check_buffers_document_missing {L : Libs} (fs : gmap Fs.path node)
    (path : Fs.path) (mesh_name : string) (n : Z) (views : list Gen.BufferView)
    (accessors : list json) :
  fs !! bin_path_of path = None ->
  Val.check_buffers fs path
    (Gen.gltf_document mesh_name (bin_name_of path) n views accessors)
  = Ok [ Val.MissingBuffer path (bin_name_of path) ].
Proof.
  intros Hbin. unfold Val.check_buffers, Gen.gltf_document.
  set (buffers := JArr [ JObj [ ("uri", JStr (bin_name_of path)); ("byteLength", JInt n) ] ]).
  change (Val.dict_get _ "buffers") with (Some buffers).
  change (default (JArr []) (Some buffers)) with buffers.
  rewrite bind_ok. unfold buffers. cbn [Val.iterate]. rewrite bind_ok.
  cbn [for_each].
  change (Val.dict_get _ "uri") with (Some (JStr (bin_name_of path))).
  change (default JNull (Some (JStr (bin_name_of path)))) with (JStr (bin_name_of path)).
  rewrite bind_ok. cbn [Val.truthy].
  rewrite bool_decide_eq_false_2 by apply bin_name_not_empty. cbn [negb].
  unfold exists_. fold (bin_path_of path).
  rewrite bool_decide_eq_false_2; [reflexivity|].
  rewrite Hbin. intros [x Hx]. discriminate.
Qed.

(** X12: the validator's verdict on an exported document depends on the
    document and on whether its buffer file exists, nothing else: in every
    file system that holds the document [write_gltf] wrote at [path],
    [validate_mesh] reads the vertex count, with no error when the path
    [stem + ".bin"] next to it exists, whatever it holds, and with the one
    error of the missing buffer file when it does not. *)
Theorem validate_mesh_buffer_file {L : Libs} (path : Fs.path) (mesh_name : string)
    (vertices : list Gen.Vec3) (indices : list Z) (fs fs' fs'' : gmap Fs.path node) :
  Gen.write_gltf path mesh_name vertices indices fs = Ok fs' ->
  fs'' !! path = fs' !! path ->
  Val.validate_mesh fs'' path
  = Ok (len vertices,
        if exists_ fs'' (bin_path_of path) then []
        else [ Val.MissingBuffer path (bin_name_of path) ]).
Proof.
  intros Hw Hsame.
  destruct (write_gltf_inv _ _ _ _ _ _ Hw)
    as (pos & nrm & uv & idx & fields & rest & _ & _ & _ & _ & _ & _ & _ & ->).
  unfold write_json in Hsame. rewrite lookup_insert_eq in Hsame.
  unfold Val.validate_mesh, Val.load_json. rewrite Hsame, position_count_document.
  unfold exists_. destruct (fs'' !! bin_path_of path) as [node|] eqn:Hbin.
  - rewrite check_buffers_document by (rewrite Hbin; eauto).
    rewrite bool_decide_eq_true_2 by eauto. reflexivity.
  - rewrite check_buffers_document_missing by exact Hbin.
    rewrite bool_decide_eq_false_2 by (intros [x Hx]; discriminate). reflexivity.
Qed.

Lemma validate_mesh_buffer_file_witness :
  exists fs',
    @Gen.write_gltf Ref.libs (Path "" ["meshes"; "tri.gltf"]) "Tri"
      triangle_vertices triangle_indices ∅ = Ok fs'
    /\ @Val.validate_mesh Ref.libs (delete (Path "" ["meshes"; "tri.bin"]) fs')
         (Path "" ["meshes"; "tri.gltf"])
       = Ok (3, [ Val.MissingBuffer (Path "" ["meshes"; "tri.gltf"]) "tri.bin" ])
    /\ @Val.validate_mesh Ref.libs
         (<[Path "" ["meshes"; "tri.bin"] := Directory]> fs')
         (Path "" ["meshes"; "tri.gltf"])
       = Ok (3, []).
Proof.
  assert (Hok : is_ok (@Gen.write_gltf Ref.libs (Path "" ["meshes"; "tri.gltf"]) "Tri"
                         triangle_vertices triangle_indices ∅) = true)
    by (vm_compute; reflexivity).
  destruct (@Gen.write_gltf Ref.libs (Path "" ["meshes"; "tri.gltf"]) "Tri"
              triangle_vertices triangle_indices ∅) as [fs'|e] eqn:Hw;
    [|discriminate Hok].
  exists fs'. split; [reflexivity|]. split.
  - rewrite (@validate_mesh_buffer_file Ref.libs _ _ _ _ _ _ _ Hw)
      by (apply lookup_delete_ne; vm_compute; discriminate).
    change (bin_path_of (Path "" ["meshes"; "tri.gltf"])) with (Path "" ["meshes"; "tri.bin"]).
    unfold exists_. rewrite lookup_delete_eq.
    rewrite bool_decide_eq_false_2 by (intros [x Hx]; discriminate). reflexivity.
  - rewrite (@validate_mesh_buffer_file Ref.libs _ _ _ _ _ _ _ Hw)
      by (apply lookup_insert_ne; vm_compute; discriminate).
    change (bin_path_of (Path "" ["meshes"; "tri.gltf"])) with (Path "" ["meshes"; "tri.bin"]).
    unfold exists_. rewrite lookup_insert_eq.
    rewrite bool_decide_eq_true_2 by eauto. reflexivity.
Defined.
(** ** Textures under the validator *)

Lemma pack_u32_be_inv (v : Z) (bs : list byte) :
  pack_u32_be v = Ok bs -> 0 <= v <= 0xFFFFFFFF.
Proof.
  unfold pack_u32_be.
  destruct (Z.leb_spec 0 v); [|discriminate].
  destruct (Z.leb_spec v 0xFFFFFFFF); [lia | discriminate].
Qed.

Section Written.
Context {L : Libs}.

(** What a successful [write_png] says about its arguments. *)
Lemma png_bytes_inv (width height : Z) (pixel_fn : Z -> Z -> byte * byte * byte)
    (png : list byte) :
  Gen.png_bytes width height pixel_fn = Ok png ->
  0 <= width <= 0xFFFFFFFF /\ 0 <= height <= 0xFFFFFFFF
  /\ len (zlib_compress (concat (Gen.png_row width pixel_fn <$> range height)))
     <= 0xFFFFFFFF.
Proof.
  unfold Gen.png_bytes, Gen.pack_ihdr. cbv zeta.
  destruct (pack_u32_be width) as [w|] eqn:Hw; [|discriminate]. rewrite bind_ok.
  destruct (pack_u32_be height) as [h|] eqn:Hh; [|discriminate]. rewrite !bind_ok.
  destruct (Gen.chunk Gen.IHDR _) as [c1|]; [|discriminate]. rewrite bind_ok.
  destruct (Gen.chunk Gen.IDAT _) as [c2|] eqn:Hc2; [|discriminate].
  intros _. split; [exact (pack_u32_be_inv _ _ Hw)|].
  split; [exact (pack_u32_be_inv _ _ Hh)|].
  unfold Gen.chunk in Hc2.
  destruct (pack_u32_be (len _)) as [n|] eqn:Hn; [|discriminate].
  apply pack_u32_be_inv in Hn. lia.
Qed.

Lemma write_png_reads_back (path : Fs.path) (width height : Z)
    (pixel_fn : Z -> Z -> byte * byte * byte) (fs fs' : gmap Fs.path node) :
  Gen.write_png path width height pixel_fn fs = Ok fs' ->
  Val.read_png_size fs' path = Ok (width, height)
  /\ (exists data, fs' = <[path := BinaryFile data]> fs).
Proof.
  unfold Gen.write_png.
  destruct (Gen.png_bytes width height pixel_fn) as [png|] eqn:Hpng; [|discriminate].
  rewrite bind_ok. intros [= <-].
  destruct (png_bytes_inv _ _ _ _ Hpng) as (Hw & Hh & Hz).
  destruct (png_bytes_ok width height pixel_fn Hw Hh Hz)
    as (n & w & h & tail & Hpng' & Hn & Hlw & Hlh & Ht & Huw & Huh).
  rewrite Hpng' in Hpng. injection Hpng as <-.
  unfold write_bytes. split; [|eauto].
  rewrite (read_png_size_binary _ _ _ (lookup_insert_eq _ _ _)).
  apply png_size_prefix; assumption.
Qed.

End Written.

(** X13: on a texture that [write_png] wrote with the given width and
    height, the validator's texture check appends the entry for a texture
    below the minimum exactly when the width or the height is below it, and
    the entry for a texture that is not square exactly when they differ; a
    square texture of at least the minimum adds nothing. *)
Theorem validate_texture_written {L : Libs} (texture_dir : path)
    (entity channel : string) (width height : Z)
    (pixel_fn : Z -> Z -> byte * byte * byte) (fs fs' : gmap path node)
    (min_texture_size : Z) (errors : list Val.error) :
  let p := (texture_dir / (entity +:+ "_" +:+ channel +:+ ".png"))%path in
  Gen.write_png p width height pixel_fn fs = Ok fs' ->
  Val.validate_texture fs' texture_dir min_texture_size entity channel errors
  = errors
    ++ (if (width <? min_texture_size) || (height <? min_texture_size)
        then [ Val.TextureTooSmall p width height min_texture_size ] else [])
    ++ (if negb (width =? height)
        then [ Val.TextureNotSquare p width height ] else []).
Proof.
  intros p Hw. destruct (write_png_reads_back _ _ _ _ _ _ Hw) as [Hread [data ->]].
  unfold Val.validate_texture. cbv zeta. fold p.
  assert (Hex : exists_ (<[p := BinaryFile data]> fs) p = true).
  { unfold exists_. apply bool_decide_eq_true_2. rewrite lookup_insert_eq. eauto. }
  rewrite Hex. cbn [negb]. fold p in Hread. rewrite Hread.
  destruct ((width <? min_texture_size) || (height <? min_texture_size));
    destruct (negb (width =? height)); cbn [app];
    rewrite <- ?app_assoc, ?app_nil_r; reflexivity.
Qed.

Lemma validate_texture_written_witness :
  exists fs',
    @Gen.write_png Ref.libs (Path "" ["textures"; "agent_base.png"]) 2 1
      (fun x y => (byte_of_Z x, byte_of_Z y, xff)) ∅ = Ok fs'
    /\ Val.validate_texture fs' (Path "" ["textures"]) 2 "agent" "base" []
       = [ Val.TextureTooSmall (Path "" ["textures"; "agent_base.png"]) 2 1 2;
           Val.TextureNotSquare (Path "" ["textures"; "agent_base.png"]) 2 1 ].
Proof.
  assert (Hok : is_ok (@Gen.write_png Ref.libs (Path "" ["textures"; "agent_base.png"]) 2 1
                         (fun x y => (byte_of_Z x, byte_of_Z y, xff)) ∅) = true)
    by (vm_compute; reflexivity).
  destruct (@Gen.write_png Ref.libs (Path "" ["textures"; "agent_base.png"]) 2 1
              (fun x y => (byte_of_Z x, byte_of_Z y, xff)) ∅) as [fs'|e] eqn:Hw;
    [|discriminate Hok].
  exists fs'. split; [reflexivity|].
  exact (@validate_texture_written Ref.libs (Path "" ["textures"]) "agent" "base" 2 1
           _ ∅ fs' 2 [] Hw).
Defined.

(** ** The header parser *)

Lemma slice_take {A} (xs : list A) (a b k : nat) :
  (a <= b)%nat -> (b <= k)%nat -> Val.slice (take k xs) a b = Val.slice xs a b.
Proof.
  intros Hab Hbk. unfold Val.slice.
  rewrite skipn_firstn_comm, take_take. f_equal. lia.
Qed.

Lemma png_size_of_header (data : list byte) :
  33 <= len data ->
  Val.png_size data
  = (if negb (bool_decide (Val.slice (take 24 data) 0 8 = Gen.png_signature))
     then Raise (ValueError "invalid png signature")
     else if negb (bool_decide (Val.slice (take 24 data) 12 16 = Gen.IHDR))
     then Raise (ValueError "missing IHDR chunk")
     else unpack_u32_be_pair (Val.slice (take 24 data) 16 24)).
Proof.
  intros Hlen. unfold Val.png_size.
  destruct (Z.ltb_spec (len data) 33); [lia|].
  rewrite !slice_take by lia. reflexivity.
Qed.

Lemma unpack_u32_be_range (bs : list byte) (v : Z) :
  unpack_u32_be bs = Ok v -> 0 <= v <= 0xFFFFFFFF.
Proof.
  destruct bs as [|b3 [|b2 [|b1 [|b0 [|]]]]]; try discriminate.
  cbn [unpack_u32_be]. intros [= <-].
  assert (Hb : forall b, 0 <= Z_of_byte b < 256).
  { intros b. unfold Z_of_byte. pose proof (Byte.to_N_bounded b). lia. }
  pose proof (Hb b3). pose proof (Hb b2). pose proof (Hb b1). pose proof (Hb b0).
  rewrite !Z.shiftl_mul_pow2 by lia. lia.
Qed.

(** X14: [read_png_size] looks at nothing but the length of the file and
    its first 24 bytes: two contents of at least 33 bytes with the same
    first 24 bytes get the same answer, so neither the checksum of the
    header chunk nor the image data nor the end chunk is checked; and a
    width and a height it returns lie between 0 and [2^32 - 1]. *)
Theorem read_png_size_header_only (fs fs' : gmap path node) (p p' : path)
    (data data' : list byte) :
  fs !! p = Some (BinaryFile data) -> fs' !! p' = Some (BinaryFile data') ->
  33 <= len data -> 33 <= len data' -> take 24 data = take 24 data' ->
  Val.read_png_size fs p = Val.read_png_size fs' p'
  /\ forall width height,
       Val.read_png_size fs p = Ok (width, height) ->
       0 <= width <= 0xFFFFFFFF /\ 0 <= height <= 0xFFFFFFFF.
Proof.
  intros Hp Hp' Hlen Hlen' Hsame.
  rewrite (read_png_size_binary _ _ _ Hp), (read_png_size_binary _ _ _ Hp').
  rewrite (png_size_of_header data Hlen), (png_size_of_header data' Hlen'), Hsame.
  split; [reflexivity|].
  intros width height.
  destruct (negb _); [discriminate|]. destruct (negb _); [discriminate|].
  unfold unpack_u32_be_pair. destruct (len _ =? 8); [|discriminate].
  destruct (unpack_u32_be (take 4 _)) as [a|] eqn:Ha; [|discriminate]. rewrite bind_ok.
  destruct (unpack_u32_be (drop 4 _)) as [b|] eqn:Hb; [|discriminate]. rewrite bind_ok.
  intros [= <- <-].
  split; [exact (unpack_u32_be_range _ _ Ha) | exact (unpack_u32_be_range _ _ Hb)].
Qed.

Lemma read_png_size_header_only_witness :
  let fs := <[Path "" ["a.png"] := BinaryFile (png_header_256 ++ replicate 9 xff)]> ∅ in
  let fs' := <[Path "" ["b.png"] := BinaryFile (png_header_256 ++ replicate 40 x00)]> ∅ in
  Val.read_png_size fs (Path "" ["a.png"]) = Ok (256, 256)
  /\ Val.read_png_size fs' (Path "" ["b.png"]) = Ok (256, 256).
Proof.
  intros fs fs'.
  destruct (read_png_size_header_only fs fs' (Path "" ["a.png"]) (Path "" ["b.png"])
              (png_header_256 ++ replicate 9 xff) (png_header_256 ++ replicate 40 x00))
    as [Heq _]; try reflexivity; try (vm_compute; discriminate).
  split; [reflexivity|]. rewrite <- Heq. reflexivity.
Defined.

(** ** A passing run *)

Lemma foldl_app_delta {A E} (f : list E -> A -> list E) (g : A -> list E) (xs : list A) :
  (forall s x, f s x = s ++ g x) ->
  forall s, foldl f s xs = s ++ concat (g <$> xs).
Proof.
  intros Hf. induction xs as [|x xs IH]; intros s; cbn [foldl fmap list_fmap concat].
  - rewrite app_nil_r. reflexivity.
  - rewrite IH, Hf, <- app_assoc. reflexivity.
Qed.

Lemma concat_nil_Forall {A E} (g : A -> list E) (xs : list A) :
  concat (g <$> xs) = [] <-> Forall (fun x => g x = []) xs.
Proof.
  induction xs as [|x xs IH]; cbn [fmap list_fmap concat].
  - split; [constructor | reflexivity].
  - rewrite Forall_cons, <- IH. split.
    + intros H. apply app_eq_nil in H. exact H.
    + intros [-> ->]. reflexivity.
Qed.

(** A loop whose rounds append to the state what does not depend on it. *)
Lemma for_each_delta_nil {A E} (body : A -> list E -> result (list E))
    (d : A -> result (list E)) (xs : list A) :
  (forall x s, body x s = (app s <$> d x)) ->
  forall s, for_each xs body s = Ok [] <-> s = [] /\ Forall (fun x => d x = Ok []) xs.
Proof.
  intros Hbody. induction xs as [|x xs IH]; intros s; cbn [for_each].
  - split; [intros [= ->]; split; [reflexivity | constructor] | intros [-> _]; reflexivity].
  - rewrite Hbody, Forall_cons. destruct (d x) as [dl|e]; cbn [fmap result_fmap].
    + rewrite bind_ok, IH. split.
      * intros [Hnil Hall]. apply app_eq_nil in Hnil as [-> ->]. auto.
      * intros (-> & Hd & Hall). injection Hd as ->. auto.
    + rewrite bind_raise. split; [discriminate | intros (_ & Hd & _); discriminate].
Qed.

Lemma read_png_size_exists (fs : gmap path node) (p : path) (r : Z * Z) :
  Val.read_png_size fs p = Ok r -> exists_ fs p = true.
Proof.
  unfold Val.read_png_size, exists_. destruct (fs !! p) as [node|]; [|discriminate].
  intros _. apply bool_decide_eq_true_2. eauto.
Qed.

Lemma validate_texture_delta (fs : gmap path node) (texture_dir : path) (m : Z)
    (entity channel : string) (errors : list Val.error) :
  Val.validate_texture fs texture_dir m entity channel errors
  = errors ++ Val.validate_texture fs texture_dir m entity channel [].
Proof.
  unfold Val.validate_texture. cbv zeta.
  destruct (negb (exists_ _ _)); [reflexivity|].
  destruct (Val.read_png_size fs _) as [[w h]|]; [|reflexivity].
  destruct (_ || _); destruct (negb (w =? h)); cbn [app];
    rewrite <- ?app_assoc, ?app_nil_r; reflexivity.
Qed.

Lemma validate_texture_nil (fs : gmap path node) (texture_dir : path) (m : Z)
    (entity channel : string) :
  Val.validate_texture fs texture_dir m entity channel [] = []
  <-> texture_passes fs texture_dir m entity channel.
Proof.
  unfold Val.validate_texture, texture_passes. cbv zeta.
  set (p := (texture_dir / _)%path). split.
  - destruct (negb (exists_ fs p)); [discriminate|].
    destruct (Val.read_png_size fs p) as [[w h]|]; [|discriminate].
    destruct ((w <? m) || (h <? m)) eqn:Hsmall;
      [destruct (negb (w =? h)); discriminate|].
    apply orb_false_elim in Hsmall as [Hw Hh]. apply Z.ltb_ge in Hw, Hh.
    destruct (Z.eqb_spec w h); cbn [negb]; [|discriminate]. subst h. eauto.
  - intros (size & Hread & Hmin).
    rewrite (read_png_size_exists _ _ _ Hread), Hread. cbn [negb].
    destruct (Z.ltb_spec size m); [lia|]. cbn [orb].
    rewrite Z.eqb_refl. reflexivity.
Qed.

Section Passing.
Context {L : Libs}.

Lemma validate_mesh_exists (fs : gmap path node) (p : path) (n : Z) :
  Val.validate_mesh fs p = Ok (n, []) -> exists_ fs p = true.
Proof.
  unfold Val.validate_mesh, Val.load_json, exists_.
  destruct (fs !! p) as [node|]; [|discriminate].
  intros _. apply bool_decide_eq_true_2. eauto.
Qed.

Lemma validate_entity_mesh_delta (fs : gmap path node) (mesh_dir : path)
    (profile : Val.ThemeValidationProfile) (entity : string) (errors : list Val.error) :
  Val.validate_entity_mesh fs mesh_dir profile entity errors
  = (app errors <$> Val.validate_entity_mesh fs mesh_dir profile entity []).
Proof.
  unfold Val.validate_entity_mesh. cbv zeta.
  destruct (negb (exists_ _ _)); [reflexivity|].
  destruct (Val.validate_mesh fs _) as [[n mesh_errors]|]; [|reflexivity].
  rewrite !bind_ok. cbv beta iota.
  destruct (Val.min_vertices profile !! entity); [|reflexivity]. rewrite !bind_ok.
  destruct (n <? _); cbn [fmap result_fmap app]; rewrite <- ?app_assoc; reflexivity.
Qed.

Lemma validate_entity_mesh_nil (fs : gmap path node) (mesh_dir : path)
    (profile : Val.ThemeValidationProfile) (entity : string) :
  Val.validate_entity_mesh fs mesh_dir profile entity [] = Ok []
  <-> mesh_passes fs mesh_dir profile entity.
Proof.
  unfold Val.validate_entity_mesh, mesh_passes. cbv zeta.
  set (p := Val.mesh_path_of mesh_dir profile entity). split.
  - destruct (negb (exists_ fs p)); [discriminate|].
    destruct (Val.validate_mesh fs p) as [[n mesh_errors]|]; [|discriminate].
    rewrite bind_ok. cbv beta iota.
    destruct (Val.min_vertices profile !! entity) as [r|]; [|discriminate].
    rewrite bind_ok. cbn [app].
    destruct (Z.ltb_spec n r); intros [= Hnil].
    + apply app_eq_nil in Hnil as [_ Hnil]. discriminate.
    + subst mesh_errors. eauto.
  - intros (n & r & Hvm & Hreq & Hle).
    rewrite (validate_mesh_exists _ _ _ Hvm), Hvm. cbn [negb]. rewrite bind_ok.
    cbv beta iota. rewrite Hreq, bind_ok.
    destruct (Z.ltb_spec n r); [lia | reflexivity].
Qed.

Lemma validate_entity_delta (fs : gmap path node) (mesh_dir texture_dir : path)
    (profile : Val.ThemeValidationProfile) (m : Z) (entity : string)
    (errors : list Val.error) :
  Val.validate_entity fs mesh_dir texture_dir profile m entity errors
  = (app errors <$> Val.validate_entity fs mesh_dir texture_dir profile m entity []).
Proof.
  unfold Val.validate_entity.
  rewrite (validate_entity_mesh_delta _ _ _ _ errors).
  destruct (Val.validate_entity_mesh fs mesh_dir profile entity []) as [errs|];
    [|reflexivity].
  cbn [fmap result_fmap]. rewrite !bind_ok. cbn [fmap result_fmap]. f_equal.
  rewrite !(foldl_app_delta _ (fun channel =>
              Val.validate_texture fs texture_dir m entity channel []))
    by (intros s x; apply validate_texture_delta).
  symmetry. apply app_assoc.
Qed.

Lemma validate_entity_nil (fs : gmap path node) (mesh_dir texture_dir : path)
    (profile : Val.ThemeValidationProfile) (m : Z) (entity : string) :
  Val.validate_entity fs mesh_dir texture_dir profile m entity [] = Ok []
  <-> mesh_passes fs mesh_dir profile entity
      /\ Forall (texture_passes fs texture_dir m entity) Val.TEXTURE_CHANNELS.
Proof.
  unfold Val.validate_entity.
  rewrite <- validate_entity_mesh_nil.
  destruct (Val.validate_entity_mesh fs mesh_dir profile entity []) as [errs|].
  - rewrite bind_ok.
    rewrite (foldl_app_delta _ (fun channel =>
               Val.validate_texture fs texture_dir m entity channel []))
      by (intros s x; apply validate_texture_delta).
    split.
    + intros Hnil%ok_inj. apply app_eq_nil in Hnil as [-> Hnil]. split; [reflexivity|].
      apply concat_nil_Forall in Hnil. eapply Forall_impl; [exact Hnil|].
      intros channel Hc. apply validate_texture_nil. exact Hc.
    + intros [[= ->] Hall]. f_equal. cbn [app]. apply concat_nil_Forall.
      eapply Forall_impl; [exact Hall|].
      intros channel Hc. apply validate_texture_nil. exact Hc.
  - rewrite bind_raise. split; [discriminate | intros [H _]; discriminate].
Qed.

End Passing.

(** X15: [validate_theme_pack] returns the empty list exactly on the packs
    in which the three directories exist, every preset file of the profile
    exists, and for each of the five entities the mesh file is read without
    error with at least the minimum number of vertices and each of the four
    textures has the header of a square PNG of at least the minimum
    size. *)
Theorem validate_theme_pack_passes {L : Libs} (fs : gmap path node) (theme_dir : path)
    (profile : Val.ThemeValidationProfile) (min_texture_size : Z) :
  Val.validate_theme_pack fs theme_dir profile min_texture_size = Ok []
  <-> pack_passes fs theme_dir profile min_texture_size.
Proof.
  unfold Val.validate_theme_pack, pack_passes. cbv zeta.
  rewrite (for_each_delta_nil _
             (fun entity =>
                Val.validate_entity fs (theme_dir / "meshes")%path
                  (theme_dir / "textures")%path profile min_texture_size entity []))
    by (intros x s; apply validate_entity_delta).
  rewrite (foldl_app_delta _ (fun preset =>
             if negb (exists_ fs (theme_dir / "presets" / preset)%path)
             then [ Val.MissingPreset (theme_dir / "presets" / preset)%path ] else []))
    by (intros s x; cbv zeta; destruct (negb _); [reflexivity | rewrite app_nil_r; reflexivity]).
  rewrite (foldl_app_delta _ (fun directory =>
             if negb (exists_ fs directory)
             then [ Val.MissingDirectory directory ] else []))
    by (intros s x; destruct (negb _); [reflexivity | rewrite app_nil_r; reflexivity]).
  cbn [app].
  split.
  - intros [Hnil Hentities]. apply app_eq_nil in Hnil as [Hdirs Hpresets].
    apply concat_nil_Forall in Hdirs. apply concat_nil_Forall in Hpresets.
    split; [|split].
    + eapply Forall_impl; [exact Hdirs|]. intros d Hd. cbn beta in Hd.
      destruct (exists_ fs d); [reflexivity | discriminate].
    + eapply Forall_impl; [exact Hpresets|]. intros q Hq. cbn beta in Hq.
      destruct (exists_ fs _); [reflexivity | discriminate].
    + eapply Forall_impl; [exact Hentities|]. intros entity He.
      apply validate_entity_nil. exact He.
  - intros (Hdirs & Hpresets & Hentities). split.
    + match goal with |- ?a ++ ?b = [] =>
        assert (Ha : a = []); [|assert (Hb : b = []); [|rewrite Ha, Hb; reflexivity]]
      end; apply concat_nil_Forall.
      * eapply Forall_impl; [exact Hdirs|]. intros d Hd. cbn beta in *. rewrite Hd.
        reflexivity.
      * eapply Forall_impl; [exact Hpresets|]. intros q Hq. cbn beta in *. rewrite Hq.
        reflexivity.
    + eapply Forall_impl; [exact Hentities|]. intros entity He.
      apply validate_entity_nil. exact He.
Qed.

(** ** Hash noise and the low 32 bits *)

Lemma land_mask32_mul (x c : Z) :
  Z.land (x * c) 0xFFFFFFFF = Z.land ((x `mod` 2 ^ 32) * c) 0xFFFFFFFF.
Proof.
  change 0xFFFFFFFF with (Z.ones 32). rewrite !Z.land_ones by lia.
  rewrite Z.mul_mod_idemp_l by lia. reflexivity.
Qed.

Lemma hash_mix_low_bits (x y seed : Z) :
  Gen.hash_mix x y seed
  = Gen.hash_mix (x `mod` 2 ^ 32) (y `mod` 2 ^ 32) (seed `mod` 2 ^ 32).
Proof.
  unfold Gen.hash_mix. cbv zeta.
  assert (H : forall a b c,
             Z.land (Z.lxor (Z.lxor a b) c) 0xFFFFFFFF
             = Z.lxor (Z.lxor (Z.land a 0xFFFFFFFF) (Z.land b 0xFFFFFFFF))
                 (Z.land c 0xFFFFFFFF)).
  { intros a b c. apply Z.bits_inj'. intros n _.
    rewrite !Z.lxor_spec, !Z.land_spec, !Z.lxor_spec.
    destruct (Z.testbit a n), (Z.testbit b n), (Z.testbit c n),
      (Z.testbit 0xFFFFFFFF n); reflexivity. }
  rewrite (H (x * _)), (H (x `mod` _ * _)).
  rewrite <- !land_mask32_mul. reflexivity.
Qed.

(** X16: [hash_noise] depends only on the low 32 bits of each argument:
    it takes the same value at [(x, y, seed)] and at the residues of the
    three arguments modulo [2^32], so it has period [2^32] in each of them
    and treats a negative argument as its two's complement. *)
Theorem hash_noise_low_bits (x y seed i j k : Z) :
  Gen.hash_noise x y seed
  = Gen.hash_noise (x `mod` 2 ^ 32) (y `mod` 2 ^ 32) (seed `mod` 2 ^ 32)
  /\ Gen.hash_noise (x + i * 2 ^ 32) (y + j * 2 ^ 32) (seed + k * 2 ^ 32)
     = Gen.hash_noise x y seed.
Proof.
  unfold Gen.hash_noise. split.
  - rewrite hash_mix_low_bits. reflexivity.
  - rewrite (hash_mix_low_bits (x + _)), (hash_mix_low_bits x).
    rewrite !Z.mod_add by lia. reflexivity.
Qed.

(** ** Clamping *)

Lemma SFcompare_antisym (x y : spec_float) :
  SFcompare y x = option_map CompOpp (SFcompare x y).
Proof.
  destruct x as [sx|sx| |sx mx ex], y as [sy|sy| |sy my ey]; cbn [SFcompare option_map];
    try reflexivity; try (destruct sx; reflexivity); try (destruct sy; reflexivity);
    try (destruct sx, sy; reflexivity).
  pose proof (Pos.compare_cont_antisym mx my Eq) as Hp. cbn [CompOpp] in Hp.
  destruct sx, sy; try reflexivity; f_equal;
    rewrite (Z.compare_antisym ey ex);
    destruct (ey ?= ex) eqn:He; cbn [CompOpp]; try reflexivity;
    rewrite <- Hp; destruct (Pos.compare_cont Eq mx my); reflexivity.
Qed.

Lemma is_nan_false (x : float) : is_nan x = false -> Prim2SF x <> S754_nan.
Proof.
  unfold is_nan. rewrite FloatAxioms.eqb_spec. intros Hx Hnan. rewrite Hnan in Hx.
  discriminate.
Qed.

Lemma is_nan_true (x : float) : is_nan x = true -> Prim2SF x = S754_nan.
Proof.
  unfold is_nan. rewrite FloatAxioms.eqb_spec. unfold SFeqb.
  destruct (Prim2SF x) as [s|s| |s m e]; cbn [SFcompare]; try reflexivity.
  - discriminate.
  - destruct s; discriminate.
  - rewrite Z.compare_refl, Pos.compare_cont_refl. destruct s; discriminate.
Qed.

(** On two floats that are no NaN, [not (x < y)] is [y <= x]. *)
Lemma ltb_false_leb (x y : float) :
  is_nan x = false -> is_nan y = false -> (x <? y)%float = false -> (y <=? x)%float = true.
Proof.
  intros Hx%is_nan_false Hy%is_nan_false.
  rewrite FloatAxioms.ltb_spec, FloatAxioms.leb_spec. unfold SFltb, SFleb.
  rewrite (SFcompare_antisym (Prim2SF x) (Prim2SF y)).
  destruct (SFcompare (Prim2SF x) (Prim2SF y)) as [[| |]|] eqn:Hc; cbn; try congruence.
  exfalso. destruct (Prim2SF x), (Prim2SF y); cbn in Hc; congruence.
Qed.

Lemma leb_true_ltb_false (x y : float) :
  (x <=? y)%float = true -> (y <? x)%float = false.
Proof.
  rewrite FloatAxioms.ltb_spec, FloatAxioms.leb_spec. unfold SFltb, SFleb.
  rewrite (SFcompare_antisym (Prim2SF x) (Prim2SF y)).
  destruct (SFcompare (Prim2SF x) (Prim2SF y)) as [[| |]|]; cbn [option_map CompOpp];
    congruence.
Qed.

(** X17: [clamp01] returns a NaN unchanged and maps every other float into
    the interval from 0 to 1; what already lies there it returns
    unchanged, so clamping twice is clamping once. *)
Theorem clamp01_range (value : float) :
  (is_nan value = true -> Tex.clamp01 value = value)
  /\ (is_nan value = false ->
        (0 <=? Tex.clamp01 value)%float = true
        /\ (Tex.clamp01 value <=? 1)%float = true)
  /\ ((0 <=? value)%float = true -> (value <=? 1)%float = true ->
        Tex.clamp01 value = value)
  /\ Tex.clamp01 (Tex.clamp01 value) = Tex.clamp01 value.
Proof.
  unfold Tex.clamp01. split; [|split; [|split]].
  - intros Hnan%is_nan_true. rewrite !FloatAxioms.ltb_spec, Hnan. reflexivity.
  - intros Hnan.
    destruct (value <? 0)%float eqn:H0; [split; reflexivity|].
    destruct (1 <? value)%float eqn:H1; [split; reflexivity|].
    split.
    + apply ltb_false_leb; [exact Hnan | reflexivity | exact H0].
    + apply ltb_false_leb; [reflexivity | exact Hnan | exact H1].
  - intros H0%leb_true_ltb_false H1%leb_true_ltb_false. rewrite H0, H1. reflexivity.
  - destruct (value <? 0)%float eqn:H0; [reflexivity|].
    destruct (1 <? value)%float eqn:H1; [reflexivity|].
    rewrite H0, H1. reflexivity.
Qed.

(** ** The texture makers *)

Lemma pixels_empty (width height : Z) (pixel : Z -> Z -> result (Z * Z * Z)) :
  height <= 0 -> exists pixel_fn, Tex.pixels width height pixel = Ok pixel_fn.
Proof.
  intros Hh. unfold Tex.pixels. rewrite (range_nonpos height Hh). cbn [for_each].
  rewrite bind_ok. eauto.
Qed.

Section Makers.
Context {L : Libs}.

(** [write_png] on the pixels of a maker. *)
Lemma pixels_write_png (path : Fs.path) (size : Z)
    (pixel : Z -> Z -> result (Z * Z * Z)) (fs : gmap Fs.path node) :
  let run := pixel_fn ← Tex.pixels size size pixel;
             Gen.write_png path size size pixel_fn fs in
  (size < 0 -> run = Raise StructError)
  /\ (forall fs', run = Ok fs' -> texture_written fs fs' path size).
Proof.
  intros run. subst run. split.
  - intros Hs. destruct (pixels_empty size size pixel ltac:(lia)) as [pixel_fn ->].
    rewrite bind_ok. unfold Gen.write_png.
    rewrite (png_bytes_raise _ _ _ StructError); [reflexivity|].
    unfold Gen.pack_ihdr, pack_u32_be.
    destruct (Z.leb_spec 0 size); [lia|]. reflexivity.
  - intros fs'. destruct (Tex.pixels size size pixel) as [pixel_fn|]; [|discriminate].
    rewrite bind_ok. intros Hw.
    destruct (write_png_reads_back _ _ _ _ _ _ Hw) as [Hread Hdata].
    split; [|split; assumption].
    unfold Gen.write_png in Hw.
    destruct (Gen.png_bytes size size pixel_fn) as [png|] eqn:Hpng; [|discriminate].
    destruct (png_bytes_inv _ _ _ _ Hpng) as (Hs & _). exact Hs.
Qed.

End Makers.

(** X18: each of the four texture makers, when it returns, has written at
    [path] a file whose PNG header gives the width and the height [size],
    with [0 <= size <= 2^32 - 1], and has left every other path as it was;
    on a negative [size] it computes no pixel and raises the error of
    [struct]. *)
Theorem texture_makers_write_squares {L : Libs} (path : Fs.path)
    (color_a color_b emissive_color : Z * Z * Z) (metallic roughness : float)
    (seed size : Z) (fs : gmap Fs.path node) :
  Forall (fun run : result (gmap Fs.path node) =>
            (size < 0 -> run = Raise StructError)
            /\ (forall fs', run = Ok fs' -> texture_written fs fs' path size))
    [ Tex.make_base_texture path color_a color_b seed size fs;
      Tex.make_normal_texture path seed size fs;
      Tex.make_mr_texture path metallic roughness seed size fs;
      Tex.make_emissive_texture path emissive_color seed size fs ].
Proof.
  repeat (apply Forall_cons; split); [| | | |constructor];
    apply pixels_write_png.
Qed.

Lemma texture_makers_write_squares_witness :
  let p := Path "" ["textures"; "agent.png"] in
  Forall (fun run : result (gmap Fs.path node) =>
            exists fs', run = Ok fs' /\ texture_written ∅ fs' p 3)
    [ @Tex.make_base_texture Trig.libs p (84, 118, 138) (173, 209, 228) 11 3 ∅;
      @Tex.make_normal_texture Trig.libs p 11 3 ∅;
      @Tex.make_mr_texture Trig.libs p 0.58 0.46 11 3 ∅;
      @Tex.make_emissive_texture Trig.libs p (72, 182, 255) 11 3 ∅ ].
Proof.
  intros p.
  pose proof (@texture_makers_write_squares Trig.libs p (84, 118, 138) (173, 209, 228)
                (72, 182, 255) 0.58 0.46 11 3 ∅) as H.
  assert (Hok : Forall (fun run : result (gmap Fs.path node) => is_ok run = true)
                  [ @Tex.make_base_texture Trig.libs p (84, 118, 138) (173, 209, 228) 11 3 ∅;
                    @Tex.make_normal_texture Trig.libs p 11 3 ∅;
                    @Tex.make_mr_texture Trig.libs p 0.58 0.46 11 3 ∅;
                    @Tex.make_emissive_texture Trig.libs p (72, 182, 255) 11 3 ∅ ])
    by (repeat (apply Forall_cons; split; [vm_compute; reflexivity|]); constructor).
  revert H Hok.
  generalize (@Tex.make_base_texture Trig.libs p (84, 118, 138) (173, 209, 228) 11 3 ∅)
    (@Tex.make_normal_texture Trig.libs p 11 3 ∅)
    (@Tex.make_mr_texture Trig.libs p 0.58 0.46 11 3 ∅)
    (@Tex.make_emissive_texture Trig.libs p (72, 182, 255) 11 3 ∅).
  intros r1 r2 r3 r4 H Hok.
  repeat match goal with
         | Hf : Forall _ (_ :: _) |- _ => apply Forall_cons in Hf as [? Hf]
         end.
  repeat (apply Forall_cons; split); [| | | |constructor];
    match goal with
    | Hr : (_ -> ?run = _) /\ (forall fs', ?run = Ok fs' -> _),
      Ho : is_ok ?run = true |- exists fs', ?run = Ok fs' /\ _ =>
        destruct run as [fs'|e];
        [exists fs'; split; [reflexivity | apply Hr; reflexivity] | discriminate Ho]
    end.
Defined.

(** ** The generated textures *)

Lemma append_inj_r (s a b : string) : s +:+ a = s +:+ b -> a = b.
Proof.
  induction s as [|c s IH]; cbn [String.append]; [trivial|].
  intros [= Heq]. exact (IH Heq).
Qed.

Lemma texture_path_inj (texture_dir : path) (entity c1 c2 : string) :
  texture_path texture_dir entity c1 = texture_path texture_dir entity c2 ->
  "_" +:+ c1 +:+ ".png" = "_" +:+ c2 +:+ ".png".
Proof. unfold texture_path. intros Heq%div_inj. exact (append_inj_r _ _ _ Heq). Qed.

Lemma read_png_size_agree (fs fs' : gmap path node) (p : path) :
  fs' !! p = fs !! p -> Val.read_png_size fs' p = Val.read_png_size fs p.
Proof. unfold Val.read_png_size. intros ->. reflexivity. Qed.

Lemma texture_written_keeps (fs fs' : gmap path node) (p q : path) (size : Z) :
  texture_written fs fs' p size -> q <> p ->
  fs' !! q = fs !! q.
Proof. intros (_ & _ & data & ->) Hq. apply lookup_insert_ne. congruence. Qed.

Section GeneratedTextures.
Context {L : Libs}.

(** The four textures of one entity. *)
Lemma generate_entity_textures_writes (texture_dir : path) (entity : string)
    (config : Tex.Config) (fs fs' : gmap path node) :
  Tex.generate_entity_textures texture_dir (entity, config) fs = Ok fs' ->
  Forall (fun channel =>
            Val.read_png_size fs' (texture_path texture_dir entity channel)
            = Ok (256, 256))
    Val.TEXTURE_CHANNELS
  /\ (forall q,
        Forall (fun channel => q <> texture_path texture_dir entity channel)
          Val.TEXTURE_CHANNELS ->
        fs' !! q = fs !! q).
Proof.
  unfold Tex.generate_entity_textures, Tex.default_size.
  destruct (Tex.make_base_texture _ _ _ _ _ fs) as [fs1|] eqn:H1; [|discriminate].
  rewrite bind_ok.
  destruct (Tex.make_normal_texture _ _ _ fs1) as [fs2|] eqn:H2; [|discriminate].
  rewrite bind_ok.
  destruct (Tex.make_mr_texture _ _ _ _ _ fs2) as [fs3|] eqn:H3; [|discriminate].
  rewrite bind_ok. intros H4.
  apply pixels_write_png in H1, H2, H3, H4.
  change (texture_dir / (entity +:+ "_base.png"))%path
    with (texture_path texture_dir entity "base") in *.
  change (texture_dir / (entity +:+ "_normal.png"))%path
    with (texture_path texture_dir entity "normal") in *.
  change (texture_dir / (entity +:+ "_metallic_roughness.png"))%path
    with (texture_path texture_dir entity "metallic_roughness") in *.
  change (texture_dir / (entity +:+ "_emissive.png"))%path
    with (texture_path texture_dir entity "emissive") in *.
  assert (Hne : forall c1 c2,
             "_" +:+ c1 +:+ ".png" <> "_" +:+ c2 +:+ ".png" ->
             texture_path texture_dir entity c1 <> texture_path texture_dir entity c2).
  { intros c1 c2 Hc Heq. exact (Hc (texture_path_inj _ _ _ _ Heq)). }
  split.
  - unfold Val.TEXTURE_CHANNELS.
    apply Forall_cons; split; [|apply Forall_cons; split;
      [|apply Forall_cons; split; [|apply Forall_cons; split; [|constructor]]]].
    + rewrite (read_png_size_agree fs1 fs'); [apply H1|].
      rewrite (texture_written_keeps _ _ _ _ _ H4), (texture_written_keeps _ _ _ _ _ H3),
        (texture_written_keeps _ _ _ _ _ H2); [reflexivity|..]; apply Hne; discriminate.
    + rewrite (read_png_size_agree fs2 fs'); [apply H2|].
      rewrite (texture_written_keeps _ _ _ _ _ H4), (texture_written_keeps _ _ _ _ _ H3);
        [reflexivity|..]; apply Hne; discriminate.
    + rewrite (read_png_size_agree fs3 fs'); [apply H3|].
      rewrite (texture_written_keeps _ _ _ _ _ H4); [reflexivity|]; apply Hne; discriminate.
    + apply H4.
  - intros q Hq. unfold Val.TEXTURE_CHANNELS in Hq.
    apply Forall_cons in Hq as [Q1 Hq]. apply Forall_cons in Hq as [Q2 Hq].
    apply Forall_cons in Hq as [Q3 Hq]. apply Forall_cons in Hq as [Q4 _].
    rewrite (texture_written_keeps _ _ _ _ _ H4 Q4), (texture_written_keeps _ _ _ _ _ H3 Q3),
      (texture_written_keeps _ _ _ _ _ H2 Q2), (texture_written_keeps _ _ _ _ _ H1 Q1).
    reflexivity.
Qed.

End GeneratedTextures.
Lemma reads_transport (fs fs' : gmap path node) (texture_dir : path)
    (entity entity' : string) :
  (forall q,
     Forall (fun channel => q <> texture_path texture_dir entity' channel)
       Val.TEXTURE_CHANNELS ->
     fs' !! q = fs !! q) ->
  Forall (fun c =>
            Forall (fun c' => texture_path texture_dir entity c
                              <> texture_path texture_dir entity' c')
              Val.TEXTURE_CHANNELS)
    Val.TEXTURE_CHANNELS ->
  Forall (fun c => Val.read_png_size fs (texture_path texture_dir entity c)
                   = Ok (256, 256))
    Val.TEXTURE_CHANNELS ->
  Forall (fun c => Val.read_png_size fs' (texture_path texture_dir entity c)
                   = Ok (256, 256))
    Val.TEXTURE_CHANNELS.
Proof.
  intros Hframe Hne Hread. rewrite Forall_forall in Hne, Hread. rewrite Forall_forall.
  intros c Hc. rewrite (read_png_size_agree fs fs'); [exact (Hread c Hc)|].
  apply Hframe. exact (Hne c Hc).
Qed.

Ltac texture_paths_differ :=
  repeat (apply Forall_cons; split;
          [repeat (apply Forall_cons; split;
                   [unfold texture_path; let Heq := fresh in
                    intros Heq%div_inj; vm_compute in Heq; discriminate Heq|]);
           constructor|]);
  constructor.

(** The twenty textures of [generate_textures]. *)
Lemma generate_textures_writes {L : Libs} (texture_dir : path) (fs fs' : gmap path node) :
  Tex.generate_textures texture_dir fs = Ok fs' ->
  Forall (fun entity =>
            Forall (fun channel =>
                      Val.read_png_size fs' (texture_path texture_dir entity channel)
                      = Ok (256, 256))
              Val.TEXTURE_CHANNELS)
    Val.ENTITIES
  /\ (forall q,
        Forall (fun entity =>
                  Forall (fun channel => q <> texture_path texture_dir entity channel)
                    Val.TEXTURE_CHANNELS)
          Val.ENTITIES ->
        fs' !! q = fs !! q).
Proof.
  unfold Tex.generate_textures, Tex.palette. cbn [for_each].
  destruct (Tex.generate_entity_textures texture_dir ("agent", _) fs) as [fs1|] eqn:H1;
    [|discriminate].
  rewrite bind_ok.
  destruct (Tex.generate_entity_textures texture_dir ("location", _) fs1) as [fs2|] eqn:H2;
    [|discriminate].
  rewrite bind_ok.
  destruct (Tex.generate_entity_textures texture_dir ("asset", _) fs2) as [fs3|] eqn:H3;
    [|discriminate].
  rewrite bind_ok.
  destruct (Tex.generate_entity_textures texture_dir ("power_plant", _) fs3) as [fs4|] eqn:H4;
    [|discriminate].
  rewrite bind_ok.
  destruct (Tex.generate_entity_textures texture_dir ("power_storage", _) fs4) as [fs5|] eqn:H5;
    [|discriminate].
  rewrite bind_ok. intros [= <-].
  apply generate_entity_textures_writes in H1 as [R1 F1].
  apply generate_entity_textures_writes in H2 as [R2 F2].
  apply generate_entity_textures_writes in H3 as [R3 F3].
  apply generate_entity_textures_writes in H4 as [R4 F4].
  apply generate_entity_textures_writes in H5 as [R5 F5].
  split.
  - unfold Val.ENTITIES.
    apply Forall_cons; split; [|apply Forall_cons; split;
      [|apply Forall_cons; split; [|apply Forall_cons; split;
        [|apply Forall_cons; split; [|constructor]]]]].
    + apply (reads_transport fs4 fs5 _ _ _ F5); [texture_paths_differ|].
      apply (reads_transport fs3 fs4 _ _ _ F4); [texture_paths_differ|].
      apply (reads_transport fs2 fs3 _ _ _ F3); [texture_paths_differ|].
      apply (reads_transport fs1 fs2 _ _ _ F2); [texture_paths_differ|]. exact R1.
    + apply (reads_transport fs4 fs5 _ _ _ F5); [texture_paths_differ|].
      apply (reads_transport fs3 fs4 _ _ _ F4); [texture_paths_differ|].
      apply (reads_transport fs2 fs3 _ _ _ F3); [texture_paths_differ|]. exact R2.
    + apply (reads_transport fs4 fs5 _ _ _ F5); [texture_paths_differ|].
      apply (reads_transport fs3 fs4 _ _ _ F4); [texture_paths_differ|]. exact R3.
    + apply (reads_transport fs4 fs5 _ _ _ F5); [texture_paths_differ|]. exact R4.
    + exact R5.
  - intros q Hq. unfold Val.ENTITIES in Hq.
    apply Forall_cons in Hq as [Q1 Hq]. apply Forall_cons in Hq as [Q2 Hq].
    apply Forall_cons in Hq as [Q3 Hq]. apply Forall_cons in Hq as [Q4 Hq].
    apply Forall_cons in Hq as [Q5 _].
    rewrite (F5 q Q5), (F4 q Q4), (F3 q Q3), (F2 q Q2), (F1 q Q1). reflexivity.
Qed.

(** X19: when [generate_textures] returns, each of the twenty paths
    [entity_channel.png] that the validator reads holds a file whose PNG
    header gives 256 by 256, so the texture check of the validator adds
    nothing for a minimum size of at most 256 and exactly the entry for a
    texture below the minimum for a larger one, as under profile v2; and
    every other path is left as it was. *)
Theorem generate_textures_result {L : Libs} (texture_dir : path) (fs : gmap path node) :
  (exists e, Tex.generate_textures texture_dir fs = Raise e)
  \/ exists fs',
       Tex.generate_textures texture_dir fs = Ok fs'
       /\ Forall (fun entity =>
                    Forall (fun channel =>
                              let p := texture_path texture_dir entity channel in
                              Val.read_png_size fs' p = Ok (256, 256)
                              /\ forall min_texture_size errors,
                                   Val.validate_texture fs' texture_dir min_texture_size
                                     entity channel errors
                                   = if min_texture_size <=? 256 then errors
                                     else errors
                                          ++ [ Val.TextureTooSmall p 256 256
                                                 min_texture_size ])
                      Val.TEXTURE_CHANNELS)
            Val.ENTITIES
       /\ (forall q,
             Forall (fun entity =>
                       Forall (fun channel => q <> texture_path texture_dir entity channel)
                         Val.TEXTURE_CHANNELS)
               Val.ENTITIES ->
             fs' !! q = fs !! q).
Proof.
  destruct (Tex.generate_textures texture_dir fs) as [fs'|e] eqn:Hrun; [|left; eauto].
  right. exists fs'. split; [reflexivity|].
  destruct (generate_textures_writes _ _ _ Hrun) as [Hread Hframe].
  split; [|exact Hframe].
  eapply Forall_impl; [exact Hread|]. intros entity Hentity. cbn beta in Hentity.
  eapply Forall_impl; [exact Hentity|]. intros channel Hr. cbn beta zeta in *.
  split; [exact Hr|]. intros m errors.
  unfold Val.validate_texture. cbv zeta. fold (texture_path texture_dir entity channel).
  rewrite (read_png_size_exists _ _ _ Hr), Hr. cbn [negb].
  rewrite Z.eqb_refl. cbn [negb]. rewrite orb_diag.
  destruct (Z.leb_spec m 256); destruct (Z.ltb_spec 256 m); try lia; reflexivity.
Qed.

(** ** The generator, then the validator *)

Lemma div_eq_inv (p q : path) (a b : string) :
  (p / a)%path = (q / b)%path -> p = q /\ a = b.
Proof.
  destruct p as [pa pp], q as [qa qp]. unfold div. cbn [anchor parts].
  intros [= -> Heq]. apply app_inj_tail in Heq as [-> ->]. split; reflexivity.
Qed.

Lemma div_parts_length (p : path) (s : string) :
  length (parts (p / s)%path) = S (length (parts p)).
Proof. unfold div. cbn [parts]. rewrite length_app. cbn [length]. lia. Qed.

Lemma mkdir_parts_keeps (a : string) (post pre : list string) (fs : gmap path node)
    (q : path) :
  is_Some (fs !! q) -> is_Some (mkdir_parts fs a pre post !! q).
Proof.
  revert pre fs. induction post as [|c post IH]; intros pre fs Hq; cbn [mkdir_parts];
    [exact Hq|].
  apply IH. destruct (fs !! Path a (pre ++ [c])) eqn:Hp; [exact Hq|].
  destruct (decide (q = Path a (pre ++ [c]))) as [->|Hne].
  - rewrite lookup_insert_eq. eauto.
  - rewrite lookup_insert_ne by congruence. exact Hq.
Qed.

Lemma mkdir_parts_creates (a : string) (post pre : list string) (fs : gmap path node) :
  post <> [] -> is_Some (mkdir_parts fs a pre post !! Path a (pre ++ post)).
Proof.
  revert pre fs. induction post as [|c post IH]; intros pre fs Hne; [congruence|].
  cbn [mkdir_parts]. destruct post as [|c' post].
  - cbn [mkdir_parts]. destruct (fs !! Path a (pre ++ [c])) eqn:Hp.
    + rewrite Hp. eauto.
    + rewrite lookup_insert_eq. eauto.
  - replace (pre ++ c :: c' :: post) with ((pre ++ [c]) ++ c' :: post)
      by (rewrite <- app_assoc; reflexivity).
    apply IH. discriminate.
Qed.

(** [mkdir] touches no path that is deeper than the directory, and none of
    the same depth but the directory itself. *)
Lemma mkdir_parts_frame (a : string) (post pre : list string) (fs : gmap path node)
    (q : path) :
  (length pre + length post < length (parts q))%nat
  \/ (length (parts q) = length pre + length post)%nat /\ q <> Path a (pre ++ post) ->
  mkdir_parts fs a pre post !! q = fs !! q.
Proof.
  revert pre fs. induction post as [|c post IH]; intros pre fs Hq; cbn [mkdir_parts];
    [reflexivity|].
  rewrite IH.
  - destruct (fs !! Path a (pre ++ [c])) eqn:Hp; [reflexivity|].
    apply lookup_insert_ne. intros <-. cbn [parts length] in Hq.
    rewrite length_app in Hq. cbn [length] in Hq.
    destruct Hq as [Hq|[Hlen Hq]]; [lia|].
    destruct post as [|c' post]; [apply Hq; reflexivity | cbn [length] in Hlen; lia].
  - rewrite length_app. cbn [length] in *. rewrite <- app_assoc. cbn [app].
    destruct Hq as [Hq|[Hlen Hq]]; [left; lia | right; split; [lia | exact Hq]].
Qed.

Lemma mkdir_keeps (fs : gmap path node) (p q : path) :
  is_Some (fs !! q) -> is_Some (mkdir fs p !! q).
Proof. apply mkdir_parts_keeps. Qed.

Lemma mkdir_creates (fs : gmap path node) (d : path) (s : string) :
  is_Some (mkdir fs (d / s)%path !! (d / s)%path).
Proof.
  unfold mkdir. pose proof (mkdir_parts_creates (anchor d) (parts d ++ [s]) [] fs) as H.
  cbn [app] in H. apply H. intros Hnil. apply app_eq_nil in Hnil as [_ [=]].
Qed.

Lemma mkdir_frame (fs : gmap path node) (p q : path) :
  (length (parts p) < length (parts q))%nat
  \/ (length (parts q) = length (parts p)) /\ q <> p ->
  mkdir fs p !! q = fs !! q.
Proof.
  intros Hq. unfold mkdir. apply mkdir_parts_frame. cbn [length app Nat.add].
  destruct p as [a ps]. exact Hq.
Qed.

(** A loop whose rounds add nothing leaves the list as it was. *)
Lemma for_each_delta_ok {A E} (body : A -> list E -> result (list E))
    (d : A -> result (list E)) (xs : list A) :
  (forall x s, body x s = (app s <$> d x)) ->
  Forall (fun x => d x = Ok []) xs ->
  forall s, for_each xs body s = Ok s.
Proof.
  intros Hbody Hall. induction Hall as [|x xs Hx Hall IH]; intros s; cbn [for_each];
    [reflexivity|].
  rewrite Hbody, Hx. cbn [fmap result_fmap]. rewrite bind_ok, app_nil_r. apply IH.
Qed.

Lemma exists_agree (fs fs' : gmap path node) (p : path) :
  fs' !! p = fs !! p -> exists_ fs' p = exists_ fs p.
Proof. unfold exists_. intros ->. reflexivity. Qed.

Lemma Forall_not_child {A} (q d : path) (f : A -> string) (xs : list A) :
  (forall s, q <> (d / s)%path) -> Forall (fun x => q <> (d / f x)%path) xs.
Proof. intros H. apply Forall_forall. intros x _. apply H. Qed.

Section GeneratedPack.
Context {L : Libs}.
Variables (out_dir : path) (fs fs0 fs1 fs2 : gmap path node).
Let mesh_dir := (out_dir / "meshes")%path.
Let texture_dir := (out_dir / "textures")%path.
Hypothesis Hfs0 : fs0 = mkdir (mkdir fs mesh_dir) texture_dir.
Hypothesis Hmeshes :
  Forall (fun en : string * Z =>
            exported fs1 (mesh_dir / (en.1 +:+ "_industrial.gltf"))%path en.2)
    generated_vertex_counts.
Hypothesis Hmeshes_frame :
  forall q,
    Forall (fun en : string * Z =>
              q <> (mesh_dir / (en.1 +:+ "_industrial.gltf"))%path
              /\ q <> (mesh_dir / (en.1 +:+ "_industrial.bin"))%path)
      generated_vertex_counts ->
    fs1 !! q = fs0 !! q.
Hypothesis Htextures :
  Forall (fun entity =>
            Forall (fun channel =>
                      Val.read_png_size fs2 (texture_path texture_dir entity channel)
                      = Ok (256, 256))
              Val.TEXTURE_CHANNELS)
    Val.ENTITIES.
Hypothesis Htextures_frame :
  forall q,
    Forall (fun entity =>
              Forall (fun channel => q <> texture_path texture_dir entity channel)
                Val.TEXTURE_CHANNELS)
      Val.ENTITIES ->
    fs2 !! q = fs1 !! q.

Lemma pack_frame_meshes (q : path) :
  (forall s, q <> (mesh_dir / s)%path) -> fs1 !! q = fs0 !! q.
Proof.
  intros Hq. apply Hmeshes_frame. apply Forall_forall. intros en _.
  split; apply Hq.
Qed.

Lemma pack_frame_textures (q : path) :
  (forall s, q <> (texture_dir / s)%path) -> fs2 !! q = fs1 !! q.
Proof.
  intros Hq. apply Htextures_frame. apply Forall_forall. intros entity _.
  apply Forall_forall. intros channel _. unfold texture_path. apply Hq.
Qed.

(** The directories of the pack are not among the files written. *)
Lemma pack_directory (name : string) (s : string) (d : string) :
  (out_dir / name)%path <> (out_dir / d / s)%path.
Proof.
  intros Heq. apply (f_equal (fun p => length (parts p))) in Heq.
  rewrite !div_parts_length in Heq. lia.
Qed.

Lemma pack_directories_exist :
  exists_ fs2 mesh_dir = true /\ exists_ fs2 texture_dir = true.
Proof.
  unfold exists_.
  rewrite !pack_frame_textures, !pack_frame_meshes by (intros s; apply pack_directory).
  rewrite Hfs0. split; apply bool_decide_eq_true_2.
  - apply mkdir_keeps, mkdir_creates.
  - apply mkdir_creates.
Qed.

Lemma pack_presets_directory :
  fs2 !! (out_dir / "presets")%path = fs !! (out_dir / "presets")%path.
Proof.
  rewrite pack_frame_textures, pack_frame_meshes by (intros s; apply pack_directory).
  rewrite Hfs0, !mkdir_frame; [reflexivity| |];
    (right; split;
     [unfold mesh_dir, texture_dir; rewrite !div_parts_length; reflexivity
     |intros Heq%div_inj; discriminate Heq]).
Qed.

Lemma pack_preset_file (preset : string) :
  fs2 !! (out_dir / "presets" / preset)%path = fs !! (out_dir / "presets" / preset)%path.
Proof.
  rewrite pack_frame_textures, pack_frame_meshes
    by (intros s [Heq%div_inj _]%div_eq_inv; discriminate Heq).
  rewrite Hfs0, !mkdir_frame; [reflexivity| |];
    (left; unfold mesh_dir, texture_dir; rewrite !div_parts_length; lia).
Qed.

Lemma pack_mesh_file (s : string) : fs2 !! (mesh_dir / s)%path = fs1 !! (mesh_dir / s)%path.
Proof.
  apply pack_frame_textures. intros s' [Heq%div_inj _]%div_eq_inv. discriminate Heq.
Qed.

Lemma pack_mesh_passes :
  Forall (fun entity => mesh_passes fs2 mesh_dir Val.profile_v1 entity) Val.ENTITIES.
Proof.
  pose proof Hmeshes as H. unfold generated_vertex_counts in H.
  repeat match goal with
         | Hf : Forall _ (_ :: _) |- _ => apply Forall_cons in Hf as [? Hf]
         end.
  cbn [fst snd] in *.
  repeat (apply Forall_cons; split); [| | | | |constructor];
    match goal with
    | He : exported fs1 (mesh_dir / (?e +:+ _))%path ?n
      |- mesh_passes _ _ _ ?e =>
        eexists n, _; split; [|split; [vm_compute; reflexivity | lia]];
        change (Val.mesh_path_of mesh_dir Val.profile_v1 e)
          with (mesh_dir / (e +:+ "_industrial.gltf"))%path;
        apply exported_validate;
        apply (exported_agree fs1); [| |exact He];
        [apply pack_mesh_file | rewrite bin_path_div; apply pack_mesh_file]
    end.
Qed.

Lemma pack_texture_passes (m : Z) :
  m <= 256 ->
  Forall (fun entity =>
            Forall (texture_passes fs2 texture_dir m entity) Val.TEXTURE_CHANNELS)
    Val.ENTITIES.
Proof.
  intros Hm. eapply Forall_impl; [exact Htextures|]. intros entity He.
  eapply Forall_impl; [exact He|]. intros channel Hc.
  exists 256. split; [exact Hc | exact Hm].
Qed.

Lemma pack_validates (m : Z) :
  m <= 256 ->
  Val.validate_theme_pack fs2 out_dir Val.profile_v1 m
  = Ok (missing_presets fs out_dir Val.profile_v1).
Proof.
  intros Hm. unfold Val.validate_theme_pack. cbv zeta.
  rewrite (for_each_delta_ok _
             (fun entity => Val.validate_entity fs2 mesh_dir texture_dir
                              Val.profile_v1 m entity [])).
  - f_equal. unfold missing_presets. cbn [foldl Val.preset_files Val.profile_v1
                                             fmap list_fmap concat].
    destruct pack_directories_exist as [Hm' Ht']. fold mesh_dir texture_dir.
    rewrite Hm', Ht'. cbn [negb].
    rewrite !(exists_agree fs fs2) by (apply pack_preset_file || apply pack_presets_directory).
    destruct (exists_ fs (out_dir / "presets")%path),
      (exists_ fs (out_dir / "presets" / "industrial_default.env")%path),
      (exists_ fs (out_dir / "presets" / "industrial_matte.env")%path),
      (exists_ fs (out_dir / "presets" / "industrial_glossy.env")%path); reflexivity.
  - intros entity s. apply validate_entity_delta.
  - pose proof pack_mesh_passes as Hmp. pose proof (pack_texture_passes m Hm) as Htp.
    rewrite Forall_forall in Hmp, Htp. apply Forall_forall. intros entity He.
    apply validate_entity_nil. split; [apply Hmp | apply Htp]; exact He.
Qed.

End GeneratedPack.

(** What [main] of the generator leaves behind. *)
Lemma main_writes_pack {L : Libs} (out_dir : path) (fs : gmap path node) :
  (exists e, Tex.main out_dir fs = Raise e)
  \/ exists fs',
       Tex.main out_dir fs = Ok (0, [ Tex.Generated out_dir ], fs')
       /\ (forall m,
             m <= 256 ->
             Val.validate_theme_pack fs' out_dir Val.profile_v1 m
             = Ok (missing_presets fs out_dir Val.profile_v1))
       /\ Forall (fun entity =>
                    Forall (fun channel =>
                              Val.read_png_size fs'
                                (texture_path (out_dir / "textures")%path entity channel)
                              = Ok (256, 256))
                      Val.TEXTURE_CHANNELS)
            Val.ENTITIES.
Proof.
  unfold Tex.main. cbv zeta.
  set (fs0 := mkdir (mkdir fs (out_dir / "meshes")%path) (out_dir / "textures")%path).
  destruct (generate_meshes_exports (out_dir / "meshes")%path fs0)
    as [Hraise|(fs1 & Hrun & Hmeshes & Hmframe)].
  { left. rewrite Hraise, bind_raise. eauto. }
  rewrite Hrun, bind_ok.
  destruct (Tex.generate_textures (out_dir / "textures")%path fs1) as [fs2|e] eqn:Htex.
  2:{ left. rewrite bind_raise. eauto. }
  right. exists fs2. rewrite bind_ok. split; [reflexivity|].
  apply generate_textures_writes in Htex as [Htextures Htframe].
  split; [|exact Htextures].
  exact (pack_validates out_dir fs fs0 fs1 fs2 eq_refl Hmeshes Hmframe Htextures Htframe).
Qed.

(** X20: the pack that the generator writes passes every check of the
    validator under profile v1 but those for the presets, which the
    generator neither writes nor removes.  When [main] of the generator
    returns for [--out-dir out_dir], it exits with 0 after printing its one
    line, and on the files it leaves [validate_theme_pack], for profile v1
    and a minimum texture size of at most 256, returns exactly the errors
    for the presets directory and the preset files that the tree lacked
    before the run; [main] of the validator with [--profile v1] then passes
    exactly when none was missing. *)
Theorem generated_pack_validates {L : Libs} (out_dir : path) (fs : gmap path node) :
  (exists e, Tex.main out_dir fs = Raise e)
  \/ exists fs',
       Tex.main out_dir fs = Ok (0, [ Tex.Generated out_dir ], fs')
       /\ (forall min_texture_size,
             min_texture_size <= 256 ->
             Val.validate_theme_pack fs' out_dir Val.profile_v1 min_texture_size
             = Ok (missing_presets fs out_dir Val.profile_v1))
       /\ Val.main {| Val.arg_theme_dir := out_dir; Val.arg_profile := "v1";
                      Val.arg_min_texture_size := 0 |} fs'
          = Ok (match missing_presets fs out_dir Val.profile_v1 with
                | [] => (0, [ Val.PassedLine out_dir "v1" 256 ])
                | (_ :: _) as errors => (1, Val.FailedHeader :: (Val.ErrorLine <$> errors))
                end).
Proof.
  destruct (main_writes_pack out_dir fs) as [Hraise|(fs' & Hrun & Hval & _)];
    [left; exact Hraise|].
  right. exists fs'. split; [exact Hrun|]. split; [exact Hval|].
  unfold Val.main. cbn [Val.arg_profile Val.arg_theme_dir Val.arg_min_texture_size].
  replace (Val.PROFILES !! "v1") with (Some Val.profile_v1) by (vm_compute; reflexivity).
  rewrite bind_ok. cbv zeta. cbn [Z.ltb Z.compare Val.min_texture_size Val.profile_v1].
  rewrite Hval by lia. rewrite bind_ok.
  destruct (missing_presets fs out_dir Val.profile_v1); reflexivity.
Qed.

(** X21: the generated pack never passes with a minimum texture size above
    256.  When [main] of the generator returns, [validate_theme_pack] on
    the files it leaves returns the empty list for no profile and no
    minimum above 256, and [main] of the validator with [--profile v2]
    (minimum 512) cannot exit with 0: when it returns, the code is 1. *)
Theorem generated_pack_fails_v2 {L : Libs} (out_dir : path) (fs : gmap path node) :
  (exists e, Tex.main out_dir fs = Raise e)
  \/ exists fs',
       Tex.main out_dir fs = Ok (0, [ Tex.Generated out_dir ], fs')
       /\ (forall profile min_texture_size,
             256 < min_texture_size ->
             Val.validate_theme_pack fs' out_dir profile min_texture_size <> Ok [])
       /\ (forall code lines,
             Val.main {| Val.arg_theme_dir := out_dir; Val.arg_profile := "v2";
                         Val.arg_min_texture_size := 0 |} fs'
             = Ok (code, lines) ->
             code = 1).
Proof.
  destruct (main_writes_pack out_dir fs) as [Hraise|(fs' & Hrun & _ & Htextures)];
    [left; exact Hraise|].
  right. exists fs'. split; [exact Hrun|].
  assert (Hfails : forall profile m,
             256 < m -> Val.validate_theme_pack fs' out_dir profile m <> Ok []).
  { intros profile m Hm. unfold Val.validate_theme_pack. cbv zeta. intros Hnil.
    apply (for_each_delta_nil _
             (fun entity => Val.validate_entity fs' (out_dir / "meshes")%path
                              (out_dir / "textures")%path profile m entity []))
      in Hnil as [_ Hall]; [|intros entity s; apply validate_entity_delta].
    unfold Val.ENTITIES in Hall, Htextures.
    apply Forall_cons in Hall as [Hagent _]. apply Forall_cons in Htextures as [Hread _].
    apply validate_entity_nil in Hagent as [_ Hpass].
    unfold Val.TEXTURE_CHANNELS in Hpass, Hread.
    apply Forall_cons in Hpass as [(size & Hsize & Hle) _].
    apply Forall_cons in Hread as [Hread _].
    unfold texture_path in Hread. rewrite Hread in Hsize.
    injection Hsize as <-. lia. }
  split; [exact Hfails|].
  intros code lines. unfold Val.main.
  cbn [Val.arg_profile Val.arg_theme_dir Val.arg_min_texture_size].
  replace (Val.PROFILES !! "v2") with (Some Val.profile_v2) by (vm_compute; reflexivity).
  rewrite bind_ok. cbv zeta. cbn [Z.ltb Z.compare Val.min_texture_size Val.profile_v2].
  pose proof (Hfails Val.profile_v2 512 ltac:(lia)) as Hv2.
  destruct (Val.validate_theme_pack fs' out_dir Val.profile_v2 512) as [[|err errs]|e];
    [congruence | | discriminate].
  rewrite bind_ok. intros [= <- _]. reflexivity.
Qed.
